(** * ToolWarehouse client: cart store, session store and catalog gateway

    A shallow embedding of [src/contexts/CartContext.tsx], of the session
    provider ([AuthProvider]), of the catalog service ([getProducts],
    [getProductById], [getCategories]), of the product card and of the
    catalog screen, together with the properties the specification states
    about them and further properties of the code.

    Conventions of the embedding.
    - A JavaScript [string] is a Rocq [string]: a sequence of bytes (the
      UTF-8 text); [===] on strings is [String.eqb], and [<] on strings is
      that of the UTF-16 code units of the text ([code_units]).
    - [quantity] and [stock] are integer-valued numbers and are kept as [Z].
      The sum of two of them in [Z] is the binary64 sum of the program as
      long as the two and their sum are safe integers ([number_add_safe]);
      what is stated of sums of quantities is stated there.
    - [price] is an IEEE-754 binary64 value, a primitive [float]; the
      arithmetic of [totalPrice] is the hardware arithmetic.
    - Asynchronous code runs to completion, one call after the other (the
      event loop without interleaving); a promise is the completion of its
      computation.
    - A document of the store is a map from its fields to strings; a
      collection is named by its path. *)

From Stdlib Require Import ZArith String Ascii List Floats.
From Stdlib Require Import DecimalString DecimalZ DecimalPos.
From stdpp Require Import base gmap strings list sorting.
Import ListNotations.

Set Warnings "-inexact-float".
Local Open Scope string_scope.
Local Open Scope Z_scope.

(** ** Data model ([src/types/index.ts]) *)

Module Product.
Record t := mk {
  id : string;
  name : string;
  description : string;
  price : float;
  imageURL : string;
  stock : Z;
  category : string;
  createdAt : string;
  updatedAt : string;
}.
End Product.

Module CartItem.
Record t := mk {
  productId : string;
  quantity : Z;
  product : Product.t;
}.
End CartItem.

(** ** Numbers and their text

    The Number value of a decimal, Number::toString (ECMA-262) and the number
    tokens of JSON text (ECMA-404). *)

Module Number.

(** The Number value of [±m × 10^e10]: the binary64 nearest to it, ties to
    even. *)
Definition of_decimal (neg : bool) (m : Z) (e10 : Z) : float :=
  match m with
  | Zpos p =>
      SF2Prim
        (if 0 <=? e10
         then binary_normalize prec emax (cond_Zopp neg (m * 10 ^ e10)) 0 false
         else SFdiv prec emax (S754_finite neg p 0)
                    (S754_finite false (Z.to_pos (10 ^ (- e10))) 0))
  | _ => if neg then neg_zero else zero
  end.

(** The first [j], counting up from the one given, with [den <= num * 10^j]. *)
Fixpoint scale_up (fuel : nat) (num den j : Z) : Z :=
  match fuel with
  | O => j
  | S fuel' => if den <=? num * 10 ^ j then j else scale_up fuel' num den (j + 1)
  end.

(** [n] with [10^(n-1) <= num/den < 10^n]. *)
Definition decimal_exponent (num den : Z) : Z :=
  if den <=? num
  then Z.of_nat (Decimal.nb_digits (Pos.to_uint (Z.to_pos (num / den))))
  else 1 - scale_up 400 num den 1.

(** The two decimals of [k] digits next to [num/den], each as [(s, e10)] with
    value [s × 10^e10], and the side of the middle between them on which
    [num/den] lies. *)
Definition candidates (num den n k : Z) : (Z * Z) * (Z * Z) * comparison :=
  let a := k - n in
  let N := num * 10 ^ Z.max 0 a in
  let D := den * 10 ^ Z.max 0 (- a) in
  let lo := N / D in
  let r := N mod D in
  let hi := lo + 1 in
  ((lo, n - k),
   (if hi =? 10 ^ k then (10 ^ (k - 1), n + 1 - k) else (hi, n - k)),
   (2 * r ?= D)).

(** The Number value of the decimal [c] is [x]. *)
Definition represents (x : float) (c : Z * Z) : bool :=
  PrimFloat.Leibniz.eqb (of_decimal false (fst c) (snd c)) x.

Definition pick (x : float) (num den n k : Z) : option (Z * Z) :=
  let '(lo, hi, side) := candidates num den n k in
  match represents x lo, represents x hi with
  | true, true =>
      match side with
      | Lt => Some lo
      | Gt => Some hi
      | Eq => if Z.even (fst lo) then Some lo else Some hi
      end
  | true, false => Some lo
  | false, true => Some hi
  | false, false => None
  end.

(** The decimal with the fewest digits, [k] or more, whose Number value is
    [x]; of two with that many digits the one closer to [num/den]. *)
Fixpoint shortest (fuel : nat) (x : float) (num den n k : Z) : Z * Z :=
  match fuel with
  | O => fst (fst (candidates num den n k))
  | S fuel' =>
      match pick x num den n k with
      | Some c => c
      | None => shortest fuel' x num den n (k + 1)
      end
  end.

(** [m * 2^n], a mantissa shifted as [shl_align] shifts it. *)
Definition shl (m : positive) (n : nat) : positive := Nat.iter n xO m.

(** The numerator and the denominator of [m * 2^e]. *)
Definition numerator (m : positive) (e : Z) : Z :=
  if 0 <=? e then Zpos m * 2 ^ e else Zpos m.

Definition denominator (e : Z) : Z := if 0 <=? e then 1 else 2 ^ (- e).

(** The decimal [(s, e10)] that Number::toString writes for the positive
    value [m * 2^e]. The search stops at the latest where the decimal is
    the value itself. *)
Definition digits (m : positive) (e : Z) : Z * Z :=
  let num := numerator m e in
  let den := denominator e in
  let n := decimal_exponent num den in
  shortest (Z.to_nat (Z.max 1 (n + Z.max 0 (- e))))
           (SF2Prim (S754_finite false m e)) num den n 1.

Definition decimal_digits (s : Z) : list ascii :=
  list_ascii_of_string (NilEmpty.string_of_uint (Pos.to_uint (Z.to_pos s))).

Definition zeros (n : Z) : list ascii := repeat "0"%char (Z.to_nat n).

(** The exponent part: [e], a sign, the digits. *)
Definition exponent_text (ex : Z) : list ascii :=
  "e"%char :: (if 0 <=? ex then "+"%char else "-"%char) :: decimal_digits (Z.abs ex).

(** The text of the digits [ds], [k] of them, with the decimal point after
    the [n]-th. *)
Definition format (ds : list ascii) (n k : Z) : list ascii :=
  if (k <=? n) && (n <=? 21) then ds ++ zeros (n - k)
  else if (0 <? n) && (n <=? 21)
  then take (Z.to_nat n) ds ++ "."%char :: drop (Z.to_nat n) ds
  else if (-6 <? n) && (n <=? 0)
  then "0"%char :: "."%char :: zeros (- n) ++ ds
  else if k =? 1 then ds ++ exponent_text (n - 1)
  else take 1 ds ++ "."%char :: drop 1 ds ++ exponent_text (n - 1).

(** Number::toString. *)
Definition toString (x : float) : list ascii :=
  match Prim2SF x with
  | S754_nan => list_ascii_of_string "NaN"
  | S754_zero _ => list_ascii_of_string "0"
  | S754_infinity s =>
      list_ascii_of_string (if s then "-Infinity" else "Infinity")
  | S754_finite s m e =>
      let '(d, e10) := digits m e in
      let ds := decimal_digits d in
      let k := Z.of_nat (length ds) in
      (if s then ["-"%char] else []) ++ format ds (e10 + k) k
  end.

(** *** Number literals of JSON text *)

Definition is_digit (c : ascii) : bool :=
  let n := N_of_ascii c in ((48 <=? n) && (n <=? 57))%N.

Fixpoint span (f : ascii -> bool) (s : list ascii) : list ascii * list ascii :=
  match s with
  | c :: r => if f c then let (a, b) := span f r in (c :: a, b) else ([], s)
  | [] => ([], [])
  end.

(** The number a run of digits denotes. *)
Definition digit_value (c : ascii) : Z := Z.of_N (N_of_ascii c) - 48.

Definition natural (l : list ascii) : Z :=
  fold_left (fun value c => 10 * value + digit_value c) l 0.

(** int: a digit run that is "0" or starts with a non-zero digit *)
Definition valid_int (ip : list ascii) : bool :=
  match ip with
  | [] => false
  | [_] => true
  | c :: _ => negb (Ascii.eqb c "0")
  end.

Definition lex_frac (s : list ascii) : option (list ascii * list ascii) :=
  match s with
  | c :: r =>
      if Ascii.eqb c "."
      then let (fp, s') := span is_digit r in
           match fp with [] => None | _ => Some (fp, s') end
      else Some ([], s)
  | [] => Some ([], [])
  end.

Definition lex_sign (s : list ascii) : bool * list ascii :=
  match s with
  | c :: r =>
      if Ascii.eqb c "-" then (true, r)
      else if Ascii.eqb c "+" then (false, r) else (false, s)
  | [] => (false, [])
  end.

Definition lex_exp (s : list ascii) : option (Z * list ascii) :=
  match s with
  | c :: r =>
      if Ascii.eqb c "e" || Ascii.eqb c "E"
      then let (sg, r1) := lex_sign r in
           let (ed, s') := span is_digit r1 in
           match ed with
           | [] => None
           | _ => Some (cond_Zopp sg (natural ed), s')
           end
      else Some (0, s)
  | [] => Some (0, [])
  end.

(** The sign of a number token. *)
Definition lex_minus (s : list ascii) : bool * list ascii :=
  match s with
  | c :: r => if Ascii.eqb c "-" then (true, r) else (false, s)
  | [] => (false, [])
  end.

(** A number token as [(negative, m, e10)], its value being [m * 10^e10];
    [None] when the token is not a JSON number. *)
Definition literal (s : list ascii) : option (bool * Z * Z) :=
  let (neg, s1) := lex_minus s in
  let (ip, s2) := span is_digit s1 in
  if valid_int ip then
    match lex_frac s2 with
    | Some (fp, s3) =>
        match lex_exp s3 with
        | Some (ex, []) =>
            Some (neg, natural (ip ++ fp), ex - Z.of_nat (length fp))
        | _ => None
        end
    | None => None
    end
  else None.

(** The Number value of a number token. *)
Definition parse (s : list ascii) : option float :=
  match literal s with
  | Some (neg, m, e10) => Some (of_decimal neg m e10)
  | None => None
  end.

(** A finite number other than -0. *)
Definition plain (x : float) : bool :=
  match Prim2SF x with
  | S754_finite _ _ _ | S754_zero false => true
  | _ => false
  end.

(** The integer a number token denotes, when it denotes one. *)
Definition parse_integer (s : list ascii) : option Z :=
  match literal s with
  | Some (neg, m, e10) =>
      if 0 <=? e10 then Some (cond_Zopp neg (m * 10 ^ e10))
      else let d := 10 ^ (- e10) in
           if m mod d =? 0 then Some (cond_Zopp neg (m / d)) else None
  | None => None
  end.

(** Number::toString on an integer of the safe range. *)
Definition integer_toString (z : Z) : list ascii :=
  list_ascii_of_string (NilZero.string_of_int (Z.to_int z)).
End Number.

(** ** JSON text *)

Module JSON.
Local Open Scope list_scope.
Set Warnings "-register-all".

(** The syntax tree of a JSON text. A number keeps its token: its Number
    value is taken where the tree is read at a type ([Number.parse],
    [Number.parse_integer]). *)
Inductive value :=
| JNull
| JBool (b : bool)
| JNumber (token : list ascii)
| JString (s : string)
| JArray (elements : list value)
| JObject (members : list (string * value)).

(** *** JSON.stringify on a tree (no indentation) *)

Definition hex_digit (n : N) : ascii :=
  ascii_of_N (if (n <? 10)%N then 48 + n else 87 + n)%N.

(** QuoteJSONString on one character. *)
Definition escape (c : ascii) : list ascii :=
  let n := N_of_ascii c in
  if Ascii.eqb c "034" then ["\"; "034"]%char
  else if Ascii.eqb c "\" then ["\"; "\"]%char
  else if (n =? 8)%N then ["\"; "b"]%char
  else if (n =? 9)%N then ["\"; "t"]%char
  else if (n =? 10)%N then ["\"; "n"]%char
  else if (n =? 12)%N then ["\"; "f"]%char
  else if (n =? 13)%N then ["\"; "r"]%char
  else if (n <? 32)%N
  then ["\"; "u"; "0"; "0"; hex_digit (n / 16); hex_digit (n mod 16)]%char
  else [c].

Definition quote (s : string) : list ascii :=
  "034"%char :: flat_map escape (list_ascii_of_string s) ++ ["034"%char].

Fixpoint print (v : value) : list ascii :=
  match v with
  | JNull => list_ascii_of_string "null"
  | JBool b => list_ascii_of_string (if b then "true" else "false")
  | JNumber token => token
  | JString s => quote s
  | JArray elements =>
      "["%char ::
      (fix print_elements (l : list value) : list ascii :=
         match l with
         | [] => []
         | v :: l' =>
             print v ++
             match l' with
             | [] => []
             | _ :: _ => ","%char :: print_elements l'
             end
         end) elements ++ ["]"%char]
  | JObject members =>
      "{"%char ::
      (fix print_members (l : list (string * value)) : list ascii :=
         match l with
         | [] => []
         | (k, v) :: l' =>
             quote k ++ ":"%char :: print v ++
             match l' with
             | [] => []
             | _ :: _ => ","%char :: print_members l'
             end
         end) members ++ ["}"%char]
  end.

(** *** JSON.parse to a tree *)

Definition is_ws (c : ascii) : bool :=
  let n := N_of_ascii c in
  ((n =? 32) || (n =? 9) || (n =? 10) || (n =? 13))%N.

Fixpoint skip_ws (s : list ascii) : list ascii :=
  match s with
  | c :: r => if is_ws c then skip_ws r else s
  | [] => []
  end.

Definition hex_value (c : ascii) : option N :=
  let n := N_of_ascii c in
  if ((48 <=? n) && (n <=? 57))%N then Some (n - 48)%N
  else if ((97 <=? n) && (n <=? 102))%N then Some (n - 87)%N
  else if ((65 <=? n) && (n <=? 70))%N then Some (n - 55)%N
  else None.

(** The bytes of a code unit written [\uXXXX] (UTF-8; a surrogate half
    is encoded on its own). *)
Definition utf8 (u : N) : list ascii :=
  if (u <? 128)%N then [ascii_of_N u]
  else if (u <? 2048)%N
  then [ascii_of_N (192 + u / 64); ascii_of_N (128 + u mod 64)]%N
  else [ascii_of_N (224 + u / 4096); ascii_of_N (128 + (u / 64) mod 64);
        ascii_of_N (128 + u mod 64)]%N.

Definition unescape (c : ascii) : option ascii :=
  if Ascii.eqb c "034" then Some "034"%char
  else if Ascii.eqb c "\" then Some "\"%char
  else if Ascii.eqb c "/" then Some "/"%char
  else if Ascii.eqb c "b" then Some (ascii_of_N 8)
  else if Ascii.eqb c "t" then Some (ascii_of_N 9)
  else if Ascii.eqb c "n" then Some (ascii_of_N 10)
  else if Ascii.eqb c "f" then Some (ascii_of_N 12)
  else if Ascii.eqb c "r" then Some (ascii_of_N 13)
  else None.

(** The characters of a string up to its closing quote. *)
Fixpoint parse_chars (s : list ascii) : option (list ascii * list ascii) :=
  match s with
  | [] => None
  | c :: r =>
      if Ascii.eqb c "034" then Some ([], r)
      else if Ascii.eqb c "\" then
        match r with
        | [] => None
        | e :: r1 =>
            if Ascii.eqb e "u" then
              match r1 with
              | h1 :: h2 :: h3 :: h4 :: r2 =>
                  match hex_value h1, hex_value h2, hex_value h3, hex_value h4,
                        parse_chars r2 with
                  | Some a, Some b, Some c', Some d, Some (cs, rest) =>
                      Some (utf8 (((a * 16 + b) * 16 + c') * 16 + d)%N ++ cs, rest)
                  | _, _, _, _, _ => None
                  end
              | _ => None
              end
            else
              match unescape e, parse_chars r1 with
              | Some x, Some (cs, rest) => Some (x :: cs, rest)
              | _, _ => None
              end
        end
      else if (N_of_ascii c <? 32)%N then None
      else match parse_chars r with
           | Some (cs, rest) => Some (c :: cs, rest)
           | None => None
           end
  end.

Definition is_number_char (c : ascii) : bool :=
  Number.is_digit c || Ascii.eqb c "-" || Ascii.eqb c "+" || Ascii.eqb c "."
  || Ascii.eqb c "e" || Ascii.eqb c "E".

Fixpoint strip_prefix (p s : list ascii) : option (list ascii) :=
  match p, s with
  | [], _ => Some s
  | a :: p', b :: s' => if Ascii.eqb a b then strip_prefix p' s' else None
  | _ :: _, [] => None
  end.

Definition parse_keyword (kw : string) (v : value) (s : list ascii)
  : option (value * list ascii) :=
  match strip_prefix (list_ascii_of_string kw) s with
  | Some r => Some (v, r)
  | None => None
  end.

Definition parse_number (s : list ascii) : option (value * list ascii) :=
  let (token, r) := Number.span is_number_char s in
  match Number.literal token with
  | Some _ => Some (JNumber token, r)
  | None => None
  end.

Fixpoint parse_value (fuel : nat) (s : list ascii) {struct fuel}
  : option (value * list ascii) :=
  match fuel with
  | O => None
  | S fuel' =>
      match skip_ws s with
      | [] => None
      | c :: r =>
          if Ascii.eqb c "n" then parse_keyword "null" JNull (c :: r)
          else if Ascii.eqb c "t" then parse_keyword "true" (JBool true) (c :: r)
          else if Ascii.eqb c "f" then parse_keyword "false" (JBool false) (c :: r)
          else if Ascii.eqb c "034" then
            match parse_chars r with
            | Some (cs, r') => Some (JString (string_of_list_ascii cs), r')
            | None => None
            end
          else if Ascii.eqb c "[" then
            match skip_ws r with
            | [] => None
            | c' :: r' =>
                if Ascii.eqb c' "]" then Some (JArray [], r')
                else match parse_elements fuel' r with
                     | Some (vs, r'') => Some (JArray vs, r'')
                     | None => None
                     end
            end
          else if Ascii.eqb c "{" then
            match skip_ws r with
            | [] => None
            | c' :: r' =>
                if Ascii.eqb c' "}" then Some (JObject [], r')
                else match parse_members fuel' r with
                     | Some (ms, r'') => Some (JObject ms, r'')
                     | None => None
                     end
            end
          else parse_number (c :: r)
      end
  end
with parse_elements (fuel : nat) (s : list ascii) {struct fuel}
  : option (list value * list ascii) :=
  match fuel with
  | O => None
  | S fuel' =>
      match parse_value fuel' s with
      | None => None
      | Some (v, r) =>
          match skip_ws r with
          | [] => None
          | c :: r' =>
              if Ascii.eqb c "," then
                match parse_elements fuel' r' with
                | Some (vs, r'') => Some (v :: vs, r'')
                | None => None
                end
              else if Ascii.eqb c "]" then Some ([v], r')
              else None
          end
      end
  end
with parse_members (fuel : nat) (s : list ascii) {struct fuel}
  : option (list (string * value) * list ascii) :=
  match fuel with
  | O => None
  | S fuel' =>
      match skip_ws s with
      | [] => None
      | q :: r =>
          if Ascii.eqb q "034" then
            match parse_chars r with
            | None => None
            | Some (k, r1) =>
                match skip_ws r1 with
                | [] => None
                | c :: r2 =>
                    if Ascii.eqb c ":" then
                      match parse_value fuel' r2 with
                      | None => None
                      | Some (v, r3) =>
                          match skip_ws r3 with
                          | [] => None
                          | c' :: r4 =>
                              if Ascii.eqb c' "," then
                                match parse_members fuel' r4 with
                                | Some (ms, r5) =>
                                    Some ((string_of_list_ascii k, v) :: ms, r5)
                                | None => None
                                end
                              else if Ascii.eqb c' "}"
                              then Some ([(string_of_list_ascii k, v)], r4)
                              else None
                          end
                      end
                    else None
                end
            end
          else None
      end
  end.

(** The tree of a whole text; [None] is the SyntaxError of JSON.parse. *)
Definition parse (text : string) : option value :=
  let s := list_ascii_of_string text in
  match parse_value (S (length s)) s with
  | Some (v, r) => match skip_ws r with [] => Some v | _ :: _ => None end
  | None => None
  end.

Definition stringify (v : value) : string := string_of_list_ascii (print v).

Fixpoint print_elements (l : list value) : list ascii :=
  match l with
  | [] => []
  | v :: l' =>
      print v ++ match l' with [] => [] | _ :: _ => ","%char :: print_elements l' end
  end.

Fixpoint print_members (l : list (string * value)) : list ascii :=
  match l with
  | [] => []
  | (k, v) :: l' =>
      quote k ++ ":"%char :: print v ++
      match l' with [] => [] | _ :: _ => ","%char :: print_members l' end
  end.

(** A tree whose number tokens are JSON numbers. *)
Inductive well_formed : value -> Prop :=
| wf_null : well_formed JNull
| wf_bool b : well_formed (JBool b)
| wf_number token : Number.literal token <> None -> well_formed (JNumber token)
| wf_string s : well_formed (JString s)
| wf_array elements : Forall well_formed elements -> well_formed (JArray elements)
| wf_object members :
    Forall (fun m => well_formed (snd m)) members -> well_formed (JObject members).

Definition delimited (rest : list ascii) : bool :=
  match rest with
  | [] => true
  | c :: _ => negb (is_number_char c)
  end.

(** The first character of a printed tree starts a value. *)
Definition starts_value (c : ascii) : bool :=
  Number.is_digit c || Ascii.eqb c "-" || Ascii.eqb c "n" || Ascii.eqb c "t"
  || Ascii.eqb c "f" || Ascii.eqb c "034" || Ascii.eqb c "[" || Ascii.eqb c "{".

Definition round_trips (v : value) : Prop :=
  forall fuel rest,
    (length (print v) <= fuel)%nat -> delimited rest = true ->
    parse_value fuel (print v ++ rest) = Some (v, rest).
End JSON.


(** ** The persisted cart snapshot

    What JSON.stringify emits for a [CartItem[]] and how a parsed tree is read
    back at that type. The keys of a line item come in the order in which
    [addToCart] writes them, those of a product in the order of the
    interface. *)
Module Snapshot.
Import JSON.
Local Open Scope list_scope.

(** SerializeJSONProperty on a Number: a non-finite number is written
    [null]. *)
Definition of_number (x : float) : value :=
  match Prim2SF x with
  | S754_nan | S754_infinity _ => JNull
  | _ => JNumber (Number.toString x)
  end.

Definition of_integer (z : Z) : value := JNumber (Number.integer_toString z).

Definition of_Product (p : Product.t) : value :=
  JObject [("id", JString (Product.id p));
           ("name", JString (Product.name p));
           ("description", JString (Product.description p));
           ("price", of_number (Product.price p));
           ("imageURL", JString (Product.imageURL p));
           ("stock", of_integer (Product.stock p));
           ("category", JString (Product.category p));
           ("createdAt", JString (Product.createdAt p));
           ("updatedAt", JString (Product.updatedAt p))].

Definition of_CartItem (item : CartItem.t) : value :=
  JObject [("productId", JString (CartItem.productId item));
           ("quantity", of_integer (CartItem.quantity item));
           ("product", of_Product (CartItem.product item))].

Definition of_CartItems (items : list CartItem.t) : value :=
  JArray (List.map of_CartItem items).

(** The property [key] of an object: of two members with one key the
    later one stands. *)
Definition member (key : string) (members : list (string * value)) : option value :=
  match List.find (fun m => String.eqb (fst m) key) (List.rev members) with
  | Some m => Some (snd m)
  | None => None
  end.

Definition as_string (v : option value) : option string :=
  match v with Some (JString s) => Some s | _ => None end.

Definition as_integer (v : option value) : option Z :=
  match v with Some (JNumber token) => Number.parse_integer token | _ => None end.

Definition as_number (v : option value) : option float :=
  match v with Some (JNumber token) => Number.parse token | _ => None end.

(** A tree read at the type [Product]: an object with exactly the nine
    properties of the interface, each of its type. *)
Definition as_Product (v : option value) : option Product.t :=
  match v with
  | Some (JObject ms) =>
      match as_string (member "id" ms), as_string (member "name" ms),
            as_string (member "description" ms), as_number (member "price" ms),
            as_string (member "imageURL" ms), as_integer (member "stock" ms),
            as_string (member "category" ms), as_string (member "createdAt" ms),
            as_string (member "updatedAt" ms) with
      | Some i, Some n, Some d, Some p, Some u, Some s, Some c, Some ca, Some ua =>
          if (length ms =? 9)%nat then Some (Product.mk i n d p u s c ca ua) else None
      | _, _, _, _, _, _, _, _, _ => None
      end
  | _ => None
  end.

Definition as_CartItem (v : value) : option CartItem.t :=
  match v with
  | JObject ms =>
      match as_string (member "productId" ms), as_integer (member "quantity" ms),
            as_Product (member "product" ms) with
      | Some i, Some q, Some p =>
          if (length ms =? 3)%nat then Some (CartItem.mk i q p) else None
      | _, _, _ => None
      end
  | _ => None
  end.

Fixpoint as_list (vs : list value) : option (list CartItem.t) :=
  match vs with
  | [] => Some []
  | v :: vs' =>
      match as_CartItem v, as_list vs' with
      | Some item, Some items => Some (item :: items)
      | _, _ => None
      end
  end.

Definition as_CartItems (v : value) : option (list CartItem.t) :=
  match v with
  | JArray vs => as_list vs
  | _ => None
  end.

(** A number that JSON text carries unchanged. *)
Definition persistable (x : float) : Prop :=
  as_number (Some (of_number x)) = Some x.

Definition persistable_cart (items : list CartItem.t) : Prop :=
  Forall (fun item => persistable (Product.price (CartItem.product item))) items.

(** Every price of the cart is a finite number other than -0. *)
Definition finite_prices (items : list CartItem.t) : Prop :=
  Forall (fun item => Number.plain (Product.price (CartItem.product item)) = true) items.
End Snapshot.

(** ** The runtime the providers and the services run in *)

Inductive Error := Err (message : string).

(** How a call ends: a value (a fulfilled promise), an exception (a rejected
    one), or a value that does not inhabit its TypeScript type, after which
    the embedding says nothing. *)
Inductive Completion (A : Type) : Type :=
| Normal (a : A)
| Throw (e : Error)
| Untyped.
Arguments Normal {A} a.
Arguments Throw {A} e.
Arguments Untyped {A}.

(** The calls into the device and into the document store that can fail. *)
Inductive Call := GetItem | SetItem | RemoveItem | GetDoc | GetDocs.

Record User := mkUser { uid : string }.

(** What the [userRole] state holds: [null], [undefined] (a profile without
    a role field) or the string of the role field. *)
Inductive Role := null | undefined | tag (s : string).

Module App.
Record t := mk {
  (* CartProvider *)
  items : list CartItem.t;
  (* AuthProvider *)
  user : option User;
  userRole : Role;
  loading : bool;
  (* AsyncStorage and Firestore: collection, document id, field *)
  storage : gmap string string;
  firestore : gmap string (gmap string (gmap string string));
  rejects : Call -> option Error;
  (* what was done: getDoc calls, console.error calls, rejected promises
     nobody awaits *)
  reads : list (string * string);
  console : list (string * Error);
  unhandled : list Error;
}.

Definition set_items (v : list CartItem.t) (w : t) : t :=
  mk v (user w) (userRole w) (loading w) (storage w) (firestore w) (rejects w)
     (reads w) (console w) (unhandled w).
Definition set_user (v : option User) (w : t) : t :=
  mk (items w) v (userRole w) (loading w) (storage w) (firestore w) (rejects w)
     (reads w) (console w) (unhandled w).
Definition set_userRole (v : Role) (w : t) : t :=
  mk (items w) (user w) v (loading w) (storage w) (firestore w) (rejects w)
     (reads w) (console w) (unhandled w).
Definition set_loading (v : bool) (w : t) : t :=
  mk (items w) (user w) (userRole w) v (storage w) (firestore w) (rejects w)
     (reads w) (console w) (unhandled w).
Definition set_storage (v : gmap string string) (w : t) : t :=
  mk (items w) (user w) (userRole w) (loading w) v (firestore w) (rejects w)
     (reads w) (console w) (unhandled w).
Definition set_reads (v : list (string * string)) (w : t) : t :=
  mk (items w) (user w) (userRole w) (loading w) (storage w) (firestore w)
     (rejects w) v (console w) (unhandled w).
Definition set_console (v : list (string * Error)) (w : t) : t :=
  mk (items w) (user w) (userRole w) (loading w) (storage w) (firestore w)
     (rejects w) (reads w) v (unhandled w).
Definition set_unhandled (v : list Error) (w : t) : t :=
  mk (items w) (user w) (userRole w) (loading w) (storage w) (firestore w)
     (rejects w) (reads w) (console w) v.
End App.

Module Initial.
(** The application when it starts: nothing in memory, nothing stored, no
    failing service. *)
Definition app : App.t :=
  App.mk [] None null true ∅ ∅ (fun _ => None) [] [] [].
End Initial.

(** An asynchronous function, run to completion. *)
Definition Async (A : Type) : Type := App.t -> Completion A * App.t.

#[global] Instance Async_ret : MRet Async := fun A a w => (Normal a, w).

#[global] Instance Async_bind : MBind Async := fun A B k m w =>
  match m w with
  | (Normal a, w') => k a w'
  | (Throw e, w') => (Throw e, w')
  | (Untyped, w') => (Untyped, w')
  end.

Definition throw {A} (e : Error) : Async A := fun w => (Throw e, w).

(** [try { m } catch (error) { handler error }] *)
Definition try_catch {A} (m : Async A) (handler : Error -> Async A) : Async A :=
  fun w =>
    match m w with
    | (Throw e, w') => handler e w'
    | r => r
    end.

(** A call whose promise nobody awaits: the caller goes on, and a rejection
    is left unhandled. *)
Definition spawn {A} (m : Async A) : Async unit :=
  fun w =>
    match m w with
    | (Normal _, w') => (Normal tt, w')
    | (Throw e, w') => (Normal tt, App.set_unhandled (App.unhandled w' ++ [e]) w')
    | (Untyped, w') => (Untyped, w')
    end.

Definition completion {A} (m : Async A) (w : App.t) : Completion A := fst (m w).
Definition exec {A} (m : Async A) (w : App.t) : App.t := snd (m w).

Definition console_error (label : string) (error : Error) : Async unit :=
  fun w => (Normal tt, App.set_console (App.console w ++ [(label, error)]) w).

Module AsyncStorage.
Definition getItem (key : string) : Async (option string) :=
  fun w =>
    match App.rejects w GetItem with
    | Some e => (Throw e, w)
    | None => (Normal (App.storage w !! key), w)
    end.

Definition setItem (key value : string) : Async unit :=
  fun w =>
    match App.rejects w SetItem with
    | Some e => (Throw e, w)
    | None => (Normal tt, App.set_storage (<[key := value]> (App.storage w)) w)
    end.

Definition removeItem (key : string) : Async unit :=
  fun w =>
    match App.rejects w RemoveItem with
    | Some e => (Throw e, w)
    | None => (Normal tt, App.set_storage (delete key (App.storage w)) w)
    end.
End AsyncStorage.

(** ** Cart store ([src/contexts/CartContext.tsx]) *)

Definition CART_STORAGE_KEY : string := "@cart_items".

(** [setItems(updater)] and [setItems(value)] of [useState]. *)
Definition setItems (updater : list CartItem.t -> Async (list CartItem.t)) : Async unit :=
  fun w =>
    match updater (App.items w) w with
    | (Normal next, w') => (Normal tt, App.set_items next w')
    | (Throw e, w') => (Throw e, w')
    | (Untyped, w') => (Untyped, w')
    end.

Definition setItems_value (next : list CartItem.t) : Async unit :=
  fun w => (Normal tt, App.set_items next w).

(** [JSON.parse(savedCart)] at the type [CartItem[]] of the state. *)
Definition JSON_parse (text : string) : Async (list CartItem.t) :=
  fun w =>
    match JSON.parse text with
    | None => (Throw (Err "SyntaxError"), w)
    | Some v =>
        match Snapshot.as_CartItems v with
        | Some cartItems => (Normal cartItems, w)
        | None => (Untyped, w)
        end
    end.

Definition JSON_stringify (cartItems : list CartItem.t) : string :=
  JSON.stringify (Snapshot.of_CartItems cartItems).

Definition loadCart : Async unit :=
  try_catch
    (savedCart ← AsyncStorage.getItem CART_STORAGE_KEY;
     match savedCart with
     | Some (String c text) =>
         parsed ← JSON_parse (String c text);
         setItems_value parsed
     | Some EmptyString | None => mret tt
     end)
    (fun error => console_error "Error loading cart:" error).

Definition saveCart (cartItems : list CartItem.t) : Async unit :=
  try_catch
    (AsyncStorage.setItem CART_STORAGE_KEY (JSON_stringify cartItems))
    (fun error => console_error "Error saving cart:" error).

Definition addToCart (product : Product.t) (quantity : Z) : Async unit :=
  setItems (fun currentItems =>
    match List.find (fun item => String.eqb (CartItem.productId item) (Product.id product))
                    currentItems with
    | Some existingItem =>
        let updatedItems :=
          List.map (fun item =>
                      if String.eqb (CartItem.productId item) (Product.id product)
                      then CartItem.mk (CartItem.productId item)
                                       (CartItem.quantity item + quantity)
                                       (CartItem.product item)
                      else item)
                   currentItems in
        spawn (saveCart updatedItems);;
        mret updatedItems
    | None =>
        let newItems :=
          (currentItems ++ [CartItem.mk (Product.id product) quantity product])%list in
        spawn (saveCart newItems);;
        mret newItems
    end).

Definition removeFromCart (productId : string) : Async unit :=
  setItems (fun currentItems =>
    let updatedItems :=
      List.filter (fun item => negb (String.eqb (CartItem.productId item) productId))
                  currentItems in
    spawn (saveCart updatedItems);;
    mret updatedItems).

Definition updateQuantity (productId : string) (quantity : Z) : Async unit :=
  if quantity <? 1 then removeFromCart productId
  else
    setItems (fun currentItems =>
      let updatedItems :=
        List.map (fun item =>
                    if String.eqb (CartItem.productId item) productId
                    then CartItem.mk (CartItem.productId item) quantity
                                     (CartItem.product item)
                    else item)
                 currentItems in
      spawn (saveCart updatedItems);;
      mret updatedItems).

Definition clearCart : Async unit :=
  setItems_value [];;
  AsyncStorage.removeItem CART_STORAGE_KEY.

(** The binary64 value of an integer-valued number. *)
Definition number_of_Z (z : Z) : float :=
  SF2Prim (binary_normalize prec emax z 0 false).

Definition totalItems (items : list CartItem.t) : Z :=
  fold_left (fun sum item => sum + CartItem.quantity item) items 0.

Definition totalPrice (items : list CartItem.t) : float :=
  fold_left (fun sum item =>
               (sum + Product.price (CartItem.product item)
                      * number_of_Z (CartItem.quantity item))%float)
            items 0%float.

(** [Number.isSafeInteger] on an integer: up to it the integers are binary64
    numbers, each of them, and the sum of two of them that is one of them
    is their binary64 sum. *)
Definition isSafeInteger (z : Z) : bool := Z.abs z <=? 2 ^ 53 - 1.

(** The binary64 number of a safe integer other than 0: its digits moved up
    to the 53 bits of a mantissa. *)
Definition safe_float (negative : bool) (q : positive) : spec_float :=
  S754_finite negative
              (Number.shl q (Z.to_nat (53 - Zpos (digits2_pos q))))
              (Zpos (digits2_pos q) - 53).

(** The numbers of a sum taken from left to right are safe integers: what
    is added and what the sum is after each addition. *)
Fixpoint safe_sum (sum : Z) (quantities : list Z) : bool :=
  match quantities with
  | [] => true
  | q :: quantities' =>
      isSafeInteger q && isSafeInteger (sum + q) && safe_sum (sum + q) quantities'
  end.

(** The sum as the code computes it: binary64 additions from left to
    right. *)
Definition number_sum (sum : float) (quantities : list Z) : float :=
  fold_left (fun sum q => (sum + number_of_Z q)%float) quantities sum.

Definition quantities (items : list CartItem.t) : list Z :=
  List.map CartItem.quantity items.

(** [totalItems] in binary64, as [reduce] computes it. *)
Definition totalItems_number (items : list CartItem.t) : float :=
  number_sum 0%float (quantities items).

(** The quantities of a cart and the sums of [totalItems] over it are safe
    integers. *)
Definition safe_quantities (items : list CartItem.t) : bool :=
  safe_sum 0 (quantities items).

(** A new [CartProvider]: [useState([])], then the effect that calls
    [loadCart] without awaiting it. *)
Definition CartProvider : Async unit :=
  setItems_value [];;
  spawn loadCart.

(** The intents of the presentation layer, and a run of them. An intent
    whose promise rejects leaves its state behind like any other. *)
Inductive Intent :=
| AddToCart (product : Product.t) (quantity : Z)
| RemoveFromCart (productId : string)
| UpdateQuantity (productId : string) (quantity : Z)
| ClearCart.

Definition dispatch (i : Intent) : Async unit :=
  match i with
  | AddToCart product quantity => addToCart product quantity
  | RemoveFromCart productId => removeFromCart productId
  | UpdateQuantity productId quantity => updateQuantity productId quantity
  | ClearCart => clearCart
  end.

Definition run (intents : list Intent) (w : App.t) : App.t :=
  fold_left (fun w i => exec (dispatch i) w) intents w.

(** The states of a cart that starts empty. *)
Inductive reachable : App.t -> Prop :=
| reachable_empty w : App.items w = [] -> reachable w
| reachable_step w i : reachable w -> reachable (exec (dispatch i) w).

(** The updaters without their call of [saveCart]. *)
Definition addToCart_items (product : Product.t) (quantity : Z)
    (currentItems : list CartItem.t) : list CartItem.t :=
  match List.find (fun item => String.eqb (CartItem.productId item) (Product.id product))
                  currentItems with
  | Some existingItem =>
      List.map (fun item =>
                  if String.eqb (CartItem.productId item) (Product.id product)
                  then CartItem.mk (CartItem.productId item)
                                   (CartItem.quantity item + quantity)
                                   (CartItem.product item)
                  else item)
               currentItems
  | None => (currentItems ++ [CartItem.mk (Product.id product) quantity product])%list
  end.

Definition removeFromCart_items (productId : string)
    (currentItems : list CartItem.t) : list CartItem.t :=
  List.filter (fun item => negb (String.eqb (CartItem.productId item) productId))
              currentItems.

Definition updateQuantity_items (productId : string) (quantity : Z)
    (currentItems : list CartItem.t) : list CartItem.t :=
  if quantity <? 1 then removeFromCart_items productId currentItems
  else
    List.map (fun item =>
                if String.eqb (CartItem.productId item) productId
                then CartItem.mk (CartItem.productId item) quantity (CartItem.product item)
                else item)
             currentItems.

(** What an intent does to the collection in memory. *)
Definition step_items (i : Intent) (l : list CartItem.t) : list CartItem.t :=
  match i with
  | AddToCart product quantity => addToCart_items product quantity l
  | RemoveFromCart productId => removeFromCart_items productId l
  | UpdateQuantity productId quantity => updateQuantity_items productId quantity l
  | ClearCart => []
  end.

(** The sum of the quantities passed by a sequence of calls. *)
Definition sum_quantities (calls : list (Product.t * Z)) : Z :=
  fold_right (fun call sum => snd call + sum) 0 calls.

Definition addToCart_calls (calls : list (Product.t * Z)) : list Intent :=
  List.map (fun call => AddToCart (fst call) (snd call)) calls.

Definition productIds (l : list CartItem.t) : list string :=
  List.map CartItem.productId l.

(** The product of the scenario of the specification. *)
Definition p1 : Product.t :=
  Product.mk "p1" "Torque wrench" "3/8 inch drive" 9.99%float "wrench.png" 4
             "Hand tools" "2024-01-01T00:00:00.000Z" "2024-01-01T00:00:00.000Z".


(** ** Document references and writes

    [doc(db, collection, id)] of the Firestore SDK: the segments of the two
    paths, empty ones dropped; a path with a doubled slash and a reference
    with an odd number of segments are refused with an exception. The
    reference is the path of the collection and the id of the document. *)

Fixpoint split_path (s cur : list ascii) : list (list ascii) :=
  match s with
  | [] => [rev cur]
  | c :: s' =>
      if Ascii.eqb c "/" then rev cur :: split_path s' [] else split_path s' (c :: cur)
  end.

Definition segments (path : string) : list string :=
  List.map string_of_list_ascii
           (List.filter (fun segment => negb (Nat.eqb (length segment) 0))
                        (split_path (list_ascii_of_string path) [])).

Fixpoint double_slash (s : list ascii) : bool :=
  match s with
  | [] => false
  | c :: s' =>
      (Ascii.eqb c "/" && match s' with d :: _ => Ascii.eqb d "/" | [] => false end)
      || double_slash s'
  end.

Definition doc (collection id : string) : Async (string * string) :=
  fun w =>
    if double_slash (list_ascii_of_string collection) || double_slash (list_ascii_of_string id)
    then (Throw (Err "invalid-argument"), w)
    else
      let path := (segments collection ++ segments id)%list in
      if Nat.even (length path)
      then (Normal (String.concat "/" (List.removelast path), List.last path ""), w)
      else (Throw (Err "invalid-argument"), w).

(** An id that is one segment: not empty, no slash in it. *)
Definition document_id (id : string) : bool :=
  negb (String.eqb id "") && negb (existsb (Ascii.eqb "/") (list_ascii_of_string id)).

Definition set_firestore (v : gmap string (gmap string (gmap string string)))
    (w : App.t) : App.t :=
  App.mk (App.items w) (App.user w) (App.userRole w) (App.loading w) (App.storage w) v
         (App.rejects w) (App.reads w) (App.console w) (App.unhandled w).

(** ** Session store ([AuthProvider]) *)

Definition setUser (u : option User) : Async unit :=
  fun w => (Normal tt, App.set_user u w).
Definition setUserRole (r : Role) : Async unit :=
  fun w => (Normal tt, App.set_userRole r w).
Definition setLoading (b : bool) : Async unit :=
  fun w => (Normal tt, App.set_loading b w).

(** [getDoc(doc(db, collection, id))]: the data of the document when it
    exists. *)
Definition getDoc (collection id : string) : Async (option (gmap string string)) :=
  fun w =>
    let w' := App.set_reads (App.reads w ++ [(collection, id)]) w in
    match App.rejects w GetDoc with
    | Some e => (Throw e, w')
    | None => (Normal (App.firestore w !! collection ≫= fun docs => docs !! id), w')
    end.

(** The callback given to [auth.onAuthStateChanged]. *)
Definition onAuthStateChanged (user : option User) : Async unit :=
  setUser user;;
  match user with
  | Some u =>
      docRef ← doc "Users" (uid u);
      userDoc ← getDoc (fst docRef) (snd docRef);
      match userDoc with
      | Some data =>
          setUserRole (match data !! "role" with
                       | Some r => tag r
                       | None => undefined
                       end)
      | None => mret tt
      end
  | None => setUserRole null
  end;;
  setLoading false.

(** An identity-change notification: the provider calls the callback and
    does not await it. *)
Definition notify (user : option User) : Async unit :=
  spawn (onAuthStateChanged user).

Definition is_none (r : Role) : Prop := r = null \/ r = undefined.

(** ** Remote catalog gateway ([getCategories]) *)

Definition getDocs (collection : string) : Async (list (string * gmap string string)) :=
  fun w =>
    match App.rejects w GetDocs with
    | Some e => (Throw e, w)
    | None => (Normal (map_to_list (default ∅ (App.firestore w !! collection))), w)
    end.

(** [Set.prototype.add] on a set kept as its elements in insertion order. *)
Definition Set_add (x : string) (s : list string) : list string :=
  if existsb (String.eqb x) s then s else (s ++ [x])%list.

(** The order of the strings by their bytes: that of the store, whose
    strings are UTF-8. *)
Definition string_le (a b : string) : Prop := String.leb a b = true.

#[global] Instance string_le_dec a b : Decision (string_le a b).
Proof. unfold string_le. apply _. Defined.

(** The code units of the string that the program sees: the UTF-16 of the
    text whose UTF-8 the bytes are, a code point from 0x10000 as its pair of
    surrogates. The strings of the store are well-formed; a byte that
    starts no sequence is given as a code unit of its own value. *)
Definition continuation (c : ascii) : bool :=
  let b := N_of_ascii c in ((128 <=? b) && (b <? 192))%N.

Definition surrogates (cp : N) : list N :=
  if (cp <? 65536)%N then [cp]
  else [(55296 + (cp - 65536) / 1024)%N; (56320 + (cp - 65536) mod 1024)%N].

Fixpoint code_units (s : list ascii) : list N :=
  match s with
  | [] => []
  | c :: s1 =>
      let b := N_of_ascii c in
      let stray := b :: code_units s1 in
      if (b <? 192)%N then stray
      else
        match s1 with
        | c1 :: s2 =>
            let b1 := (N_of_ascii c1 - 128)%N in
            if negb (continuation c1) then stray
            else if (b <? 224)%N then ((b - 192) * 64 + b1)%N :: code_units s2
            else
              match s2 with
              | c2 :: s3 =>
                  let b2 := (N_of_ascii c2 - 128)%N in
                  if negb (continuation c2) then stray
                  else if (b <? 240)%N
                       then ((b - 224) * 4096 + b1 * 64 + b2)%N :: code_units s3
                       else
                         match s3 with
                         | c3 :: s4 =>
                             let b3 := (N_of_ascii c3 - 128)%N in
                             if negb (continuation c3) || (248 <=? b)%N then stray
                             else (surrogates ((b - 240) * 262144 + b1 * 4096
                                               + b2 * 64 + b3)%N
                                   ++ code_units s4)%list
                         | [] => stray
                         end
              | [] => stray
              end
        | [] => stray
        end
  end.

(** [x < y] on strings, and the order of [Array.prototype.sort] without a
    comparator: by the code units, a prefix first. *)
Fixpoint code_units_leb (a b : list N) : bool :=
  match a, b with
  | [], _ => true
  | _ :: _, [] => false
  | x :: a', y :: b' =>
      if (x <? y)%N then true else if (y <? x)%N then false else code_units_leb a' b'
  end.

Definition utf16_le (a b : string) : Prop :=
  code_units_leb (code_units (list_ascii_of_string a))
                 (code_units (list_ascii_of_string b)) = true.

#[global] Instance utf16_le_dec a b : Decision (utf16_le a b).
Proof. unfold utf16_le. apply _. Defined.

Definition Array_sort (l : list string) : list string := merge_sort utf16_le l.

Definition getCategories : Async (list string) :=
  try_catch
    (querySnapshot ← getDocs "Products";
     let categories :=
       fold_left (fun categories doc =>
                    match snd doc !! "category" with
                    | Some (String c s) => Set_add (String c s) categories
                    | Some EmptyString | None => categories
                    end)
                 querySnapshot [] in
     mret (Array_sort categories))
    (fun error => console_error "Error fetching categories:" error;; throw error).

(** The category tags of the documents of a collection: the values of the
    [category] fields that are not empty. *)
Definition observed (docs : gmap string (gmap string string)) (c : string) : Prop :=
  c <> "" /\ exists id data, docs !! id = Some data /\ data !! "category" = Some c.

(** ** Further notions of the cart store *)

(** The line items of a product. *)
Definition lines_of (productId : string) (l : list CartItem.t) : list CartItem.t :=
  List.filter (fun item => String.eqb (CartItem.productId item) productId) l.

(** Every quantity is a positive integer, as the data model asks. *)
Definition positive_quantities (l : list CartItem.t) : Prop :=
  Forall (fun item => 1 <= CartItem.quantity item) l.

(** An intent that adds to the cart asks for a positive quantity. *)
Definition adds_positive (i : Intent) : Prop :=
  match i with
  | AddToCart _ quantity => 1 <= quantity
  | _ => True
  end.

(** ** Product card ([src/components/ProductCard.tsx])

    Number.prototype.toFixed (ECMA-262) with [0 <= fractionDigits <= 100]:
    of the decimals with that many digits after the point the one nearest
    to the number, the larger one of two that are as near. *)

Definition fixed_text (f n : Z) : list ascii :=
  let m := if n =? 0 then ["0"%char] else Number.decimal_digits n in
  if f =? 0 then m
  else
    let k := Z.of_nat (length m) in
    let m := if k <=? f then (Number.zeros (f + 1 - k) ++ m)%list else m in
    let k := if k <=? f then f + 1 else k in
    (take (Z.to_nat (k - f)) m ++ "."%char :: drop (Z.to_nat (k - f)) m)%list.

Definition toFixed (fractionDigits : Z) (x : float) : list ascii :=
  match Prim2SF x with
  | S754_nan | S754_infinity _ => Number.toString x
  | S754_zero _ => fixed_text fractionDigits 0
  | S754_finite s m e =>
      let num := Number.numerator m e in
      let den := Number.denominator e in
      ((if s then ["-"%char] else []) ++
       (if 10 ^ 21 * den <=? num
        then Number.toString (SF2Prim (S754_finite false m e))
        else fixed_text fractionDigits
                        ((2 * num * 10 ^ fractionDigits + den) / (2 * den))))%list
  end.

Module ProductCard.
(** What the card shows: the image, the three texts, and the button with
    its label. *)
Record t := mk {
  image : string;
  name : string;
  price : string;
  stock : string;
  buttonText : string;
  disabled : bool;
}.

Definition handleAddToCart (product : Product.t) : Async unit :=
  spawn (addToCart product 1).

Definition render (product : Product.t) : t :=
  mk (Product.imageURL product)
     (Product.name product)
     ("$" ++ string_of_list_ascii (toFixed 2 (Product.price product)))
     (if 0 <? Product.stock product
      then "In Stock: "
           ++ string_of_list_ascii (Number.integer_toString (Product.stock product))
      else "Out of Stock")
     (if 0 <? Product.stock product then "Add to Cart" else "Out of Stock")
     (Product.stock product =? 0).

(** A press on the button: a disabled button does not call its handler. *)
Definition press (product : Product.t) : Async unit :=
  if disabled (render product) then mret tt else handleAddToCart product.

(** [n] presses, one after the other. *)
Definition presses (n : nat) (product : Product.t) (w : App.t) : App.t :=
  Nat.iter n (exec (press product)) w.
End ProductCard.

(** ** Session intents ([AuthProvider]: signIn, signUp, signOut)

    What the identity provider and the document store answer to the calls
    of the intents, and what the clock shows. *)
Module Firebase.
Record t := mk {
  signInWithEmailAndPassword : string -> string -> Error + User;
  createUserWithEmailAndPassword : string -> string -> Error + User;
  firebaseSignOut : option Error;
  setDoc : option Error;
  toISOString : string;
}.
End Firebase.

Definition await {A} (answer : Error + A) : Async A :=
  fun w => match answer with inl e => (Throw e, w) | inr a => (Normal a, w) end.

(** [setDoc(docRef, data)]: the document is data, whatever it was. *)
Definition setDoc (firebase : Firebase.t) (docRef : string * string)
    (data : gmap string string) : Async unit :=
  fun w =>
    match Firebase.setDoc firebase with
    | Some e => (Throw e, w)
    | None =>
        let docs := default ∅ (App.firestore w !! fst docRef) in
        (Normal tt,
         set_firestore (<[fst docRef := <[snd docRef := data]> docs]> (App.firestore w)) w)
    end.

Definition signIn (firebase : Firebase.t) (email password : string) : Async unit :=
  try_catch
    (await (Firebase.signInWithEmailAndPassword firebase email password);;
     mret tt)
    (fun error => throw error).

Definition profile (firebase : Firebase.t) (name email : string) : gmap string string :=
  {[ "name" := name; "email" := email; "role" := "mechanic";
     "createdAt" := Firebase.toISOString firebase ]}.

Definition signUp (firebase : Firebase.t) (email password name : string) : Async unit :=
  try_catch
    (userCredential ← await (Firebase.createUserWithEmailAndPassword firebase email password);
     docRef ← doc "Users" (uid userCredential);
     setDoc firebase docRef (profile firebase name email))
    (fun error => throw error).

Definition signOut (firebase : Firebase.t) : Async unit :=
  try_catch
    (match Firebase.firebaseSignOut firebase with
     | Some e => throw e
     | None => mret tt
     end)
    (fun error => throw error).

(** ** Remote catalog gateway ([getProducts], [getProductById]) *)

(** The data of a document. *)
Abbreviation Doc := (gmap string string).

(** [{ id: doc.id, ...doc.data() }]: a field [id] of the data stands. *)
Definition with_id (id : string) (data : Doc) : Doc := data ∪ {[ "id" := id ]}.

Definition getProductById (productId : string) : Async (option Doc) :=
  try_catch
    (docRef ← doc "Products" productId;
     docSnap ← getDoc (fst docRef) (snd docRef);
     match docSnap with
     | Some data => mret (Some (with_id (snd docRef) data))
     | None => mret None
     end)
    (fun error => console_error "Error fetching product:" error;; throw error).

(** A query: a collection, the field that orders it, equality filters. *)
Module Query.
Record t := mk {
  collection : string;
  orderBy : string;
  where_ : list (string * string);
}.
End Query.

(** The documents a query selects: those that hold the field of the order
    and satisfy every filter. *)
Definition selects (q : Query.t) (data : Doc) : bool :=
  bool_decide (is_Some (data !! Query.orderBy q))
  && forallb (fun c => bool_decide (data !! fst c = Some (snd c))) (Query.where_ q).

Definition field (name : string) (data : Doc) : string := default "" (data !! name).

(** The order of the results: by the field, then by document id. *)
Definition doc_le (name : string) (a b : string * Doc) : Prop :=
  match String.compare (field name (snd a)) (field name (snd b)) with
  | Lt => True
  | Eq => String.leb (fst a) (fst b) = true
  | Gt => False
  end.

#[global] Instance doc_le_dec name a b : Decision (doc_le name a b).
Proof.
  unfold doc_le. destruct (String.compare _ _); [apply _|left; exact I|right; tauto].
Defined.

Definition getDocs_query (q : Query.t) : Async (list (string * Doc)) :=
  fun w =>
    match App.rejects w GetDocs with
    | Some e => (Throw e, w)
    | None =>
        (Normal (merge_sort (doc_le (Query.orderBy q))
                            (List.filter (fun d => selects q (snd d))
                                         (map_to_list
                                            (default ∅ (App.firestore w
                                                          !! Query.collection q))))),
         w)
    end.

Definition getProducts (category : option string) : Async (list Doc) :=
  try_catch
    (let q := Query.mk "Products" "name" [] in
     let q := match category with
              | Some (String c s) =>
                  Query.mk (Query.collection q) (Query.orderBy q)
                           (Query.where_ q ++ [("category", String c s)])
              | Some EmptyString | None => q
              end in
     querySnapshot ← getDocs_query q;
     mret (List.map (fun d => with_id (fst d) (snd d)) querySnapshot))
    (fun error => console_error "Error fetching products:" error;; throw error).

(** ** Catalog screen ([src/app/(tabs)/index.tsx]) *)

Module ProductCatalogScreen.
(** The state of the component, and the application it runs in. *)
Record t := mk {
  products : list Doc;
  categories : list string;
  selectedCategory : option string;
  loading : bool;
  app : App.t;
}.

Definition set_products (v : list Doc) (s : t) : t :=
  mk v (categories s) (selectedCategory s) (loading s) (app s).
Definition set_categories (v : list string) (s : t) : t :=
  mk (products s) v (selectedCategory s) (loading s) (app s).
Definition set_selectedCategory (v : option string) (s : t) : t :=
  mk (products s) (categories s) v (loading s) (app s).
Definition set_loading (v : bool) (s : t) : t :=
  mk (products s) (categories s) (selectedCategory s) v (app s).
Definition set_app (v : App.t) (s : t) : t :=
  mk (products s) (categories s) (selectedCategory s) (loading s) v.

(** The component when it mounts: [useState] with its initial values. *)
Definition initial (w : App.t) : t := mk [] [] None true w.

(** A function of the component, run to completion. *)
Definition M (A : Type) : Type := t -> Completion A * t.

#[global] Instance M_ret : MRet M := fun A a s => (Normal a, s).

#[global] Instance M_bind : MBind M := fun A B k m s =>
  match m s with
  | (Normal a, s') => k a s'
  | (Throw e, s') => (Throw e, s')
  | (Untyped, s') => (Untyped, s')
  end.

(** A call of a service, which runs in the application. *)
Definition lift {A} (m : Async A) : M A :=
  fun s => (fst (m (app s)), set_app (snd (m (app s))) s).

Definition get : M t := fun s => (Normal s, s).

Definition try_catch {A} (m : M A) (handler : Error -> M A) : M A :=
  fun s =>
    match m s with
    | (Throw e, s') => handler e s'
    | r => r
    end.

(** [try { m } catch (error) { handler error } finally { finalizer }] *)
Definition try_catch_finally {A} (m : M A) (handler : Error -> M A)
    (finalizer : M unit) : M A :=
  fun s =>
    match try_catch m handler s with
    | (Untyped, s') => (Untyped, s')
    | (r, s') =>
        match finalizer s' with
        | (Normal _, s'') => (r, s'')
        | (Throw e, s'') => (Throw e, s'')
        | (Untyped, s'') => (Untyped, s'')
        end
    end.

(** A call whose promise nobody awaits. *)
Definition spawn {A} (m : M A) : M unit :=
  fun s =>
    match m s with
    | (Normal _, s') => (Normal tt, s')
    | (Throw e, s') =>
        (Normal tt, set_app (App.set_unhandled (App.unhandled (app s') ++ [e]) (app s')) s')
    | (Untyped, s') => (Untyped, s')
    end.

Definition completion {A} (m : M A) (s : t) : Completion A := fst (m s).
Definition exec {A} (m : M A) (s : t) : t := snd (m s).

Definition setProducts (v : list Doc) : M unit := fun s => (Normal tt, set_products v s).
Definition setCategories (v : list string) : M unit :=
  fun s => (Normal tt, set_categories v s).
Definition setSelectedCategory (v : option string) : M unit :=
  fun s => (Normal tt, set_selectedCategory v s).
Definition setLoading (v : bool) : M unit := fun s => (Normal tt, set_loading v s).

(** [selectedCategory || undefined] *)
Definition or_undefined (selected : option string) : option string :=
  match selected with
  | Some (String c s) => Some (String c s)
  | Some EmptyString | None => None
  end.

Definition loadProducts : M unit :=
  try_catch_finally
    (setLoading true;;
     s ← get;
     fetchedProducts ← lift (getProducts (or_undefined (selectedCategory s)));
     setProducts fetchedProducts)
    (fun error => lift (console_error "Error loading products:" error))
    (setLoading false).

Definition loadCategories : M unit :=
  try_catch
    (fetchedCategories ← lift getCategories;
     setCategories fetchedCategories)
    (fun error => lift (console_error "Error loading categories:" error)).

(** The effect, which runs at the mount and at every change of
    [selectedCategory]. It starts the two loads, which set different parts
    of the state; they are run here one after the other, so that the order
    of what the two log is that of this run only. *)
Definition effect : M unit :=
  spawn loadProducts;;
  spawn loadCategories.

Definition mount (w : App.t) : t := exec effect (initial w).

(** A press on the button of a category. A state set to the value it holds
    renders nothing anew and runs no effect. *)
Definition pressCategory (item : string) : M unit :=
  s ← get;
  let next :=
    if bool_decide (selectedCategory s = Some item) then None else Some item in
  setSelectedCategory next;;
  if bool_decide (next = selectedCategory s) then mret tt else effect.

End ProductCatalogScreen.

(** What the gateway lists over a store that answers. *)
Definition listed (category : option string) (w : App.t) : list Doc :=
  match completion (getProducts category) w with
  | Normal products => products
  | _ => []
  end.

Definition offered (w : App.t) : list string :=
  match completion getCategories w with
  | Normal categories => categories
  | _ => []
  end.

(** ** Data of the examples *)

(** The set that the loop of getCategories builds. *)
Definition collect (querySnapshot : list (string * gmap string string))
    (categories : list string) : list string :=
  fold_left (fun categories doc =>
               match snd doc !! "category" with
               | Some (String c s) => Set_add (String c s) categories
               | Some EmptyString | None => categories
               end)
            querySnapshot categories.

Definition catalog_before : Product.t :=
  Product.mk "p7" "Socket set" "" 10%float "" 9 "Hand tools" "" "".

Definition catalog_app : App.t :=
  App.mk [] None null true ∅
         {[ "Products" :=
              {[ "t1" := {[ "name" := "Impact driver"; "category" := "Power tools" ]};
                 "t2" := {[ "name" := "Torque wrench"; "category" := "Hand tools" ]};
                 "t3" := {[ "name" := "Angle grinder"; "category" := "Power tools" ]};
                 "t4" := {[ "name" := "Gift card"; "category" := "" ]};
                 "t5" := {[ "name" := "Shop rag" ]} ]} ]}
         (fun _ => None) [] [] [].

Definition session_app : App.t :=
  App.mk [] None null true ∅
         {[ "Users" :=
              {[ "u1" := {[ "name" := "Ada"; "email" := "ada@example.org";
                            "role" := "admin" ]};
                 "u2" := {[ "name" := "Bob"; "email" := "bob@example.org" ]} ]} ]}
         (fun _ => None) [] [] [].

(** Two tags that the bytes and the code units order differently: U+FF5E
    and U+1F600, and a catalog that carries them. *)
Definition fullwidth_tilde : string :=
  string_of_list_ascii (List.map ascii_of_N [239; 189; 158]%N).
Definition grinning_face : string :=
  string_of_list_ascii (List.map ascii_of_N [240; 159; 152; 128]%N).

Definition tagged_app : App.t :=
  App.mk [] None null true ∅
         {[ "Products" :=
              {[ "t1" := {[ "name" := "Sticker"; "category" := fullwidth_tilde ]};
                 "t2" := {[ "name" := "Badge"; "category" := grinning_face ]};
                 "t3" := {[ "name" := "Patch"; "category" := "Zips" ]} ]} ]}
         (fun _ => None) [] [] [].

(** A device whose storage refuses to delete. *)
Definition stuck_storage (e : Error) (cart : list CartItem.t) : App.t :=
  App.mk cart None null true {[ CART_STORAGE_KEY := JSON_stringify cart ]} ∅
         (fun c => match c with RemoveItem => Some e | _ => None end) [] [] [].

(** A provider and a store that carry out every call of the intents. *)
Definition session_firebase : Firebase.t :=
  Firebase.mk (fun _ _ => inr (mkUser "u1")) (fun _ _ => inr (mkUser "u7")) None None
              "2024-05-01T09:30:00.000Z".

(** An application whose store rejects every query. *)
Definition unavailable (e : Error) : App.t :=
  App.mk [] None null true ∅ ∅
         (fun c => match c with GetDocs => Some e | _ => None end) [] [] [].

(** * Properties *)

(** ** JSON.parse inverts JSON.stringify *)

Section JSONFacts.
Import JSON.
Local Open Scope list_scope.

Section Induction.
Variable P : value -> Prop.
Hypothesis Hnull : P JNull.
Hypothesis Hbool : forall b, P (JBool b).
Hypothesis Hnumber : forall token, P (JNumber token).
Hypothesis Hstring : forall s, P (JString s).
Hypothesis Harray : forall elements, Forall P elements -> P (JArray elements).
Hypothesis Hobject :
  forall members, Forall (fun m => P (snd m)) members -> P (JObject members).

Fixpoint value_induction (v : value) : P v :=
  match v with
  | JNull => Hnull
  | JBool b => Hbool b
  | JNumber token => Hnumber token
  | JString s => Hstring s
  | JArray elements =>
      Harray elements
        ((fix all (l : list value) : Forall P l :=
            match l with
            | [] => @List.Forall_nil _ P
            | v :: l' => @List.Forall_cons _ P v l' (value_induction v) (all l')
            end) elements)
  | JObject members =>
      Hobject members
        ((fix all (l : list (string * value)) : Forall (fun m => P (snd m)) l :=
            match l with
            | [] => @List.Forall_nil _ _
            | m :: l' => @List.Forall_cons _ _ m l' (value_induction (snd m)) (all l')
            end) members)
  end.
End Induction.

Lemma print_array elements :
  print (JArray elements) = "["%char :: print_elements elements ++ ["]"%char].
Proof. reflexivity. Qed.

Lemma print_object members :
  print (JObject members) = "{"%char :: print_members members ++ ["}"%char].
Proof. reflexivity. Qed.

Lemma parse_chars_escape_1 c s :
  parse_chars (escape c ++ s) =
  match parse_chars s with
  | Some (cs, rest) => Some (c :: cs, rest)
  | None => None
  end.
Proof. destruct c as [[] [] [] [] [] [] [] []]; reflexivity. Qed.

Lemma parse_chars_escape cs rest :
  parse_chars (flat_map escape cs ++ "034"%char :: rest) = Some (cs, rest).
Proof.
  induction cs as [|c cs IH]; [reflexivity|].
  cbn [flat_map]. rewrite <- app_assoc, parse_chars_escape_1, IH. reflexivity.
Qed.

Lemma parse_chars_quote s rest :
  parse_chars (List.tl (quote s) ++ rest) = Some (list_ascii_of_string s, rest).
Proof.
  unfold quote. cbn [List.tl]. rewrite <- app_assoc. apply parse_chars_escape.
Qed.

Lemma span_spec f s a b :
  Number.span f s = (a, b) -> s = a ++ b /\ forallb f a = true.
Proof.
  revert a b. induction s as [|c s IH]; intros a b; cbn.
  - intros [= <- <-]. now split.
  - destruct (f c) eqn:Hc.
    + destruct (Number.span f s) as [a' b']. intros [= <- <-].
      destruct (IH _ _ eq_refl) as [-> H]. cbn. now rewrite Hc, H.
    + intros [= <- <-]. now split.
Qed.

Lemma span_app f token rest :
  forallb f token = true ->
  match rest with [] => true | c :: _ => negb (f c) end = true ->
  Number.span f (token ++ rest) = (token, rest).
Proof.
  intros Ht Hr. induction token as [|c token IH]; cbn in *.
  - destruct rest as [|c r]; [reflexivity|]. cbn.
    now destruct (f c).
  - apply andb_prop in Ht as [Hc Ht]. now rewrite Hc, IH.
Qed.

Lemma digit_number_char c : Number.is_digit c = true -> is_number_char c = true.
Proof. unfold is_number_char. now intros ->. Qed.

Lemma digits_number_chars l :
  forallb Number.is_digit l = true -> forallb is_number_char l = true.
Proof.
  induction l as [|c l IH]; [reflexivity|]. cbn.
  intros [Hc Hl]%andb_prop. now rewrite (digit_number_char _ Hc), IH.
Qed.

Lemma span_digits_chars s a b :
  Number.span Number.is_digit s = (a, b) ->
  forallb is_number_char b = true -> forallb is_number_char s = true.
Proof.
  intros [-> Ha]%span_spec Hb.
  rewrite forallb_app, Hb, (digits_number_chars _ Ha). reflexivity.
Qed.

Lemma lex_frac_chars s fp s' :
  Number.lex_frac s = Some (fp, s') ->
  forallb is_number_char s' = true -> forallb is_number_char s = true.
Proof.
  unfold Number.lex_frac. destruct s as [|c r]; [now intros [= <- <-]|].
  destruct (Ascii.eqb_spec c "."%char) as [->|_].
  - destruct (Number.span Number.is_digit r) as [a b] eqn:Hs.
    destruct a; [discriminate|]. intros [= <- <-] Hb.
    cbn [forallb]. now rewrite (span_digits_chars _ _ _ Hs Hb).
  - now intros [= <- <-].
Qed.

Lemma lex_sign_chars s sg r :
  Number.lex_sign s = (sg, r) ->
  forallb is_number_char r = true -> forallb is_number_char s = true.
Proof.
  unfold Number.lex_sign. destruct s as [|c s]; [now intros [= <- <-]|].
  destruct (Ascii.eqb_spec c "-"%char) as [->|_]; [now intros [= <- <-]; cbn; intros ->|].
  destruct (Ascii.eqb_spec c "+"%char) as [->|_]; [now intros [= <- <-]; cbn; intros ->|].
  now intros [= <- <-].
Qed.

Lemma lex_exp_chars s ex :
  Number.lex_exp s = Some (ex, []) -> forallb is_number_char s = true.
Proof.
  unfold Number.lex_exp. destruct s as [|c r]; [reflexivity|].
  destruct (Ascii.eqb c "e" || Ascii.eqb c "E") eqn:He; [|discriminate].
  destruct (Number.lex_sign r) as [sg r1] eqn:Hsg.
  destruct (Number.span Number.is_digit r1) as [ed s'] eqn:Hs.
  destruct ed; [discriminate|]. intros [= _ ->].
  cbn [forallb]. unfold is_number_char at 1.
  rewrite (lex_sign_chars _ _ _ Hsg (span_digits_chars _ _ _ Hs eq_refl)).
  destruct (Number.is_digit c), (Ascii.eqb c "-"), (Ascii.eqb c "+"),
    (Ascii.eqb c "."), (Ascii.eqb c "e"), (Ascii.eqb c "E"); try reflexivity; discriminate.
Qed.

Lemma literal_chars token :
  Number.literal token <> None -> forallb is_number_char token = true.
Proof.
  unfold Number.literal.
  set (p := Number.lex_minus token).
  assert (Hp : forallb is_number_char p.2 = true -> forallb is_number_char token = true).
  { subst p. unfold Number.lex_minus. destruct token as [|c r]; [reflexivity|].
    destruct (Ascii.eqb_spec c "-"%char) as [->|_]; cbn; [now intros ->|easy]. }
  destruct p as [neg s1]. cbn [snd] in Hp.
  destruct (Number.span Number.is_digit s1) as [ip s2] eqn:Hs.
  destruct (Number.valid_int ip); [|easy].
  destruct (Number.lex_frac s2) as [[fp s3]|] eqn:Hf; [|easy].
  destruct (Number.lex_exp s3) as [[ex [|]]|] eqn:He; try easy.
  intros _. apply Hp. apply (span_digits_chars _ _ _ Hs).
  apply (lex_frac_chars _ _ _ Hf). apply (lex_exp_chars _ _ He).
Qed.

Lemma literal_head token :
  Number.literal token <> None ->
  exists c r, token = c :: r /\ (Number.is_digit c || Ascii.eqb c "-") = true.
Proof.
  unfold Number.literal, Number.lex_minus. destruct token as [|c r]; [now cbn|].
  intros H. exists c, r. split; [reflexivity|].
  destruct (Ascii.eqb c "-") eqn:Hm; [apply orb_true_r|].
  rewrite orb_false_r. cbn [Number.span] in H.
  destruct (Number.is_digit c); [reflexivity|]. now cbn in H.
Qed.

Lemma number_start c :
  (Number.is_digit c || Ascii.eqb c "-") = true ->
  is_ws c = false /\ Ascii.eqb c "n" = false /\ Ascii.eqb c "t" = false /\
  Ascii.eqb c "f" = false /\ Ascii.eqb c "034" = false /\
  Ascii.eqb c "[" = false /\ Ascii.eqb c "{" = false /\
  Ascii.eqb c "]" = false /\ Ascii.eqb c "}" = false.
Proof.
  destruct c as [[] [] [] [] [] [] [] []]; cbn; intros H;
    try discriminate H; repeat split; reflexivity.
Qed.

(** Unfolding equations of the parser. *)

Lemma parse_value_array fuel r :
  parse_value (S fuel) ("["%char :: r) =
  match skip_ws r with
  | [] => None
  | c :: r' =>
      if Ascii.eqb c "]" then Some (JArray [], r')
      else match parse_elements fuel r with
           | Some (vs, r'') => Some (JArray vs, r'')
           | None => None
           end
  end.
Proof. reflexivity. Qed.

Lemma parse_value_object fuel r :
  parse_value (S fuel) ("{"%char :: r) =
  match skip_ws r with
  | [] => None
  | c :: r' =>
      if Ascii.eqb c "}" then Some (JObject [], r')
      else match parse_members fuel r with
           | Some (ms, r'') => Some (JObject ms, r'')
           | None => None
           end
  end.
Proof. reflexivity. Qed.

Lemma parse_value_string fuel r :
  parse_value (S fuel) ("034"%char :: r) =
  match parse_chars r with
  | Some (cs, r') => Some (JString (string_of_list_ascii cs), r')
  | None => None
  end.
Proof. reflexivity. Qed.

Lemma parse_value_number fuel c r :
  (Number.is_digit c || Ascii.eqb c "-") = true ->
  parse_value (S fuel) (c :: r) = parse_number (c :: r).
Proof.
  intros (Hw & Hn & Ht & Hf & Hq & Ha & Ho & _)%number_start.
  cbn [parse_value skip_ws]. now rewrite Hw, Hn, Ht, Hf, Hq, Ha, Ho.
Qed.

Lemma parse_elements_S fuel s :
  parse_elements (S fuel) s =
  match parse_value fuel s with
  | None => None
  | Some (v, r) =>
      match skip_ws r with
      | [] => None
      | c :: r' =>
          if Ascii.eqb c "," then
            match parse_elements fuel r' with
            | Some (vs, r'') => Some (v :: vs, r'')
            | None => None
            end
          else if Ascii.eqb c "]" then Some ([v], r')
          else None
      end
  end.
Proof. reflexivity. Qed.

Lemma parse_members_S fuel r :
  parse_members (S fuel) ("034"%char :: r) =
  match parse_chars r with
  | None => None
  | Some (k, r1) =>
      match skip_ws r1 with
      | [] => None
      | c :: r2 =>
          if Ascii.eqb c ":" then
            match parse_value fuel r2 with
            | None => None
            | Some (v, r3) =>
                match skip_ws r3 with
                | [] => None
                | c' :: r4 =>
                    if Ascii.eqb c' "," then
                      match parse_members fuel r4 with
                      | Some (ms, r5) => Some ((string_of_list_ascii k, v) :: ms, r5)
                      | None => None
                      end
                    else if Ascii.eqb c' "}"
                    then Some ([(string_of_list_ascii k, v)], r4)
                    else None
                end
            end
          else None
      end
  end.
Proof. reflexivity. Qed.

Lemma starts_value_spec c :
  starts_value c = true ->
  is_ws c = false /\ Ascii.eqb c "]" = false /\ Ascii.eqb c "}" = false.
Proof.
  destruct c as [[] [] [] [] [] [] [] []]; cbn; intros H;
    try discriminate H; repeat split; reflexivity.
Qed.

Lemma print_head v :
  well_formed v -> exists c r, print v = c :: r /\ starts_value c = true.
Proof.
  destruct 1 as [|[]|token H| | |]; try (eexists _, _; split; reflexivity).
  destruct (literal_head _ H) as (c & r & -> & Hc). exists c, r.
  split; [reflexivity|]. unfold starts_value. now rewrite Hc.
Qed.

Lemma delimited_comma rest : delimited (","%char :: rest) = true.
Proof. reflexivity. Qed.

Lemma print_elements_one v : print_elements [v] = print v.
Proof. cbn. apply app_nil_r. Qed.

Lemma print_elements_more v v' l :
  print_elements (v :: v' :: l) = print v ++ ","%char :: print_elements (v' :: l).
Proof. reflexivity. Qed.

Lemma parse_elements_print l :
  Forall well_formed l -> Forall round_trips l -> l <> [] ->
  forall fuel rest,
    (length (print_elements l) < fuel)%nat ->
    parse_elements fuel (print_elements l ++ "]"%char :: rest) = Some (l, rest).
Proof.
  induction l as [|v l IH]; [easy|].
  intros Hwf Hrt _ fuel rest Hfuel.
  apply Forall_cons_1 in Hwf as [Hv Hwf]. apply Forall_cons_1 in Hrt as [Hr Hrt].
  destruct fuel as [|fuel]; [lia|].
  rewrite parse_elements_S.
  destruct l as [|v' l'].
  - rewrite print_elements_one in *.
    rewrite Hr by first [lia | reflexivity]. reflexivity.
  - rewrite print_elements_more in *. rewrite length_app in Hfuel.
    cbn [length] in Hfuel. rewrite <- app_assoc, <- app_comm_cons.
    rewrite Hr by first [lia | reflexivity].
    change (skip_ws (","%char :: ?r)) with (","%char :: r).
    change (Ascii.eqb "," ",") with true. cbv iota.
    rewrite IH; [reflexivity|assumption|assumption|easy|lia].
Qed.

Lemma print_members_one k v : print_members [(k, v)] = quote k ++ ":"%char :: print v.
Proof. cbn [print_members]. now rewrite app_nil_r. Qed.

Lemma print_members_more k v m l :
  print_members ((k, v) :: m :: l) =
  quote k ++ ":"%char :: print v ++ ","%char :: print_members (m :: l).
Proof. reflexivity. Qed.

Lemma quote_cons k : quote k = "034"%char :: List.tl (quote k).
Proof. reflexivity. Qed.

Lemma length_quote k : (2 <= length (quote k))%nat.
Proof. unfold quote. cbn [length]. rewrite length_app. cbn. lia. Qed.

Ltac right_nest := repeat (rewrite <- app_assoc || rewrite <- app_comm_cons).
Ltac lengths H := repeat (rewrite length_app in H || cbn [length] in H).

Lemma parse_members_print l :
  Forall (fun m => well_formed (snd m)) l ->
  Forall (fun m => round_trips (snd m)) l -> l <> [] ->
  forall fuel rest,
    (length (print_members l) < fuel)%nat ->
    parse_members fuel (print_members l ++ "}"%char :: rest) = Some (l, rest).
Proof.
  induction l as [|[k v] l IH]; [easy|].
  intros Hwf Hrt _ fuel rest Hfuel.
  apply Forall_cons_1 in Hwf as [Hv Hwf]. apply Forall_cons_1 in Hrt as [Hr Hrt].
  cbn [snd] in Hv, Hr.
  destruct fuel as [|fuel]; [lia|].
  pose proof (length_quote k) as Hk.
  destruct l as [|m l'].
  - rewrite print_members_one in *. lengths Hfuel.
    rewrite quote_cons. right_nest. rewrite parse_members_S, parse_chars_quote.
    change (skip_ws (":"%char :: ?r)) with (":"%char :: r).
    change (Ascii.eqb ":" ":") with true. cbv iota.
    rewrite Hr by first [lia | reflexivity].
    rewrite string_of_list_ascii_of_string. reflexivity.
  - rewrite print_members_more in *. lengths Hfuel.
    rewrite quote_cons. right_nest. rewrite parse_members_S, parse_chars_quote.
    change (skip_ws (":"%char :: ?r)) with (":"%char :: r).
    change (Ascii.eqb ":" ":") with true. cbv iota.
    rewrite Hr by first [lia | reflexivity].
    change (skip_ws (","%char :: ?r)) with (","%char :: r).
    change (Ascii.eqb "," ",") with true. cbv iota.
    rewrite IH; [|assumption|assumption|easy|lia].
    rewrite string_of_list_ascii_of_string. reflexivity.
Qed.

Lemma parse_value_array_elements fuel l rest :
  (exists c r, l = c :: r /\ starts_value c = true) ->
  parse_value (S fuel) ("["%char :: l ++ rest) =
  match parse_elements fuel (l ++ rest) with
  | Some (vs, r'') => Some (JArray vs, r'')
  | None => None
  end.
Proof.
  intros (c & r & -> & (Hw & Ha & Ho)%starts_value_spec).
  rewrite parse_value_array. cbn [app skip_ws]. now rewrite Hw, Ha.
Qed.

Lemma parse_value_object_members fuel l rest :
  (exists c r, l = c :: r /\ starts_value c = true) ->
  parse_value (S fuel) ("{"%char :: l ++ rest) =
  match parse_members fuel (l ++ rest) with
  | Some (ms, r'') => Some (JObject ms, r'')
  | None => None
  end.
Proof.
  intros (c & r & -> & (Hw & Ha & Ho)%starts_value_spec).
  rewrite parse_value_object. cbn [app skip_ws]. now rewrite Hw, Ho.
Qed.

Lemma print_elements_head l :
  Forall well_formed l -> l <> [] ->
  exists c r, print_elements l = c :: r /\ starts_value c = true.
Proof.
  destruct l as [|v l]; [easy|]. intros [Hv _]%Forall_cons_1 _.
  destruct (print_head v Hv) as (c & r & E & Hc).
  cbn [print_elements]. rewrite E. eexists _, _. split; [reflexivity|exact Hc].
Qed.

Lemma print_members_head l :
  l <> [] -> exists c r, print_members l = c :: r /\ starts_value c = true.
Proof.
  destruct l as [|[k v] l]; [easy|]. intros _.
  cbn [print_members]. rewrite quote_cons. eexists _, _. split; reflexivity.
Qed.

(** Parsing a printed tree gives the tree back, whatever follows it. *)
Lemma parse_value_print v : well_formed v -> round_trips v.
Proof.
  induction v as [|b|token|s|elements IH|members IH] using value_induction;
    intros Hwf fuel rest Hfuel Hrest.
  - destruct fuel; [cbn in Hfuel; lia|reflexivity].
  - destruct fuel; [destruct b; cbn in Hfuel; lia|]. destruct b; reflexivity.
  - inversion_clear Hwf as [| |? Hlit| | |].
    destruct (literal_head _ Hlit) as (c & r & -> & Hc).
    destruct fuel; [cbn in Hfuel; lia|].
    cbn [print]. rewrite <- app_comm_cons, parse_value_number by exact Hc.
    unfold parse_number. rewrite app_comm_cons.
    rewrite span_app; [|now apply literal_chars|exact Hrest].
    destruct (Number.literal (c :: r)); [reflexivity|easy].
  - destruct fuel; [cbn in Hfuel; lia|].
    cbn [print]. rewrite quote_cons, <- app_comm_cons, parse_value_string.
    rewrite parse_chars_quote, string_of_list_ascii_of_string. reflexivity.
  - inversion_clear Hwf as [| | | |? Hall|].
    rewrite print_array in *. lengths Hfuel.
    destruct fuel as [|fuel]; [lia|]. right_nest.
    destruct elements as [|v l]; [reflexivity|].
    rewrite parse_value_array_elements
      by (apply print_elements_head; [exact Hall|easy]).
    rewrite parse_elements_print; [reflexivity|exact Hall| |easy|lia].
    clear -IH Hall. induction IH as [|x xs Hx _ IHxs]; [constructor|].
    apply Forall_cons_1 in Hall as [? ?]. constructor; auto.
  - inversion_clear Hwf as [| | | | |? Hall].
    rewrite print_object in *. lengths Hfuel.
    destruct fuel as [|fuel]; [lia|]. right_nest.
    destruct members as [|m l]; [reflexivity|].
    rewrite parse_value_object_members by (apply print_members_head; easy).
    rewrite parse_members_print; [reflexivity|exact Hall| |easy|lia].
    clear -IH Hall. induction IH as [|x xs Hx _ IHxs]; [constructor|].
    apply Forall_cons_1 in Hall as [? ?]. constructor; auto.
Qed.

(** JSON.parse inverts JSON.stringify on every well-formed tree. *)
Lemma parse_stringify v : well_formed v -> parse (stringify v) = Some v.
Proof.
  intros Hwf. unfold parse, stringify.
  rewrite list_ascii_of_string_of_list_ascii.
  pose proof (parse_value_print v Hwf (S (length (print v))) []) as H.
  rewrite app_nil_r in H. rewrite H by first [lia | reflexivity]. reflexivity.
Qed.
End JSONFacts.


(** ** Integers as number tokens *)

Lemma digits_of_uint u :
  forallb Number.is_digit (list_ascii_of_string (NilEmpty.string_of_uint u)) = true.
Proof. induction u; cbn in *; [reflexivity|assumption..]. Qed.

Lemma natural_of_uint_acc u acc :
  fold_left (fun value c => 10 * value + Number.digit_value c)
            (list_ascii_of_string (NilEmpty.string_of_uint u)) (Zpos acc) =
  Zpos (Pos.of_uint_acc u acc).
Proof.
  revert acc. induction u; intros acc; cbn [NilEmpty.string_of_uint
    list_ascii_of_string fold_left Pos.of_uint_acc];
    [reflexivity|rewrite <- IHu; f_equal; unfold Number.digit_value; cbn; lia..].
Qed.

Lemma natural_of_uint u :
  Number.natural (list_ascii_of_string (NilEmpty.string_of_uint u)) = Z.of_uint u.
Proof.
  unfold Number.natural, Z.of_uint.
  induction u; cbn [NilEmpty.string_of_uint list_ascii_of_string fold_left Pos.of_uint];
    [reflexivity|exact IHu|apply natural_of_uint_acc..].
Qed.

Lemma to_uint_head p u : Pos.to_uint p <> Decimal.D0 u.
Proof.
  intros E.
  assert (Hn : Decimal.unorm (Pos.to_uint p) = Pos.to_uint p).
  { rewrite <- (DecimalPos.Unsigned.to_of (Pos.to_uint p)).
    now rewrite DecimalPos.Unsigned.of_to. }
  rewrite E, DecimalFacts.unorm_D0 in Hn.
  destruct (Decimal.nzhead u) eqn:Hz;
    [|rewrite DecimalFacts.unorm_nzhead in Hn by (now rewrite Hz);
      now apply DecimalFacts.nzhead_nonzero in Hn..].
  assert (Hu : Decimal.unorm u = Decimal.zero) by now apply DecimalFacts.unorm_0.
  rewrite Hu in Hn. injection Hn as <-.
  now apply (DecimalPos.Unsigned.to_uint_nonzero p).
Qed.

Lemma valid_int_to_uint p :
  Number.valid_int (list_ascii_of_string (NilEmpty.string_of_uint (Pos.to_uint p))) = true.
Proof.
  pose proof (to_uint_head p) as H0.
  pose proof (DecimalPos.Unsigned.to_uint_nonnil p) as Hn.
  destruct (Pos.to_uint p) as [|u|u|u|u|u|u|u|u|u|u]; try easy;
    [now destruct (H0 u)|..]; cbn;
    now destruct (list_ascii_of_string (NilEmpty.string_of_uint u)).
Qed.

Lemma literal_digits l :
  forallb Number.is_digit l = true -> Number.valid_int l = true ->
  Number.literal l = Some (false, Number.natural l, 0).
Proof.
  intros Hd Hv. unfold Number.literal, Number.lex_minus.
  assert (Hs : Number.span Number.is_digit l = (l, [])).
  { rewrite <- (app_nil_r l) at 1. now apply span_app. }
  destruct l as [|c r] eqn:El; [discriminate|].
  assert (Hc : Ascii.eqb c "-" = false).
  { cbn in Hd. apply andb_prop in Hd as [Hc _].
    destruct (Ascii.eqb_spec c "-"%char) as [->|]; [discriminate|reflexivity]. }
  rewrite Hc, Hs, Hv. cbn [Number.lex_frac Number.lex_exp]. now rewrite app_nil_r.
Qed.

Lemma literal_minus_digits l :
  forallb Number.is_digit l = true -> Number.valid_int l = true ->
  Number.literal ("-"%char :: l) = Some (true, Number.natural l, 0).
Proof.
  intros Hd Hv. unfold Number.literal, Number.lex_minus.
  assert (Hs : Number.span Number.is_digit l = (l, [])).
  { rewrite <- (app_nil_r l) at 1. now apply span_app. }
  change (Ascii.eqb "-" "-") with true. cbv iota.
  rewrite Hs, Hv. cbn [Number.lex_frac Number.lex_exp]. now rewrite app_nil_r.
Qed.

Lemma natural_to_uint p :
  Number.natural (list_ascii_of_string (NilEmpty.string_of_uint (Pos.to_uint p))) = Zpos p.
Proof.
  rewrite natural_of_uint. unfold Z.of_uint. now rewrite DecimalPos.Unsigned.of_to.
Qed.

Lemma literal_integer z :
  Number.literal (Number.integer_toString z) = Some (z <? 0, Z.abs z, 0).
Proof.
  unfold Number.integer_toString. destruct z as [|p|p]; [reflexivity|..].
  - cbn [Z.to_int NilZero.string_of_int].
    unfold NilZero.string_of_uint.
    pose proof (DecimalPos.Unsigned.to_uint_nonnil p) as Hn.
    destruct (Pos.to_uint p) eqn:E; [easy|..]; rewrite <- E;
      (rewrite literal_digits;
       [now rewrite natural_to_uint
       |apply digits_of_uint|apply valid_int_to_uint]).
  - cbn [Z.to_int NilZero.string_of_int].
    unfold NilZero.string_of_uint.
    pose proof (DecimalPos.Unsigned.to_uint_nonnil p) as Hn.
    destruct (Pos.to_uint p) eqn:E; [easy|..]; rewrite <- E;
      cbn [list_ascii_of_string];
      (rewrite literal_minus_digits;
       [now rewrite natural_to_uint
       |apply digits_of_uint|apply valid_int_to_uint]).
Qed.

Lemma parse_integer_toString z :
  Number.parse_integer (Number.integer_toString z) = Some z.
Proof.
  unfold Number.parse_integer. rewrite literal_integer.
  cbn [Z.leb Z.compare]. rewrite Z.pow_0_r, Z.mul_1_r.
  destruct z; reflexivity.
Qed.

(** ** Number::toString and the reading of number tokens *)

(** ** The Number value of a decimal that is a binary64 *)

Section Exact.
Variables prec emax : Z.


Lemma Zpos_shl m n : Zpos (Number.shl m n) = Zpos m * 2 ^ Z.of_nat n.
Proof.
  induction n as [|n IH]; [cbn; lia|].
  rewrite Nat2Z.inj_succ, Z.pow_succ_r by lia.
  change (Number.shl m (S n)) with (xO (Number.shl m n)). rewrite Pos2Z.inj_xO, IH. lia.
Qed.

Lemma digits2_shl m n :
  Zpos (digits2_pos (Number.shl m n)) = Zpos (digits2_pos m) + Z.of_nat n.
Proof.
  induction n as [|n IH]; [cbn; lia|].
  change (Number.shl m (S n)) with (xO (Number.shl m n)). cbn [digits2_pos].
  rewrite Pos2Z.inj_succ, IH. lia.
Qed.

Lemma digits2_bounds p :
  2 ^ (Zpos (digits2_pos p) - 1) <= Zpos p < 2 ^ Zpos (digits2_pos p).
Proof.
  induction p as [p IH|p IH|]; cbn [digits2_pos]; [| |cbn; lia];
    rewrite Pos2Z.inj_succ;
    replace (Z.succ (Zpos (digits2_pos p)) - 1) with (Z.succ (Zpos (digits2_pos p) - 1))
      by lia;
    rewrite !Z.pow_succ_r by lia; lia.
Qed.

Lemma iter_pos_nat {A} (f : A -> A) p x :
  SpecFloat.iter_pos f p x = Nat.iter (Pos.to_nat p) f x.
Proof.
  revert x. induction p as [p IH|p IH|]; intros x; cbn [SpecFloat.iter_pos];
    [| |reflexivity].
  - rewrite !IH, Pos2Nat.inj_xI.
    replace (S (2 * Pos.to_nat p)) with (Pos.to_nat p + (Pos.to_nat p + 1))%nat by lia.
    now rewrite !Nat.iter_add.
  - rewrite !IH, Pos2Nat.inj_xO.
    replace (2 * Pos.to_nat p)%nat with (Pos.to_nat p + Pos.to_nat p)%nat by lia.
    now rewrite Nat.iter_add.
Qed.

Lemma shr_1_shl m n :
  Nat.iter n shr_1 (Build_shr_record (Zpos (Number.shl m n)) false false) =
  Build_shr_record (Zpos m) false false.
Proof.
  induction n as [|n IH]; [reflexivity|].
  rewrite Nat.iter_succ_r. change (Number.shl m (S n)) with (xO (Number.shl m n)). exact IH.
Qed.

Lemma shr_shl m n e :
  shr (Build_shr_record (Zpos (Number.shl m n)) false false) e (Z.of_nat n) =
  (Build_shr_record (Zpos m) false false, e + Z.of_nat n).
Proof.
  destruct n as [|n]; [cbn; now rewrite Z.add_0_r|].
  unfold shr. rewrite Nat2Z.inj_succ, <- Zpos_P_of_succ_nat.
  rewrite iter_pos_nat, SuccNat2Pos.id_succ, shr_1_shl. reflexivity.
Qed.

(** Rounding a mantissa that carries [n] more zero bits than the canonical
    one gives the canonical one. *)
Lemma binary_round_aux_shl sx m e n :
  bounded prec emax m e = true ->
  binary_round_aux prec emax sx (Zpos (Number.shl m n)) (e - Z.of_nat n) loc_Exact =
  S754_finite sx m e.
Proof.
  intros [Hc He]%andb_prop. unfold canonical_mantissa in Hc.
  apply Z.eqb_eq in Hc. unfold binary_round_aux, shr_fexp.
  cbn [Zdigits2 shr_record_of_loc]. rewrite digits2_shl.
  replace (Zpos (digits2_pos m) + Z.of_nat n + (e - Z.of_nat n))
    with (Zpos (digits2_pos m) + e) by lia.
  rewrite Hc. replace (e - (e - Z.of_nat n)) with (Z.of_nat n) by lia.
  rewrite shr_shl. cbn [shr_m loc_of_shr_record round_nearest_even Zdigits2
                        shr_record_of_loc].
  replace (e - Z.of_nat n + Z.of_nat n) with e by lia.
  rewrite Hc, Z.sub_diag. cbn [shr shr_m]. now rewrite He.
Qed.

Lemma binary_normalize_exact neg m e :
  0 <= e -> bounded prec emax m e = true ->
  binary_normalize prec emax (cond_Zopp neg (Zpos m * 2 ^ e)) 0 false =
  S754_finite neg m e.
Proof.
  intros He Hb.
  replace (Zpos m * 2 ^ e) with (Zpos (Number.shl m (Z.to_nat e)))
    by (now rewrite Zpos_shl, Z2Nat.id).
  assert (Hr : binary_round prec emax neg (Number.shl m (Z.to_nat e)) 0 = S754_finite neg m e).
  { unfold binary_round. rewrite digits2_shl, Z2Nat.id by exact He.
    apply andb_prop in Hb as Hb'. destruct Hb' as [Hc _].
    unfold canonical_mantissa in Hc. apply Z.eqb_eq in Hc.
    rewrite Z.add_0_r, Hc. unfold shl_align. rewrite Z.sub_0_r.
    pose proof (binary_round_aux_shl neg m e (Z.to_nat e) Hb) as H.
    rewrite Z2Nat.id, Z.sub_diag in H by exact He.
    destruct e; [exact H..|lia]. }
  destruct neg; exact Hr.
Qed.

Lemma fexp_le a b : a <= b -> fexp prec emax a <= fexp prec emax b.
Proof. unfold fexp. lia. Qed.

Lemma new_location_exact T : new_location T 0 = loc_Exact.
Proof. unfold new_location. now destruct (Z.even T). Qed.

Lemma SFdiv_exact neg L T m e :
  bounded prec emax m e = true ->
  Zpos L * 2 ^ Z.max 0 (- e) = Zpos m * 2 ^ Z.max 0 e * Zpos T ->
  SFdiv prec emax (S754_finite neg L 0) (S754_finite false T 0) = S754_finite neg m e.
Proof.
  intros Hb Hv. pose proof Hb as [Hc _]%andb_prop.
  unfold canonical_mantissa in Hc. apply Z.eqb_eq in Hc.
  set (d1 := Zpos (digits2_pos L)). set (d2 := Zpos (digits2_pos T)).
  set (dm := Zpos (digits2_pos m)) in *.
  assert (Hd : d1 - d2 <= dm + e).
  { pose proof (digits2_bounds L) as [HL _]. pose proof (digits2_bounds T) as [_ HT].
    pose proof (digits2_bounds m) as [_ Hm]. fold d1 in HL. fold d2 in HT. fold dm in Hm.
    assert (H1 : 2 ^ (d1 - 1 + Z.max 0 (- e)) <= Zpos L * 2 ^ Z.max 0 (- e)).
    { rewrite Z.pow_add_r by lia. apply Z.mul_le_mono_nonneg_r; [|exact HL].
      apply Z.pow_nonneg. lia. }
    assert (H2 : Zpos m * 2 ^ Z.max 0 e * Zpos T < 2 ^ (dm + Z.max 0 e + d2)).
    { rewrite !Z.pow_add_r by lia.
      assert (Hp : 0 < 2 ^ Z.max 0 e) by (apply Z.pow_pos_nonneg; lia).
      apply Z.mul_lt_mono_nonneg; [lia| |lia|exact HT].
      apply Z.mul_lt_mono_pos_r; assumption. }
    assert (H3 : d1 - 1 + Z.max 0 (- e) < dm + Z.max 0 e + d2).
    { apply (Z.pow_lt_mono_r_iff 2); lia. }
    lia. }
  set (e' := Z.min (fexp prec emax (d1 - d2)) 0).
  assert (He' : e' <= e /\ e' <= 0).
  { subst e'. pose proof (fexp_le _ _ Hd). lia. }
  set (n := Z.to_nat (e - e')).
  assert (Hq : Zpos L * 2 ^ (- e') = Zpos (Number.shl m n) * Zpos T).
  { rewrite Zpos_shl. subst n. rewrite Z2Nat.id by lia.
    destruct (Z.le_ge_cases 0 e) as [H0|H0].
    - rewrite Z.max_l, Z.max_r in Hv by lia. rewrite Z.pow_0_r, Z.mul_1_r in Hv.
      rewrite Hv. replace (e - e') with (e + - e') by lia.
      rewrite Z.pow_add_r by lia. lia.
    - rewrite Z.max_r, Z.max_l in Hv by lia. rewrite Z.pow_0_r, Z.mul_1_r in Hv.
      replace (- e') with (- e + (e - e')) by lia.
      rewrite Z.pow_add_r by lia. rewrite Z.mul_assoc, Hv. lia. }
  unfold SFdiv, SFdiv_core_binary. cbn [Zdigits2]. fold d1 d2.
  rewrite !Z.add_0_r, !Z.sub_diag. fold e'. rewrite Z.sub_0_l.
  assert (Hm' : match - e' with
                | 0 => Zpos L
                | Zpos _ => Z.shiftl (Zpos L) (- e')
                | Zneg _ => 0
                end = Zpos (Number.shl m n) * Zpos T).
  { rewrite <- Hq. destruct (- e') eqn:E; [now rewrite Z.mul_1_r| |lia].
    rewrite Z.shiftl_mul_pow2 by lia. reflexivity. }
  rewrite Hm'.
  pose proof (Z.div_mul (Zpos (Number.shl m n)) (Zpos T) ltac:(lia)) as Hdiv.
  pose proof (Z.mod_mul (Zpos (Number.shl m n)) (Zpos T) ltac:(lia)) as Hmod.
  unfold Z.div in Hdiv. unfold Z.modulo in Hmod.
  destruct (Z.div_eucl (Zpos (Number.shl m n) * Zpos T) (Zpos T)) as [q r].
  cbn [fst snd] in Hdiv, Hmod. subst q r.
  rewrite new_location_exact, xorb_false_r.
  replace e' with (e - Z.of_nat n) by (subst n; rewrite Z2Nat.id; lia).
  now apply binary_round_aux_shl.
Qed.
End Exact.

(** ** Number::toString finds a decimal of the number *)

Section Search.
Import Number.

Lemma of_decimal_normalize neg m e :
  0 <= e -> bounded prec emax m e = true ->
  of_decimal neg (Zpos m * 2 ^ e) 0 = SF2Prim (S754_finite neg m e).
Proof.
  intros He Hb. unfold of_decimal.
  assert (Hp : 0 < 2 ^ e) by (apply Z.pow_pos_nonneg; lia).
  destruct (Zpos m * 2 ^ e) as [|p|p] eqn:E; try lia.
  cbn [Z.leb Z.compare]. rewrite Z.pow_0_r, Z.mul_1_r, <- E.
  now rewrite binary_normalize_exact.
Qed.

Lemma of_decimal_divide neg s a m e :
  0 < a -> 0 < s -> bounded prec emax m e = true ->
  s * 2 ^ Z.max 0 (- e) = Zpos m * 2 ^ Z.max 0 e * 10 ^ a ->
  of_decimal neg s (- a) = SF2Prim (S754_finite neg m e).
Proof.
  intros Ha Hs Hb Hv. unfold of_decimal.
  destruct s as [|p|p]; try lia.
  destruct (Z.leb_spec 0 (- a)) as [|_]; [lia|].
  rewrite Z.opp_involutive.
  assert (Hp : 0 < 10 ^ a) by (apply Z.pow_pos_nonneg; lia).
  rewrite (SFdiv_exact prec emax neg p (Z.to_pos (10 ^ a)) m e Hb); [reflexivity|].
  now rewrite Z2Pos.id.
Qed.

Lemma SF2Prim_finite_nonzero m e :
  bounded prec emax m e = true -> SF2Prim (S754_finite false m e) <> zero.
Proof.
  intros Hb E. apply (f_equal Prim2SF) in E.
  now rewrite Prim2SF_SF2Prim in E.
Qed.

Lemma represents_spec x c :
  represents x c = true <-> of_decimal false (fst c) (snd c) = x.
Proof. apply FloatAxioms.Leibniz.eqb_spec. Qed.

Lemma represents_positive m e c :
  bounded prec emax m e = true ->
  represents (SF2Prim (S754_finite false m e)) c = true -> 0 < fst c.
Proof.
  intros Hb H%represents_spec. destruct c as [[|p|p] E]; cbn [fst snd] in *;
    [|lia|]; unfold of_decimal in H; symmetry in H;
    now apply SF2Prim_finite_nonzero in H.
Qed.

Lemma pick_sound x num den n k c :
  pick x num den n k = Some c -> represents x c = true.
Proof.
  unfold pick. destruct (candidates num den n k) as [[lo hi] side].
  destruct (represents x lo) eqn:Hlo, (represents x hi) eqn:Hhi;
    [destruct side; [destruct (Z.even (fst lo))|..]|..]; intros [= <-];
    assumption.
Qed.

Lemma pick_complete x num den n k :
  represents x (fst (fst (candidates num den n k))) = true ->
  pick x num den n k <> None.
Proof.
  unfold pick. destruct (candidates num den n k) as [[lo hi] side]. cbn [fst].
  intros ->. destruct (represents x hi); [|easy].
  destruct side; [destruct (Z.even (fst lo))|..]; easy.
Qed.

Lemma shortest_sound x num den n fuel k :
  (exists j, (j < fuel)%nat /\ pick x num den n (k + Z.of_nat j) <> None) ->
  represents x (shortest fuel x num den n k) = true.
Proof.
  revert k. induction fuel as [|fuel IH]; intros k (j & Hj & Hp); [lia|].
  cbn [shortest]. destruct (pick x num den n k) as [c|] eqn:Hk.
  - now apply pick_sound in Hk.
  - apply IH. destruct j as [|j]; [now rewrite Z.add_0_r in Hp|].
    exists j. split; [lia|]. now replace (k + 1 + Z.of_nat j) with (k + Z.of_nat (S j)) by lia.
Qed.


(** With enough digits the lower candidate is the value itself. *)
Lemma candidate_exact m e n k :
  bounded prec emax m e = true ->
  0 <= k - n -> - e <= k - n ->
  represents (SF2Prim (S754_finite false m e))
             (fst (fst (candidates (numerator m e) (denominator e) n k))) = true.
Proof.
  intros Hb Ha Hae. apply represents_spec. unfold candidates. cbn [fst snd].
  set (a := k - n) in *. rewrite (Z.max_r 0 a), (Z.max_l 0 (- a)) by lia.
  rewrite Z.pow_0_r, Z.mul_1_r. replace (n - k) with (- a) by lia.
  assert (H10 : 0 < 10 ^ a) by (apply Z.pow_pos_nonneg; lia).
  unfold numerator, denominator. destruct (Z.leb_spec 0 e) as [He|He].
  - rewrite Z.div_1_r.
    assert (H2 : 0 < 2 ^ e) by (apply Z.pow_pos_nonneg; lia).
    destruct (Z.eq_dec a 0) as [->|Hne].
    + rewrite Z.pow_0_r, Z.mul_1_r. now apply of_decimal_normalize.
    + apply of_decimal_divide; [lia|lia|exact Hb|].
      rewrite Z.max_l, Z.max_r by lia. rewrite Z.pow_0_r. lia.
  - assert (Hdiv : Zpos m * 10 ^ a = 2 ^ (- e) * (Zpos m * (2 ^ (a + e) * 5 ^ a))).
    { replace 10 with (2 * 5) by reflexivity. rewrite Z.pow_mul_l.
      replace a with (- e + (a + e)) at 1 by lia. rewrite Z.pow_add_r by lia. ring. }
    assert (H2 : 0 < 2 ^ (- e)) by (apply Z.pow_pos_nonneg; lia).
    assert (Hq : Zpos m * 10 ^ a / 2 ^ (- e) = Zpos m * (2 ^ (a + e) * 5 ^ a)).
    { rewrite Hdiv, Z.mul_comm, Z.div_mul by lia. reflexivity. }
    rewrite Hq. apply of_decimal_divide; [lia| |exact Hb|].
    + assert (0 < 2 ^ (a + e)) by (apply Z.pow_pos_nonneg; lia).
      assert (0 < 5 ^ a) by (apply Z.pow_pos_nonneg; lia). nia.
    + rewrite Z.max_r, Z.max_l by lia. rewrite Z.pow_0_r, Z.mul_1_r, Hdiv. ring.
Qed.

(** Number::toString writes a positive decimal whose Number value is the
    number. *)
Lemma digits_spec m e :
  bounded prec emax m e = true ->
  0 < fst (digits m e)
  /\ of_decimal false (fst (digits m e)) (snd (digits m e)) =
     SF2Prim (S754_finite false m e).
Proof.
  intros Hb.
  assert (H : represents (SF2Prim (S754_finite false m e)) (digits m e) = true).
  { unfold digits. fold (numerator m e) (denominator e).
    set (n := decimal_exponent (numerator m e) (denominator e)).
    set (K := Z.max 1 (n + Z.max 0 (- e))).
    apply shortest_sound. exists (Z.to_nat K - 1)%nat. split; [lia|].
    apply pick_complete, candidate_exact; [exact Hb|lia..]. }
  split; [now apply (represents_positive m e)|now apply represents_spec].
Qed.
End Search.

(** ** The text of Number::toString is a number token of its decimal *)

Section NumberText.
Import Number.
Local Open Scope list_scope.

Lemma natural_from l v :
  fold_left (fun value c => 10 * value + digit_value c) l v =
  v * 10 ^ Z.of_nat (length l) + natural l.
Proof.
  unfold natural. revert v. induction l as [|c l IH]; intros v.
  - cbn. lia.
  - cbn [fold_left length]. rewrite IH, (IH (10 * 0 + digit_value c)).
    rewrite Nat2Z.inj_succ, Z.pow_succ_r by lia. ring.
Qed.

Lemma natural_app a b :
  natural (a ++ b) = natural a * 10 ^ Z.of_nat (length b) + natural b.
Proof. unfold natural at 1. rewrite fold_left_app. apply natural_from. Qed.

Lemma natural_zeros j : natural (zeros j) = 0.
Proof.
  unfold zeros. induction (Z.to_nat j) as [|n IH]; [reflexivity|].
  change (repeat "0"%char (S n)) with (["0"%char] ++ repeat "0"%char n).
  rewrite natural_app, IH. reflexivity.
Qed.

Lemma length_zeros j : 0 <= j -> Z.of_nat (length (zeros j)) = j.
Proof. intros Hj. unfold zeros. rewrite repeat_length. lia. Qed.

Lemma digits_zeros j : forallb is_digit (zeros j) = true.
Proof.
  unfold zeros. induction (Z.to_nat j) as [|n IH]; [reflexivity|].
  cbn [repeat forallb]. now rewrite IH.
Qed.

(** The digits of a positive integer: digits, the first of them not zero,
    that denote it. *)
Lemma decimal_digits_spec s :
  0 < s ->
  forallb is_digit (decimal_digits s) = true
  /\ natural (decimal_digits s) = s
  /\ exists c r, decimal_digits s = c :: r /\ Ascii.eqb c "0" = false.
Proof.
  intros Hs. destruct s as [|p|p]; try lia. unfold decimal_digits. cbn [Z.to_pos].
  split; [apply digits_of_uint|]. split; [apply natural_to_uint|].
  pose proof (to_uint_head p) as H0.
  pose proof (DecimalPos.Unsigned.to_uint_nonnil p) as Hn.
  destruct (Pos.to_uint p) as [|u|u|u|u|u|u|u|u|u|u]; try easy;
    [now destruct (H0 u)|..]; eexists _, _; split; reflexivity.
Qed.

Lemma valid_int_nonzero c r : Ascii.eqb c "0" = false -> valid_int (c :: r) = true.
Proof. intros H. cbn. rewrite H. now destruct r. Qed.

Lemma is_digit_not_minus c : is_digit c = true -> Ascii.eqb c "-" = false.
Proof. destruct (Ascii.eqb_spec c "-"%char) as [->|]; [discriminate|reflexivity]. Qed.

(** The exponent part of a text, as [lex_exp] reads it. *)
Lemma lex_exp_exponent_text ex :
  ex <> 0 -> lex_exp (exponent_text ex) = Some (ex, []).
Proof.
  intros Hex. unfold exponent_text, lex_exp.
  change (Ascii.eqb "e" "e" || Ascii.eqb "e" "E") with true. cbv iota.
  destruct (decimal_digits_spec (Z.abs ex) ltac:(lia)) as (Hd & Hn & c & r & E & _).
  assert (Hs : span is_digit (decimal_digits (Z.abs ex)) = (decimal_digits (Z.abs ex), [])).
  { rewrite <- (app_nil_r (decimal_digits _)) at 1. now apply span_app. }
  destruct (Z.leb_spec 0 ex); cbn [lex_sign]; cbv iota;
    [change (Ascii.eqb "+" "-") with false; change (Ascii.eqb "+" "+") with true
    |change (Ascii.eqb "-" "-") with true];
    cbv iota; rewrite Hs, E, <- E, Hn; cbn [cond_Zopp]; do 2 f_equal; lia.
Qed.

Lemma lex_exp_nil : lex_exp [] = Some (0, []).
Proof. reflexivity. Qed.

Lemma lex_minus_digits ip rest :
  forallb is_digit ip = true -> valid_int ip = true ->
  lex_minus (ip ++ rest) = (false, ip ++ rest).
Proof.
  intros Hip Hv. destruct ip as [|c ip]; [discriminate|]. cbn in Hip.
  apply andb_prop in Hip as [Hc _]. cbn [app lex_minus].
  now rewrite (is_digit_not_minus c Hc).
Qed.

(** A text made of an integer part, a fraction and an exponent part. *)
Lemma literal_compose ip fp et ex :
  forallb is_digit ip = true -> valid_int ip = true ->
  forallb is_digit fp = true ->
  (et = [] /\ ex = 0) \/ (ex <> 0 /\ et = exponent_text ex) ->
  literal (ip ++ match fp with [] => [] | _ :: _ => "."%char :: fp end ++ et) =
  Some (false, natural (ip ++ fp), ex - Z.of_nat (length fp)).
Proof.
  intros Hip Hv Hfp Het.
  assert (Hlex : lex_exp et = Some (ex, [])).
  { destruct Het as [[-> ->]|[Hne ->]]; [reflexivity|now apply lex_exp_exponent_text]. }
  assert (Hhead : match et with [] => true | c :: _ => negb (is_digit c) end = true
                  /\ match et with [] => true | c :: _ => negb (Ascii.eqb c ".") end = true).
  { destruct Het as [[-> ->]|[Hne ->]]; now split. }
  destruct Hhead as [Hd Hdot].
  unfold literal. rewrite (lex_minus_digits _ _ Hip Hv).
  destruct fp as [|f fp'] eqn:Efp.
  - cbn [app]. rewrite (span_app is_digit ip et Hip Hd), Hv.
    assert (Hf : lex_frac et = Some ([], et)).
    { unfold lex_frac. destruct et as [|e0 et']; [reflexivity|].
      cbn in Hdot. now destruct (Ascii.eqb e0 "."). }
    rewrite Hf, Hlex. cbn [length]. reflexivity.
  - rewrite <- Efp in *. assert (Hne : fp <> []) by now rewrite Efp.
    rewrite (span_app is_digit ip (("."%char :: fp) ++ et) Hip eq_refl), Hv.
    unfold lex_frac. cbn [app]. change (Ascii.eqb "." ".") with true. cbv iota.
    rewrite (span_app is_digit fp et Hfp Hd).
    destruct fp; [easy|]. now rewrite Hlex.
Qed.

Lemma literal_minus l v :
  (exists c r, l = c :: r /\ is_digit c = true) ->
  literal l = Some (false, fst v, snd v) ->
  literal ("-"%char :: l) = Some (true, fst v, snd v).
Proof.
  intros (c & r & -> & Hc). unfold literal, lex_minus.
  change (Ascii.eqb "-" "-") with true. rewrite (is_digit_not_minus c Hc). cbv iota.
  destruct (span is_digit (c :: r)) as [ip s2]. destruct (valid_int ip); [|easy].
  destruct (lex_frac s2) as [[fp s3]|]; [|easy].
  destruct (lex_exp s3) as [[ex [|]]|]; [|easy..]. now intros [= -> ->].
Qed.
End NumberText.

Section NumberRoundTrip.
Import Number.
Local Open Scope list_scope.

Lemma of_decimal_scaled neg s j :
  0 < s -> 0 <= j -> of_decimal neg (s * 10 ^ j) 0 = of_decimal neg s j.
Proof.
  intros Hs Hj. unfold of_decimal.
  assert (Hp : 0 < 10 ^ j) by (apply Z.pow_pos_nonneg; lia).
  destruct s as [|p|p]; try lia.
  destruct (Zpos p * 10 ^ j) as [|q|q] eqn:E; try lia.
  destruct (Z.leb_spec 0 j); [|lia]. cbn [Z.leb Z.compare].
  now rewrite Z.pow_0_r, Z.mul_1_r, <- E.
Qed.

Lemma forallb_take_drop (f : ascii -> bool) n l :
  forallb f l = true -> forallb f (take n l) = true /\ forallb f (drop n l) = true.
Proof.
  intros H. rewrite <- (take_drop n l), forallb_app in H. now apply andb_prop in H.
Qed.

(** The exponent form: one digit, the others after a point, the exponent. *)
Lemma literal_exponent_form s n :
  0 < s -> n - 1 <> 0 ->
  let ds := decimal_digits s in
  let k := Z.of_nat (length ds) in
  literal (if k =? 1 then ds ++ exponent_text (n - 1)
           else take 1 ds ++ "."%char :: drop 1 ds ++ exponent_text (n - 1))
  = Some (false, s, n - k).
Proof.
  intros Hs Hn1 ds k.
  destruct (decimal_digits_spec s Hs) as (Hd & Hn & c & r & E & Hc). fold ds in Hd, Hn, E.
  assert (Hk : 1 <= k) by (subst k; rewrite E; cbn [length]; lia).
  destruct (Z.eqb_spec k 1) as [Hk1|Hk1].
  - pose proof (literal_compose ds [] (exponent_text (n - 1)) (n - 1)) as Hlit.
    cbn [app length] in Hlit. rewrite Hlit;
      [|assumption|rewrite E; now apply valid_int_nonzero
       |reflexivity|right; split; [lia|reflexivity]].
    rewrite app_nil_r, Hn. do 2 f_equal. lia.
  - destruct (forallb_take_drop is_digit 1 ds Hd) as [Ht Hdr].
    assert (Hlen : Z.of_nat (length (drop 1 ds)) = k - 1).
    { rewrite length_drop. lia. }
    pose proof (literal_compose (take 1 ds) (drop 1 ds) (exponent_text (n - 1)) (n - 1))
      as Hlit.
    destruct (drop 1 ds) as [|f fp] eqn:Edrop; [cbn [length] in Hlit, Hlen; lia|].
    rewrite <- Edrop in *. cbn [app] in Hlit. rewrite Hlit;
      [|assumption|rewrite E; cbn [take firstn]; now apply valid_int_nonzero|assumption
       |right; split; [lia|reflexivity]].
    rewrite take_drop, Hn, Hlen. do 2 f_equal. lia.
Qed.

(** The text of a decimal is a number token of the same value. *)
Lemma literal_format s e10 :
  0 < s ->
  let ds := decimal_digits s in
  let k := Z.of_nat (length ds) in
  exists m e10',
    literal (format ds (e10 + k) k) = Some (false, m, e10')
    /\ forall neg, of_decimal neg m e10' = of_decimal neg s e10.
Proof.
  intros Hs ds k.
  destruct (decimal_digits_spec s Hs) as (Hd & Hn & c & r & E & Hc). fold ds in Hd, Hn, E.
  assert (Hk : 1 <= k) by (subst k; rewrite E; cbn [length]; lia).
  remember (e10 + k) as n eqn:En.
  assert (Hexp : n - 1 <> 0 ->
                 literal (if k =? 1 then ds ++ exponent_text (n - 1)
                          else take 1 ds ++ "."%char :: drop 1 ds ++ exponent_text (n - 1))
                 = Some (false, s, e10)).
  { intros Hn1. replace e10 with (n - k) by lia. now apply literal_exponent_form. }
  unfold format.
  destruct (Z.leb_spec k n) as [Hkn|Hkn]; destruct (Z.leb_spec n 21) as [Hn21|Hn21];
    cbn [andb].
  - (* digits followed by zeros *)
    exists (s * 10 ^ e10), 0. split; [|intros neg; apply of_decimal_scaled; lia].
    pose proof (literal_compose (ds ++ zeros (n - k)) [] [] 0) as Hlit.
    cbn [app] in Hlit. rewrite !app_nil_r in Hlit. rewrite Hlit.
    + rewrite natural_app, natural_zeros, length_zeros, Hn by lia.
      replace (n - k) with e10 by lia. cbn [length]. do 3 f_equal; lia.
    + rewrite forallb_app, Hd. apply digits_zeros.
    + rewrite E. cbn [app]. now apply valid_int_nonzero.
    + reflexivity.
    + now left.
  - (* an exponent above 21 *)
    rewrite andb_false_r. destruct (Z.leb_spec n 0) as [|_]; [lia|].
    rewrite andb_false_r. exists s, e10. split; [apply Hexp; lia|reflexivity].
  - destruct (Z.ltb_spec 0 n) as [Hn0|Hn0]; cbn [andb].
    + (* digits around the point *)
      exists s, e10. split; [|reflexivity].
      destruct (forallb_take_drop is_digit (Z.to_nat n) ds Hd) as [Ht Hdr].
      assert (Hlen : Z.of_nat (length (drop (Z.to_nat n) ds)) = k - n).
      { rewrite length_drop. lia. }
      pose proof (literal_compose (take (Z.to_nat n) ds) (drop (Z.to_nat n) ds) [] 0)
        as Hlit.
      destruct (drop (Z.to_nat n) ds) as [|f fp] eqn:Edrop; [cbn [length] in Hlen; lia|].
      rewrite <- Edrop in *. cbn [app] in Hlit. rewrite !app_nil_r in Hlit. rewrite Hlit;
        [|assumption| |assumption|now left].
      * rewrite take_drop, Hn, Hlen. do 2 f_equal. lia.
      * rewrite E. destruct (Z.to_nat n) as [|n'] eqn:Etn; [lia|].
        cbn [take firstn]. now apply valid_int_nonzero.
    + destruct (Z.ltb_spec (-6) n) as [Hn6|Hn6]; destruct (Z.leb_spec n 0); try lia;
        cbn [andb].
      * (* zeros between the point and the digits *)
        exists s, e10. split; [|reflexivity].
        pose proof (literal_compose ["0"%char] (zeros (- n) ++ ds) [] 0) as Hlit.
        destruct (zeros (- n) ++ ds) as [|f fp] eqn:Efp.
        { apply app_eq_nil in Efp as [_ Eds]. now rewrite E in Eds. }
        rewrite <- Efp in *. cbn [app] in Hlit. rewrite !app_nil_r in Hlit. rewrite Hlit;
          [|reflexivity|reflexivity| |now left].
        -- change ("0"%char :: zeros (- n) ++ ds) with (["0"%char] ++ zeros (- n) ++ ds).
           rewrite !natural_app, natural_zeros, Hn, length_app, Nat2Z.inj_add,
             length_zeros by lia.
           fold k. replace (0 - (- n + k)) with e10 by lia. reflexivity.
        -- rewrite forallb_app, Hd, digits_zeros. reflexivity.
      * (* an exponent below -6 *)
        exists s, e10. split; [apply Hexp; lia|reflexivity].
  - (* an exponent above 21, with more digits than that *)
    rewrite andb_false_r. destruct (Z.leb_spec n 0) as [|_]; [lia|].
    rewrite andb_false_r. exists s, e10. split; [apply Hexp; lia|reflexivity].
Qed.

(** The sign of a rounded number is the sign given. *)
Lemma binary_round_aux_opp mx ex lx :
  binary_round_aux prec emax true mx ex lx
  = SFopp (binary_round_aux prec emax false mx ex lx).
Proof.
  unfold binary_round_aux.
  destruct (shr_fexp prec emax mx ex lx) as [mrs' e'].
  destruct (shr_fexp prec emax _ e' loc_Exact) as [mrs'' e''].
  destruct (shr_m mrs'') as [|q|q]; [reflexivity| |reflexivity].
  now destruct (e'' <=? emax - prec).
Qed.

Lemma SF2Prim_opp r : SF2Prim (SFopp r) = (- SF2Prim r)%float.
Proof.
  destruct r as [[|]|[|]| |[|] m e]; try reflexivity.
  apply Prim2SF_inj. rewrite opp_spec.
  change (SF2Prim (S754_finite true m e))
    with (- SF2Prim (S754_finite false m e))%float.
  rewrite opp_spec. cbn [SFopp negb].
  now destruct (Prim2SF (SF2Prim (S754_finite false m e))) as [[|]|[|]| |[|] m' e'].
Qed.

Lemma of_decimal_opp s e10 :
  0 < s -> of_decimal true s e10 = (- of_decimal false s e10)%float.
Proof.
  intros Hs. destruct s as [|p|p]; try lia. unfold of_decimal.
  assert (Hp : 0 < 10 ^ e10 -> 0 < Zpos p * 10 ^ e10) by lia.
  destruct (Z.leb_spec 0 e10) as [He|He]; rewrite <- SF2Prim_opp; f_equal.
  - specialize (Hp (Z.pow_pos_nonneg 10 e10 ltac:(lia) He)).
    destruct (Zpos p * 10 ^ e10) as [|q|q]; try lia.
    change (binary_normalize prec emax (cond_Zopp true (Zpos q)) 0 false)
      with (binary_round prec emax true q 0).
    change (binary_normalize prec emax (cond_Zopp false (Zpos q)) 0 false)
      with (binary_round prec emax false q 0).
    unfold binary_round.
    destruct (shl_align q 0 _) as [mz ez]. apply binary_round_aux_opp.
  - cbn [SFdiv xorb]. destruct (SFdiv_core_binary prec emax _ 0 _ 0) as [[mz ez] lz].
    apply binary_round_aux_opp.
Qed.

Lemma literal_positive l v :
  literal l = Some (false, fst v, snd v) -> exists c r, l = c :: r /\ is_digit c = true.
Proof.
  intros H. destruct (literal_head l) as (c & r & -> & Hc); [now rewrite H|].
  exists c, r. split; [reflexivity|].
  destruct (is_digit c) eqn:Hd; [reflexivity|]. cbn [orb] in Hc.
  unfold literal, lex_minus in H. rewrite Hc in H.
  destruct (span is_digit r) as [ip s2]. destruct (valid_int ip); [|discriminate].
  destruct (lex_frac s2) as [[fp s3]|]; [|discriminate].
  now destruct (lex_exp s3) as [[ex [|]]|].
Qed.

(** A finite number other than -0 is read back from its text. *)
Theorem parse_toString x : plain x = true -> parse (toString x) = Some x.
Proof.
  unfold plain, toString. intros Hx.
  pose proof (Prim2SF_valid x) as Hv. pose proof (SF2Prim_Prim2SF x) as Hr.
  destruct (Prim2SF x) as [[|]|[|]| |sgn m e]; try discriminate.
  - now rewrite <- Hr.
  - cbn [valid_binary] in Hv.
    destruct (digits_spec m e Hv) as [Hs Hd].
    destruct (digits m e) as [s e10]. cbn [fst snd] in Hs, Hd.
    destruct (literal_format s e10 Hs) as (m' & e10' & Hl & Heq).
    assert (He : e10 + Z.of_nat (length (decimal_digits s))
                 = e10 + Z.of_nat (length (decimal_digits s))) by reflexivity.
    destruct sgn.
    + cbn [app]. unfold parse.
      rewrite (literal_minus _ (m', e10') (literal_positive _ (m', e10') Hl) Hl).
      cbn [fst snd]. rewrite Heq, of_decimal_opp, Hd, <- Hr by assumption. reflexivity.
    + cbn [app]. unfold parse. rewrite Hl, Heq, Hd, <- Hr. reflexivity.
Qed.
End NumberRoundTrip.

(** ** Sums of safe integers

    The integers of the embedding are the numbers of the code as long as
    they are safe integers: the binary64 sum of two safe integers whose sum
    is safe is that sum. *)

Section SafeIntegers.

Lemma Pos_iter_shl m p : Pos.iter xO m p = Number.shl m (Pos.to_nat p).
Proof. unfold Number.shl. apply Pos2Nat.inj_iter. Qed.

Lemma shl_shl m a b : Number.shl (Number.shl m a) b = Number.shl m (b + a).
Proof. unfold Number.shl. symmetry. apply Nat.iter_add. Qed.

Lemma digits2_safe q : Zpos q <= 2 ^ 53 - 1 -> Zpos (digits2_pos q) <= 53.
Proof.
  intros Hq. destruct (digits2_bounds q) as [Hlo _].
  destruct (Z.le_gt_cases (Zpos (digits2_pos q)) 53) as [H|H]; [exact H|].
  assert (2 ^ 53 <= 2 ^ (Zpos (digits2_pos q) - 1)) by (apply Z.pow_le_mono_r; lia).
  lia.
Qed.

Lemma fexp_digits d : 1 <= d -> fexp prec emax d = d - 53.
Proof. intros Hd. unfold fexp, SpecFloat.emin, prec, emax. lia. Qed.

Lemma bounded_safe_float q :
  Zpos (digits2_pos q) <= 53 ->
  bounded prec emax (Number.shl q (Z.to_nat (53 - Zpos (digits2_pos q))))
          (Zpos (digits2_pos q) - 53) = true.
Proof.
  intros Hd. unfold bounded, canonical_mantissa.
  rewrite digits2_shl, Z2Nat.id by lia.
  replace (Zpos (digits2_pos q) + (53 - Zpos (digits2_pos q)) + (Zpos (digits2_pos q) - 53))
    with (Zpos (digits2_pos q)) by lia.
  rewrite fexp_digits by lia. rewrite Z.eqb_refl. cbn [andb].
  apply Z.leb_le. unfold prec, emax. lia.
Qed.

(** Rounding a safe integer that carries [k] more zero bits. *)
Lemma binary_round_integer (s : bool) (q : positive) (k : nat) :
  Zpos (digits2_pos q) <= 53 ->
  binary_round prec emax s (Number.shl q k) (- Z.of_nat k) = safe_float s q.
Proof.
  intros Hd. unfold binary_round, safe_float. rewrite digits2_shl.
  replace (Zpos (digits2_pos q) + Z.of_nat k + - Z.of_nat k)
    with (Zpos (digits2_pos q)) by lia.
  rewrite fexp_digits by lia. unfold shl_align.
  pose proof (bounded_safe_float q Hd) as Hb.
  set (d := Zpos (digits2_pos q)) in *.
  destruct (d - 53 - - Z.of_nat k) as [|j|j] eqn:E.
  - pose proof (binary_round_aux_shl prec emax s _ _ 0 Hb) as H.
    cbn [Number.shl Nat.iter nat_rect Z.of_nat] in H. rewrite Z.sub_0_r in H.
    replace (Z.to_nat (53 - d)) with k in * by lia.
    replace (- Z.of_nat k) with (d - 53) by lia. exact H.
  - pose proof (binary_round_aux_shl prec emax s _ _ (Pos.to_nat j) Hb) as H.
    rewrite shl_shl in H.
    replace (Pos.to_nat j + Z.to_nat (53 - d))%nat with k in H by lia.
    replace (d - 53 - Z.of_nat (Pos.to_nat j)) with (- Z.of_nat k) in H by lia.
    exact H.
  - rewrite Pos_iter_shl, shl_shl.
    replace (Pos.to_nat j + k)%nat with (Z.to_nat (53 - d)) by lia.
    pose proof (binary_round_aux_shl prec emax s _ _ 0 Hb) as H.
    cbn [Number.shl Nat.iter nat_rect Z.of_nat] in H. rewrite Z.sub_0_r in H. exact H.
Qed.

(** The binary64 number of a safe integer. *)
Lemma normalize_safe z :
  isSafeInteger z = true ->
  binary_normalize prec emax z 0 false =
  match z with
  | Z0 => S754_zero false
  | Zpos q => safe_float false q
  | Zneg q => safe_float true q
  end.
Proof.
  unfold isSafeInteger. intros Hz%Z.leb_le.
  destruct z as [|q|q]; [reflexivity| |]; cbn [binary_normalize];
    apply (binary_round_integer _ q 0), digits2_safe; cbn [Z.abs] in Hz; lia.
Qed.

Lemma Prim2SF_number_of_Z z :
  isSafeInteger z = true ->
  Prim2SF (number_of_Z z) =
  match z with
  | Z0 => S754_zero false
  | Zpos q => safe_float false q
  | Zneg q => safe_float true q
  end.
Proof.
  intros Hz. unfold number_of_Z. rewrite (normalize_safe z Hz).
  apply Prim2SF_SF2Prim. unfold isSafeInteger in Hz. apply Z.leb_le in Hz.
  destruct z as [|q|q]; [reflexivity| |]; cbn [valid_binary safe_float];
    apply bounded_safe_float, digits2_safe; cbn [Z.abs] in Hz; lia.
Qed.

Lemma shl_align_value m e ez :
  ez <= e -> Zpos (fst (shl_align m e ez)) = Zpos m * 2 ^ (e - ez).
Proof.
  intros He. unfold shl_align. destruct (ez - e) as [|j|j] eqn:E; cbn [fst]; try lia.
  - replace (e - ez) with 0 by lia. lia.
  - rewrite Pos_iter_shl, Zpos_shl. f_equal. f_equal. lia.
Qed.

Lemma safe_float_value (s : bool) (q : positive) :
  Zpos (digits2_pos q) <= 53 ->
  forall ez, ez <= Zpos (digits2_pos q) - 53 ->
  Zpos (fst (shl_align (Number.shl q (Z.to_nat (53 - Zpos (digits2_pos q))))
                       (Zpos (digits2_pos q) - 53) ez))
  = Zpos q * 2 ^ (- ez).
Proof.
  intros Hd ez Hez. rewrite shl_align_value by exact Hez. rewrite Zpos_shl, Z2Nat.id by lia.
  rewrite <- Z.mul_assoc, <- Z.pow_add_r by lia. f_equal. f_equal. lia.
Qed.

Lemma SFadd_safe (sa : bool) (qa : positive) (sb : bool) (qb : positive) :
  Zpos qa <= 2 ^ 53 - 1 -> Zpos qb <= 2 ^ 53 - 1 ->
  isSafeInteger (cond_Zopp sa (Zpos qa) + cond_Zopp sb (Zpos qb)) = true ->
  SFadd prec emax (safe_float sa qa) (safe_float sb qb)
  = binary_normalize prec emax (cond_Zopp sa (Zpos qa) + cond_Zopp sb (Zpos qb)) 0 false.
Proof.
  intros Ha Hb Hs. pose proof (digits2_safe qa Ha) as Hda.
  pose proof (digits2_safe qb Hb) as Hdb.
  rewrite (normalize_safe _ Hs).
  unfold safe_float at 1 2. cbn [SFadd].
  set (ez := Z.min (Zpos (digits2_pos qa) - 53) (Zpos (digits2_pos qb) - 53)).
  rewrite (safe_float_value sa qa Hda ez), (safe_float_value sb qb Hdb ez) by lia.
  assert (Hk : 0 <= - ez) by lia.
  set (sum := cond_Zopp sa (Zpos qa) + cond_Zopp sb (Zpos qb)) in *.
  assert (E : cond_Zopp sa (Zpos qa * 2 ^ (- ez)) + cond_Zopp sb (Zpos qb * 2 ^ (- ez))
              = sum * 2 ^ (- ez)).
  { subst sum. destruct sa, sb; cbn [cond_Zopp]; lia. }
  rewrite E. replace ez with (- Z.of_nat (Z.to_nat (- ez))) at 2 by lia.
  replace (- ez) with (Z.of_nat (Z.to_nat (- ez))) at 1 by lia.
  unfold isSafeInteger in Hs. apply Z.leb_le in Hs.
  destruct sum as [|q|q]; [reflexivity| |].
  - change (Zpos q * 2 ^ Z.of_nat (Z.to_nat (- ez)))
      with (Zpos q * 2 ^ Z.of_nat (Z.to_nat (- ez))).
    rewrite <- Zpos_shl. cbn [binary_normalize].
    apply binary_round_integer, digits2_safe. cbn [Z.abs] in Hs. lia.
  - replace (Zneg q * 2 ^ Z.of_nat (Z.to_nat (- ez)))
      with (Zneg (Number.shl q (Z.to_nat (- ez))))
      by (rewrite <- Pos2Z.opp_pos, Zpos_shl; lia).
    cbn [binary_normalize].
    apply binary_round_integer, digits2_safe. cbn [Z.abs] in Hs. lia.
Qed.

(** The binary64 sum of two safe integers whose sum is safe is the sum. *)
Lemma number_add_safe a b :
  isSafeInteger a = true -> isSafeInteger b = true -> isSafeInteger (a + b) = true ->
  (number_of_Z a + number_of_Z b)%float = number_of_Z (a + b).
Proof.
  intros Ha Hb Hs. apply Prim2SF_inj.
  rewrite add_spec, (Prim2SF_number_of_Z a Ha), (Prim2SF_number_of_Z b Hb),
    (Prim2SF_number_of_Z (a + b) Hs).
  pose proof (normalize_safe (a + b) Hs) as Hn.
  unfold isSafeInteger in Ha, Hb. apply Z.leb_le in Ha, Hb.
  destruct a as [|qa|qa].
  - cbn [Z.add]. destruct b as [|qb|qb]; reflexivity.
  - destruct b as [|qb|qb].
    + rewrite Z.add_0_r. reflexivity.
    + rewrite <- Hn. apply (SFadd_safe false qa false qb); cbn [Z.abs] in *; try lia.
      exact Hs.
    + rewrite <- Hn. apply (SFadd_safe false qa true qb); cbn [Z.abs] in *; try lia.
      exact Hs.
  - destruct b as [|qb|qb].
    + rewrite Z.add_0_r. reflexivity.
    + rewrite <- Hn. apply (SFadd_safe true qa false qb); cbn [Z.abs] in *; try lia.
      exact Hs.
    + rewrite <- Hn. apply (SFadd_safe true qa true qb); cbn [Z.abs] in *; try lia.
      exact Hs.
Qed.

Lemma sum_from (l : list Z) (a : Z) : fold_left Z.add l a = a + fold_left Z.add l 0.
Proof.
  revert a. induction l as [|x l IH]; intros a; cbn [fold_left]; [lia|].
  rewrite (IH (a + x)), (IH (0 + x)). lia.
Qed.

(** A sum of safe integers whose partial sums are safe: the binary64 sum
    of the code is the sum, and the sum is safe. *)
Lemma number_sum_safe qs sum :
  isSafeInteger sum = true -> safe_sum sum qs = true ->
  number_sum (number_of_Z sum) qs = number_of_Z (fold_left Z.add qs sum)
  /\ isSafeInteger (fold_left Z.add qs sum) = true.
Proof.
  revert sum. induction qs as [|q qs IH]; intros sum Hsum Hs; [now split|].
  cbn [safe_sum] in Hs. apply andb_prop in Hs as [[Hq Hsq]%andb_prop Hrest].
  unfold number_sum in *. cbn [fold_left].
  rewrite (number_add_safe sum q Hsum Hq Hsq). now apply IH.
Qed.
End SafeIntegers.

(** ** Number::toString on some prices *)

Example toString_9_99 :
  string_of_list_ascii (Number.toString 9.99%float) = "9.99"
  /\ string_of_list_ascii (Number.toString 19.98%float) = "19.98"
  /\ string_of_list_ascii (Number.toString 49.95%float) = "49.95".
Proof. vm_compute. repeat split; reflexivity. Qed.

Example toString_shortest :
  string_of_list_ascii (Number.toString (0.1 + 0.2)%float) = "0.30000000000000004"
  /\ string_of_list_ascii (Number.toString 100%float) = "100"
  /\ string_of_list_ascii (Number.toString 0.000001%float) = "0.000001"
  /\ string_of_list_ascii (Number.toString 1e21%float) = "1e+21"
  /\ string_of_list_ascii (Number.toString (-2.5e-7)%float) = "-2.5e-7".
Proof. vm_compute. repeat split; reflexivity. Qed.

Example parse_rounds_to_nearest :
  Number.parse (list_ascii_of_string "0.1") = Some 0.1%float
  /\ Number.parse (list_ascii_of_string "1E2") = Some 100%float
  /\ Number.parse (list_ascii_of_string "9007199254740993") = Some 9007199254740992%float
  /\ Number.parse (list_ascii_of_string "01") = None
  /\ Number.parse (list_ascii_of_string "1.") = None.
Proof. vm_compute. repeat split; reflexivity. Qed.

(** Numbers that JSON text does not carry: NaN and the infinities are
    written [null], negative zero is written [0]. *)
Example not_persistable :
  Snapshot.of_number nan = JSON.JNull
  /\ Snapshot.of_number infinity = JSON.JNull
  /\ Snapshot.as_number (Some (Snapshot.of_number nan)) = None
  /\ Snapshot.as_number (Some (Snapshot.of_number neg_zero)) = Some zero.
Proof. vm_compute. repeat split; reflexivity. Qed.

(** ** The snapshot read back at its type *)

Section SnapshotRoundTrip.
Import Snapshot.

Lemma as_integer_of_integer z : as_integer (Some (of_integer z)) = Some z.
Proof. apply parse_integer_toString. Qed.

Lemma as_Product_of_Product p :
  persistable (Product.price p) -> as_Product (Some (of_Product p)) = Some p.
Proof.
  destruct p as [i n d x u s c ca ua]. cbn [Product.price]. intros Hx.
  unfold as_Product, of_Product.
  cbn [Product.id Product.name Product.description Product.price Product.imageURL
       Product.stock Product.category Product.createdAt Product.updatedAt].
  change (member "price" _) with (Some (of_number x)).
  change (member "stock" _) with (Some (of_integer s)).
  rewrite Hx, as_integer_of_integer. reflexivity.
Qed.

Lemma as_CartItem_of_CartItem item :
  persistable (Product.price (CartItem.product item)) ->
  as_CartItem (of_CartItem item) = Some item.
Proof.
  destruct item as [i q p]. cbn [CartItem.product]. intros Hp.
  unfold as_CartItem, of_CartItem.
  cbn [CartItem.productId CartItem.quantity CartItem.product].
  change (member "quantity" _) with (Some (of_integer q)).
  change (member "product" _) with (Some (of_Product p)).
  rewrite as_integer_of_integer, (as_Product_of_Product _ Hp). reflexivity.
Qed.

Lemma as_CartItems_of_CartItems items :
  persistable_cart items -> as_CartItems (of_CartItems items) = Some items.
Proof.
  unfold as_CartItems, of_CartItems. induction 1 as [|item items Hi _ IH];
    [reflexivity|].
  cbn [List.map as_list]. now rewrite (as_CartItem_of_CartItem _ Hi), IH.
Qed.

Lemma well_formed_of_integer z : JSON.well_formed (of_integer z).
Proof. constructor. now rewrite literal_integer. Qed.

Lemma well_formed_of_number x : persistable x -> JSON.well_formed (of_number x).
Proof.
  unfold persistable, as_number, Number.parse.
  destruct (of_number x); try discriminate.
  intros H. constructor. now destruct (Number.literal token).
Qed.

Lemma well_formed_of_CartItems items :
  persistable_cart items -> JSON.well_formed (of_CartItems items).
Proof.
  intros H. constructor. induction H as [|item items Hi _ IH]; [constructor|].
  cbn [List.map]. constructor; [|exact IH].
  repeat (apply well_formed_of_integer || apply well_formed_of_number
          || assumption || constructor).
Qed.

(** JSON.parse of JSON.stringify of a cart, read at [CartItem[]]. *)
Lemma parse_stringify_cart items :
  persistable_cart items ->
  JSON.parse (JSON.stringify (of_CartItems items)) = Some (of_CartItems items).
Proof. intros H. now apply parse_stringify, well_formed_of_CartItems. Qed.
End SnapshotRoundTrip.

(** ** The cart store *)

Lemma saveCart_spec cartItems w :
  saveCart cartItems w =
  match App.rejects w SetItem with
  | Some e =>
      (Normal tt, App.set_console (App.console w ++ [("Error saving cart:", e)]) w)
  | None =>
      (Normal tt,
       App.set_storage (<[CART_STORAGE_KEY := JSON_stringify cartItems]> (App.storage w)) w)
  end.
Proof.
  unfold saveCart, try_catch, AsyncStorage.setItem.
  now destruct (App.rejects w SetItem).
Qed.

Lemma spawn_saveCart cartItems w :
  spawn (saveCart cartItems) w = (Normal tt, exec (saveCart cartItems) w).
Proof.
  unfold spawn, exec. rewrite saveCart_spec.
  now destruct (App.rejects w SetItem).
Qed.

Lemma saveCart_items cartItems w : App.items (exec (saveCart cartItems) w) = App.items w.
Proof. unfold exec. rewrite saveCart_spec. now destruct (App.rejects w SetItem). Qed.


Lemma saveCart_unhandled cartItems w :
  App.unhandled (exec (saveCart cartItems) w) = App.unhandled w.
Proof. unfold exec. rewrite saveCart_spec. now destruct (App.rejects w SetItem). Qed.

(** A state updater that saves what it returns. *)
Lemma setItems_save (f : list CartItem.t -> list CartItem.t) w :
  setItems (fun currentItems => spawn (saveCart (f currentItems));; mret (f currentItems)) w =
  (Normal tt, App.set_items (f (App.items w)) (exec (saveCart (f (App.items w))) w)).
Proof.
  unfold setItems, mbind, Async_bind, mret, Async_ret.
  now rewrite spawn_saveCart.
Qed.

Lemma addToCart_spec product quantity w :
  let next := addToCart_items product quantity (App.items w) in
  addToCart product quantity w =
  (Normal tt, App.set_items next (exec (saveCart next) w)).
Proof.
  cbn zeta. rewrite <- (setItems_save (addToCart_items product quantity)).
  unfold addToCart, addToCart_items, setItems.
  now destruct (List.find _ (App.items w)).
Qed.

Lemma removeFromCart_spec productId w :
  let next := removeFromCart_items productId (App.items w) in
  removeFromCart productId w =
  (Normal tt, App.set_items next (exec (saveCart next) w)).
Proof. apply (setItems_save (removeFromCart_items productId)). Qed.

Lemma updateQuantity_spec productId quantity w :
  let next := updateQuantity_items productId quantity (App.items w) in
  updateQuantity productId quantity w =
  (Normal tt, App.set_items next (exec (saveCart next) w)).
Proof.
  cbn zeta. unfold updateQuantity, updateQuantity_items.
  destruct (quantity <? 1); [apply removeFromCart_spec|].
  apply (setItems_save (fun l => List.map _ l)).
Qed.

Lemma clearCart_items w : App.items (exec clearCart w) = [].
Proof.
  unfold exec, clearCart, mbind, Async_bind, setItems_value, AsyncStorage.removeItem.
  cbn. now destruct (App.rejects w RemoveItem).
Qed.

Lemma dispatch_items i w : App.items (exec (dispatch i) w) = step_items i (App.items w).
Proof.
  destruct i as [p q|pid|pid q|]; cbn [dispatch step_items]; unfold exec.
  - now rewrite addToCart_spec.
  - now rewrite removeFromCart_spec.
  - now rewrite updateQuantity_spec.
  - apply clearCart_items.
Qed.

Lemma run_items intents w :
  App.items (run intents w) = fold_left (fun l i => step_items i l) intents (App.items w).
Proof.
  revert w. induction intents as [|i intents IH]; intros w; [reflexivity|].
  cbn [run fold_left]. fold (run intents (exec (dispatch i) w)).
  now rewrite IH, dispatch_items.
Qed.

(** *** One line item per product *)

Lemma find_none_productIds pid l :
  List.find (fun item => String.eqb (CartItem.productId item) pid) l = None ->
  ~ In pid (productIds l).
Proof.
  induction l as [|x l IH]; cbn; [tauto|].
  destruct (String.eqb_spec (CartItem.productId x) pid) as [E|N]; [discriminate|].
  intros H [E|Hin]; [now apply N|now apply IH].
Qed.

Lemma productIds_map (f : CartItem.t -> CartItem.t) l :
  (forall item, CartItem.productId (f item) = CartItem.productId item) ->
  productIds (List.map f l) = productIds l.
Proof.
  intros Hf. unfold productIds. rewrite List.map_map.
  apply List.map_ext, Hf.
Qed.

Lemma productIds_filter_In (P : CartItem.t -> bool) l pid :
  In pid (productIds (List.filter P l)) -> In pid (productIds l).
Proof.
  unfold productIds. rewrite !in_map_iff.
  intros (x & E & Hx%filter_In). exists x. tauto.
Qed.

Lemma NoDup_productIds_filter (P : CartItem.t -> bool) l :
  NoDup (productIds l) -> NoDup (productIds (List.filter P l)).
Proof.
  induction l as [|x l IH]; cbn; [trivial|].
  intros [Hx Hl]%NoDup_cons. destruct (P x); cbn; [|now apply IH].
  apply NoDup_cons. split; [|now apply IH].
  intros Hin%list_elem_of_In. apply Hx, list_elem_of_In.
  now apply productIds_filter_In in Hin.
Qed.

Lemma NoDup_addToCart_items product quantity l :
  NoDup (productIds l) -> NoDup (productIds (addToCart_items product quantity l)).
Proof.
  intros H. unfold addToCart_items.
  destruct (List.find _ l) eqn:Hfind.
  - rewrite productIds_map; [exact H|]. intros item.
    now destruct (String.eqb _ _).
  - unfold productIds. rewrite List.map_app. cbn.
    apply NoDup_app. repeat split; [exact H| |apply NoDup_singleton].
    intros x Hx ->%list_elem_of_singleton.
    apply (find_none_productIds _ _ Hfind). now apply list_elem_of_In.
Qed.

Lemma NoDup_updateQuantity_items productId quantity l :
  NoDup (productIds l) -> NoDup (productIds (updateQuantity_items productId quantity l)).
Proof.
  intros H. unfold updateQuantity_items, removeFromCart_items.
  destruct (quantity <? 1); [now apply NoDup_productIds_filter|].
  rewrite productIds_map; [exact H|]. intros item.
  now destruct (String.eqb _ _).
Qed.

Lemma NoDup_step_items i l :
  NoDup (productIds l) -> NoDup (productIds (step_items i l)).
Proof.
  destruct i; cbn [step_items].
  - apply NoDup_addToCart_items.
  - apply NoDup_productIds_filter.
  - apply NoDup_updateQuantity_items.
  - intros _. apply NoDup_nil_2.
Qed.

Lemma reachable_NoDup w : reachable w -> NoDup (productIds (App.items w)).
Proof.
  induction 1 as [w E|w i _ IH].
  - rewrite E. apply NoDup_nil_2.
  - rewrite dispatch_items. now apply NoDup_step_items.
Qed.

(** *** Calls that pass one product *)

Lemma addToCart_items_new product quantity :
  addToCart_items product quantity [] =
  [CartItem.mk (Product.id product) quantity product].
Proof. reflexivity. Qed.

Lemma addToCart_items_same product quantity q0 p0 :
  addToCart_items product quantity [CartItem.mk (Product.id product) q0 p0] =
  [CartItem.mk (Product.id product) (q0 + quantity) p0].
Proof.
  unfold addToCart_items. cbn. now rewrite String.eqb_refl.
Qed.

Lemma addToCart_calls_same pid q0 p0 calls :
  Forall (fun call => Product.id (fst call) = pid) calls ->
  fold_left (fun l i => step_items i l) (addToCart_calls calls) [CartItem.mk pid q0 p0] =
  [CartItem.mk pid (q0 + sum_quantities calls) p0].
Proof.
  intros H. revert q0. induction H as [|[p q] calls Hp _ IH]; intros q0.
  - cbn. now rewrite Z.add_0_r.
  - cbn [addToCart_calls List.map fold_left step_items fst snd sum_quantities fold_right] in *.
    rewrite <- Hp, addToCart_items_same, Hp. fold (addToCart_calls calls).
    rewrite IH. fold (sum_quantities calls). now rewrite Z.add_assoc.
Qed.

Lemma totalItems_singleton item : totalItems [item] = CartItem.quantity item.
Proof. reflexivity. Qed.

Lemma totalItems_quantities l : totalItems l = fold_left Z.add (quantities l) 0.
Proof.
  unfold totalItems, quantities. generalize 0.
  induction l as [|x l IH]; intros a; [reflexivity|]. cbn [fold_left List.map]. apply IH.
Qed.

Lemma sum_quantities_fold calls :
  sum_quantities calls = fold_left Z.add (List.map snd calls) 0.
Proof.
  induction calls as [|[p q] calls IH]; [reflexivity|].
  cbn [sum_quantities fold_right List.map fold_left snd].
  fold (sum_quantities calls). rewrite IH, (sum_from _ (0 + q)). lia.
Qed.

(** Over a cart of safe quantities and safe sums, [totalItems] is the
    number that the code computes. *)
Lemma totalItems_number_safe l :
  safe_quantities l = true ->
  totalItems_number l = number_of_Z (totalItems l)
  /\ isSafeInteger (totalItems l) = true.
Proof.
  intros Hs. unfold totalItems_number. rewrite totalItems_quantities.
  now apply (number_sum_safe (quantities l) 0).
Qed.

(** C1. Calls of addToCart that all pass one productId, on an empty cart,
    leave exactly one line item for it, whose quantity (and so totalItems)
    is the sum of the quantities passed, as long as the quantities and the
    sums after each call are safe integers: the binary64 additions of the
    code then give that sum. No state that add, remove, update and clear
    reach from an empty cart holds two line items of one productId, and
    none of the four puts a second line item of a productId into a cart
    that holds at most one of each. *)
Theorem one_line_item_per_product :
  (forall w product quantity calls,
      App.items w = [] ->
      Forall (fun call => Product.id (fst call) = Product.id product) calls ->
      isSafeInteger quantity = true ->
      safe_sum quantity (List.map snd calls) = true ->
      let w' := run (addToCart_calls ((product, quantity) :: calls)) w in
      let sum := sum_quantities ((product, quantity) :: calls) in
      App.items w' = [CartItem.mk (Product.id product) sum product]
      /\ totalItems (App.items w') = sum
      /\ number_sum (number_of_Z quantity) (List.map snd calls) = number_of_Z sum
      /\ totalItems_number (App.items w') = number_of_Z sum)
  /\ (forall w, reachable w -> NoDup (productIds (App.items w)))
  /\ (forall w i,
         NoDup (productIds (App.items w)) ->
         NoDup (productIds (App.items (exec (dispatch i) w)))).
Proof.
  split; [|split; [exact reachable_NoDup|]];
    [|intros w i H; rewrite dispatch_items; now apply NoDup_step_items].
  intros w product quantity calls Hw Hcalls Hq Hs w' sum.
  assert (E : App.items w' = [CartItem.mk (Product.id product) sum product]).
  { subst w' sum. rewrite run_items, Hw.
    cbn [addToCart_calls List.map fold_left step_items fst snd].
    rewrite addToCart_items_new. fold (addToCart_calls calls).
    now rewrite addToCart_calls_same. }
  destruct (number_sum_safe _ _ Hq Hs) as [Hn Hsafe].
  assert (Esum : fold_left Z.add (List.map snd calls) quantity = sum).
  { subst sum. cbn [sum_quantities fold_right snd]. fold (sum_quantities calls).
    rewrite sum_quantities_fold. apply sum_from. }
  rewrite Esum in Hn, Hsafe.
  split; [exact E|]. split; [now rewrite E, totalItems_singleton|].
  split; [exact Hn|]. rewrite E.
  apply (number_add_safe 0 sum); assumption || reflexivity.
Qed.

Lemma one_line_item_per_product_witness :
  App.items (run (addToCart_calls [(p1, 2); (p1, 3); (p1, 4)]) Initial.app) =
    [CartItem.mk "p1" 9 p1]
  /\ totalItems_number (App.items (run (addToCart_calls [(p1, 2); (p1, 3); (p1, 4)])
                                      Initial.app)) = 9%float
  /\ NoDup (productIds (App.items (exec (dispatch (AddToCart p1 2)) Initial.app))).
Proof.
  split; [|split].
  - apply (proj1 one_line_item_per_product Initial.app p1 2 [(p1, 3); (p1, 4)]);
      [reflexivity|repeat constructor|reflexivity|reflexivity].
  - apply (proj1 one_line_item_per_product Initial.app p1 2 [(p1, 3); (p1, 4)]);
      [reflexivity|repeat constructor|reflexivity|reflexivity].
  - apply (proj1 (proj2 one_line_item_per_product)).
    apply reachable_step, reachable_empty. reflexivity.
Defined.

(** Above the safe integers a binary64 sum is not the sum: 2^53 + 1 is
    2^53. *)
Example sum_above_safe_integers :
  isSafeInteger (2 ^ 53) = false
  /\ (number_of_Z (2 ^ 53) + number_of_Z 1)%float = number_of_Z (2 ^ 53)
  /\ number_sum (number_of_Z (2 ^ 53)) [1; 1] = number_of_Z (2 ^ 53).
Proof. repeat split; vm_compute; reflexivity. Qed.

(** *** Merging into an existing line item *)

Lemma find_productIds pid l :
  In pid (productIds l) ->
  exists x, List.find (fun item => String.eqb (CartItem.productId item) pid) l = Some x.
Proof.
  induction l as [|x l IH]; cbn; [tauto|].
  destruct (String.eqb_spec (CartItem.productId x) pid) as [E|N]; [now exists x|].
  intros [E|Hin]; [contradiction|now apply IH].
Qed.

Lemma lookup_map {A B} (f : A -> B) (l : list A) (i : nat) :
  List.map f l !! i = f <$> l !! i.
Proof.
  revert i. induction l as [|x l IH]; intros [|i]; cbn; [reflexivity..|apply IH].
Qed.

(** The line items after [addToCart], by the two cases of the updater. *)
Lemma addToCart_existing product quantity w :
  In (Product.id product) (productIds (App.items w)) ->
  App.items (exec (addToCart product quantity) w) =
  List.map (fun item =>
              if String.eqb (CartItem.productId item) (Product.id product)
              then CartItem.mk (CartItem.productId item)
                               (CartItem.quantity item + quantity)
                               (CartItem.product item)
              else item)
           (App.items w).
Proof.
  intros [x Hx]%find_productIds. unfold exec. rewrite addToCart_spec.
  cbn [snd App.items App.set_items]. unfold addToCart_items. now rewrite Hx.
Qed.

Lemma addToCart_absent product quantity w :
  ~ In (Product.id product) (productIds (App.items w)) ->
  App.items (exec (addToCart product quantity) w) =
  (App.items w ++ [CartItem.mk (Product.id product) quantity product])%list.
Proof.
  intros Hnot. unfold exec. rewrite addToCart_spec.
  cbn [snd App.items App.set_items]. unfold addToCart_items.
  destruct (List.find _ (App.items w)) as [x|] eqn:Hx; [|reflexivity].
  apply List.find_some in Hx as [Hin E%String.eqb_eq].
  destruct Hnot. unfold productIds. apply in_map_iff. now exists x.
Qed.



(** C10. addToCart takes the quantity as it is, of either sign: the line
    item of the product gets its old quantity plus the argument (the sum
    that the binary64 addition of the code gives while the two and their
    sum are safe integers), a product without a line item gets one with the
    argument as its quantity; a cart that starts empty can so come to hold
    a line item of any quantity, zero and the negative ones included. *)
Theorem addToCart_unvalidated_quantity :
  forall w product quantity,
    let l := App.items w in
    let l' := App.items (exec (addToCart product quantity) w) in
    (In (Product.id product) (productIds l) ->
     forall i item,
       l !! i = Some item -> CartItem.productId item = Product.id product ->
       isSafeInteger (CartItem.quantity item) = true ->
       isSafeInteger quantity = true ->
       isSafeInteger (CartItem.quantity item + quantity) = true ->
       l' !! i = Some (CartItem.mk (Product.id product)
                                   (CartItem.quantity item + quantity)
                                   (CartItem.product item))
       /\ (number_of_Z (CartItem.quantity item) + number_of_Z quantity)%float
          = number_of_Z (CartItem.quantity item + quantity))
    /\ (~ In (Product.id product) (productIds l) ->
        l' = (l ++ [CartItem.mk (Product.id product) quantity product])%list)
    /\ (l = [] -> reachable (exec (addToCart product quantity) w)
                  /\ In (CartItem.mk (Product.id product) quantity product) l').
Proof.
  intros w product quantity l l'. subst l l'. split; [|split; [|split]].
  - intros Hin i item Hi E Hold Hq Hsum. split; [|now apply number_add_safe].
    rewrite (addToCart_existing _ _ _ Hin), lookup_map, Hi. cbn.
    now rewrite E, String.eqb_refl.
  - apply addToCart_absent.
  - now apply (reachable_step w (AddToCart product quantity)), reachable_empty.
  - rewrite addToCart_absent; rewrite H; [now left|easy].
Qed.

Lemma addToCart_unvalidated_quantity_witness :
  App.items (exec (addToCart p1 (-5)) (exec (addToCart p1 2) Initial.app)) !! 0%nat
  = Some (CartItem.mk "p1" (-3) p1)
  /\ (number_of_Z 2 + number_of_Z (-5))%float = number_of_Z (-3).
Proof.
  destruct (addToCart_unvalidated_quantity (exec (addToCart p1 2) Initial.app) p1 (-5))
    as [H _].
  apply (H (or_introl eq_refl) 0%nat (CartItem.mk "p1" 2 p1)); reflexivity.
Defined.

Example addToCart_zero_quantity :
  App.items (exec (addToCart p1 0) Initial.app) = [CartItem.mk "p1" 0 p1].
Proof. reflexivity. Qed.

Example addToCart_negative_quantity :
  App.items (exec (addToCart p1 (-5)) (exec (addToCart p1 2) Initial.app)) =
  [CartItem.mk "p1" (-3) p1].
Proof. reflexivity. Qed.

(** *** The scenario of the specification *)

(** C7. On an empty cart: adding two of a product [p1] priced 9.99 gives
    totalItems 2 and totalPrice 19.98; adding three more of it leaves one
    line item of quantity 5, totalItems 5 and totalPrice 49.95;
    updateQuantity("p1", 1) leaves quantity 1 and totalPrice 9.99;
    removeFromCart("p1") leaves the collection empty. The prices are the
    binary64 numbers of these literals and the sums are the ones the
    hardware computes. *)
Theorem scenario_p1 :
  forall w product,
    App.items w = [] ->
    Product.id product = "p1" ->
    Product.price product = 9.99%float ->
    let w1 := exec (addToCart product 2) w in
    let w2 := exec (addToCart product 3) w1 in
    let w3 := exec (updateQuantity "p1" 1) w2 in
    let w4 := exec (removeFromCart "p1") w3 in
    (totalItems (App.items w1) = 2 /\ totalPrice (App.items w1) = 19.98%float)
    /\ (App.items w2 = [CartItem.mk "p1" 5 product]
        /\ totalItems (App.items w2) = 5 /\ totalPrice (App.items w2) = 49.95%float)
    /\ (App.items w3 = [CartItem.mk "p1" 1 product]
        /\ totalPrice (App.items w3) = 9.99%float)
    /\ App.items w4 = [].
Proof.
  intros w product Hw Hid Hprice w1 w2 w3 w4.
  assert (E1 : App.items w1 = [CartItem.mk "p1" 2 product]).
  { subst w1. unfold exec. rewrite addToCart_spec. cbn [snd App.items App.set_items].
    now rewrite Hw, addToCart_items_new, Hid. }
  assert (E2 : App.items w2 = [CartItem.mk "p1" 5 product]).
  { subst w2. unfold exec at 1. rewrite addToCart_spec.
    cbn [snd App.items App.set_items]. rewrite E1, <- Hid.
    now rewrite addToCart_items_same. }
  assert (E3 : App.items w3 = [CartItem.mk "p1" 1 product]).
  { subst w3. unfold exec at 1. rewrite updateQuantity_spec.
    cbn [snd App.items App.set_items]. now rewrite E2. }
  assert (E4 : App.items w4 = []).
  { subst w4. unfold exec at 1. rewrite removeFromCart_spec.
    cbn [snd App.items App.set_items]. now rewrite E3. }
  rewrite E1, E2, E3, E4. unfold totalPrice, totalItems.
  cbn [fold_left CartItem.quantity CartItem.product]. rewrite Hprice.
  repeat split; vm_compute; reflexivity.
Qed.

Lemma scenario_p1_witness :
  totalPrice (App.items (exec (addToCart p1 3) (exec (addToCart p1 2) Initial.app))) =
    49.95%float
  /\ App.items (exec (removeFromCart "p1")
                     (exec (updateQuantity "p1" 1)
                           (exec (addToCart p1 3) (exec (addToCart p1 2) Initial.app)))) = [].
Proof.
  pose proof (scenario_p1 Initial.app p1 eq_refl eq_refl eq_refl) as H.
  cbv zeta in H. split; [apply H|apply H].
Defined.

(** *** Quantities below one *)

(** C3. With a quantity below 1, zero and the negative ones included,
    updateQuantity is removeFromCart: the calls complete alike and leave the
    same state, in memory and in storage. *)
Theorem updateQuantity_removes :
  forall w productId quantity,
    quantity < 1 ->
    updateQuantity productId quantity w = removeFromCart productId w.
Proof.
  intros w productId quantity Hq. unfold updateQuantity.
  now destruct (Z.ltb_spec quantity 1); [|lia].
Qed.

Lemma updateQuantity_removes_witness :
  updateQuantity "p1" 0 (exec (addToCart p1 2) Initial.app) =
    removeFromCart "p1" (exec (addToCart p1 2) Initial.app)
  /\ updateQuantity "p1" (-1) (exec (addToCart p1 2) Initial.app) =
       removeFromCart "p1" (exec (addToCart p1 2) Initial.app).
Proof.
  split; apply updateQuantity_removes; lia.
Defined.

Example updateQuantity_zero_storage :
  App.items (exec (updateQuantity "p1" 0) (exec (addToCart p1 2) Initial.app)) = []
  /\ App.storage (exec (updateQuantity "p1" 0) (exec (addToCart p1 2) Initial.app))
       !! CART_STORAGE_KEY = Some "[]".
Proof. split; vm_compute; reflexivity. Qed.

(** *** Failing writes *)



Example addToCart_failing_write :
  let w := App.mk [] None null true ∅ ∅
                  (fun c => match c with SetItem => Some (Err "disk full") | _ => None end)
                  [] [] [] in
  addToCart p1 2 w =
  (Normal tt,
   App.mk [CartItem.mk "p1" 2 p1] None null true ∅ ∅ (App.rejects w) []
          [("Error saving cart:", Err "disk full")] []).
Proof. reflexivity. Qed.

(** *** Clearing the cart *)

Lemma loadCart_no_snapshot w :
  App.storage w !! CART_STORAGE_KEY = None ->
  completion loadCart w = Normal tt /\ App.items (exec loadCart w) = App.items w.
Proof.
  intros Hs. unfold completion, exec, loadCart, try_catch, mbind, Async_bind,
    AsyncStorage.getItem.
  destruct (App.rejects w GetItem); [now split|]. now rewrite Hs.
Qed.

Lemma CartProvider_no_snapshot w :
  App.storage w !! CART_STORAGE_KEY = None ->
  completion CartProvider w = Normal tt /\ App.items (exec CartProvider w) = [].
Proof.
  intros Hs. unfold completion, exec, CartProvider, mbind, Async_bind, setItems_value.
  unfold spawn.
  destruct (loadCart_no_snapshot (App.set_items [] w) Hs) as [Hc Hi].
  unfold completion, exec in Hc, Hi.
  destruct (loadCart (App.set_items [] w)) as [[[]|e|] w'];
    cbn in *; try discriminate. now split.
Qed.

(** C5. clearCart, when storage carries out the removal, leaves totalItems
    and totalPrice at 0 and no snapshot under the key of the cart (the key
    is deleted, not set to an empty array); a new store instance over that
    storage starts with an empty cart. *)
Theorem clearCart_erases :
  forall w,
    App.rejects w RemoveItem = None ->
    let w' := exec clearCart w in
    completion clearCart w = Normal tt
    /\ totalItems (App.items w') = 0
    /\ totalPrice (App.items w') = 0%float
    /\ App.storage w' = delete CART_STORAGE_KEY (App.storage w)
    /\ App.storage w' !! CART_STORAGE_KEY = None
    /\ completion CartProvider w' = Normal tt
    /\ App.items (exec CartProvider w') = [].
Proof.
  intros w Hr w'.
  assert (E : clearCart w =
              (Normal tt,
               App.set_storage (delete CART_STORAGE_KEY (App.storage w))
                               (App.set_items [] w))).
  { unfold clearCart, mbind, Async_bind, setItems_value, AsyncStorage.removeItem.
    cbn. now rewrite Hr. }
  assert (Ew : w' = App.set_storage (delete CART_STORAGE_KEY (App.storage w))
                                    (App.set_items [] w)).
  { subst w'. unfold exec. now rewrite E. }
  assert (Hs : App.storage w' !! CART_STORAGE_KEY = None).
  { rewrite Ew. apply lookup_delete_eq. }
  destruct (CartProvider_no_snapshot w' Hs) as [Hc Hi].
  unfold completion at 1. rewrite E, Ew in *.
  repeat split; first [reflexivity | assumption].
Qed.

Lemma clearCart_erases_witness :
  App.storage (exec (addToCart p1 2) Initial.app) !! CART_STORAGE_KEY <> None
  /\ App.storage (exec clearCart (exec (addToCart p1 2) Initial.app))
       !! CART_STORAGE_KEY = None
  /\ App.items (exec CartProvider (exec clearCart (exec (addToCart p1 2) Initial.app))) = [].
Proof.
  split; [vm_compute; discriminate|].
  split; apply (clearCart_erases (exec (addToCart p1 2) Initial.app) eq_refl).
Defined.

(** *** The snapshot read by a new store instance *)

Lemma JSON_stringify_truthy cartItems :
  exists c text, JSON_stringify cartItems = String c text.
Proof. eexists _, _. reflexivity. Qed.

Lemma JSON_parse_stringify cartItems w :
  Snapshot.persistable_cart cartItems ->
  JSON_parse (JSON_stringify cartItems) w = (Normal cartItems, w).
Proof.
  intros H. unfold JSON_parse, JSON_stringify.
  now rewrite (parse_stringify_cart _ H), (as_CartItems_of_CartItems _ H).
Qed.

Lemma loadCart_snapshot cartItems w :
  Snapshot.persistable_cart cartItems ->
  App.rejects w GetItem = None ->
  App.storage w !! CART_STORAGE_KEY = Some (JSON_stringify cartItems) ->
  loadCart w = (Normal tt, App.set_items cartItems w).
Proof.
  intros Hp Hr Hs.
  unfold loadCart, try_catch, mbind, Async_bind, AsyncStorage.getItem.
  rewrite Hr, Hs. destruct (JSON_stringify_truthy cartItems) as (c & text & E).
  rewrite E. cbv iota. rewrite <- E. now rewrite (JSON_parse_stringify _ _ Hp).
Qed.

Lemma plain_persistable x : Number.plain x = true -> Snapshot.persistable x.
Proof.
  intros Hx. unfold Snapshot.persistable, Snapshot.of_number, Snapshot.as_number.
  pose proof (parse_toString x Hx) as Hp. unfold Number.plain in Hx.
  now destruct (Prim2SF x) as [[|]|[|]| |sgn m e].
Qed.

Lemma finite_prices_persistable items :
  Snapshot.finite_prices items -> Snapshot.persistable_cart items.
Proof.
  unfold Snapshot.finite_prices, Snapshot.persistable_cart.
  induction 1 as [|item items Hx _ IH]; constructor; [now apply plain_persistable|exact IH].
Qed.

(** C4. A cart written to storage as saveCart writes it comes back the same
    in a new store instance over that storage, line item by line item and
    in the same order, when the write and the read are carried out and every
    price is a finite number other than -0 (any binary64 that is not NaN, an
    infinity or negative zero: its text, the shortest digits of
    Number::toString, is read back to the same binary64). *)
Theorem cart_persistence_round_trip :
  forall w cart,
    Snapshot.finite_prices cart ->
    App.rejects w SetItem = None ->
    App.rejects w GetItem = None ->
    let w1 := exec (saveCart cart) w in
    App.storage w1 !! CART_STORAGE_KEY = Some (JSON_stringify cart)
    /\ completion CartProvider w1 = Normal tt
    /\ App.items (exec CartProvider w1) = cart.
Proof.
  intros w cart Hp%finite_prices_persistable Hset Hget w1.
  assert (E1 : w1 = App.set_storage
                      (<[CART_STORAGE_KEY := JSON_stringify cart]> (App.storage w)) w).
  { subst w1. unfold exec. now rewrite saveCart_spec, Hset. }
  assert (Hs : App.storage w1 !! CART_STORAGE_KEY = Some (JSON_stringify cart)).
  { rewrite E1. apply lookup_insert_eq. }
  split; [exact Hs|].
  unfold completion, exec, CartProvider, mbind, Async_bind, setItems_value, spawn.
  rewrite (loadCart_snapshot cart (App.set_items [] w1) Hp);
    [now split| |exact Hs].
  rewrite E1. exact Hget.
Qed.

Lemma cart_persistence_round_trip_witness :
  App.items (exec CartProvider
                  (exec (saveCart [CartItem.mk "p1" 5 p1; CartItem.mk "p7" (-1) p1])
                        Initial.app)) =
    [CartItem.mk "p1" 5 p1; CartItem.mk "p7" (-1) p1].
Proof.
  apply (cart_persistence_round_trip
           Initial.app [CartItem.mk "p1" 5 p1; CartItem.mk "p7" (-1) p1]);
    [repeat constructor|reflexivity|reflexivity].
Defined.

Example snapshot_of_empty_cart : JSON_stringify [] = "[]".
Proof. reflexivity. Qed.

(** ** The catalog gateway *)

#[local] Instance string_le_total : Total string_le.
Proof. intros a b. apply String.leb_total. Qed.

Lemma code_units_leb_total a b :
  code_units_leb a b = true \/ code_units_leb b a = true.
Proof.
  revert b. induction a as [|x a IH]; intros [|y b]; cbn [code_units_leb]; auto.
  destruct (N.ltb_spec x y), (N.ltb_spec y x); auto.
Qed.

Lemma code_units_leb_trans a b c :
  code_units_leb a b = true -> code_units_leb b c = true -> code_units_leb a c = true.
Proof.
  revert b c. induction a as [|x a IH]; intros [|y b] [|z c]; cbn [code_units_leb];
    try easy.
  destruct (N.ltb_spec x y), (N.ltb_spec y x), (N.ltb_spec y z), (N.ltb_spec z y),
    (N.ltb_spec x z), (N.ltb_spec z x); try easy; try lia.
  apply IH.
Qed.

#[local] Instance utf16_le_total : Total utf16_le.
Proof. intros a b. apply code_units_leb_total. Qed.

#[local] Instance utf16_le_trans : Transitive utf16_le.
Proof. intros a b c. apply code_units_leb_trans. Qed.

Lemma existsb_eqb x (s : list string) : existsb (String.eqb x) s = true <-> x ∈ s.
Proof.
  rewrite existsb_exists, list_elem_of_In. split.
  - now intros (y & Hy & ->%String.eqb_eq).
  - intros H. exists x. split; [exact H|apply String.eqb_refl].
Qed.

Lemma elem_of_Set_add x y s : y ∈ Set_add x s <-> y = x \/ y ∈ s.
Proof.
  unfold Set_add. destruct (existsb (String.eqb x) s) eqn:E.
  - apply existsb_eqb in E. split; [tauto|]. now intros [->|].
  - rewrite elem_of_app, list_elem_of_singleton. tauto.
Qed.

Lemma NoDup_Set_add x s : NoDup s -> NoDup (Set_add x s).
Proof.
  intros H. unfold Set_add. destruct (existsb (String.eqb x) s) eqn:E; [exact H|].
  apply NoDup_app. repeat split; [exact H| |apply NoDup_singleton].
  intros y Hy ->%list_elem_of_singleton.
  apply existsb_eqb in Hy. congruence.
Qed.

Lemma collect_spec querySnapshot categories :
  NoDup categories ->
  NoDup (collect querySnapshot categories)
  /\ forall c, c ∈ collect querySnapshot categories <->
               c ∈ categories
               \/ (c <> "" /\ exists doc, doc ∈ querySnapshot
                                          /\ snd doc !! "category" = Some c).
Proof.
  revert categories. induction querySnapshot as [|doc docs IH]; intros categories Hnd.
  - split; [exact Hnd|]. intros c. cbn. split; [tauto|].
    intros [H|(_ & d & Hd%elem_of_nil & _)]; tauto.
  - unfold collect. cbn [fold_left].
    destruct (snd doc !! "category") as [[|a s]|] eqn:Hc.
    + destruct (IH categories Hnd) as [H1 H2]. split; [exact H1|].
      intros c. unfold collect in H2. rewrite H2. split.
      * intros [H|(Hne & d & Hd & Hdc)]; [tauto|].
        right. split; [exact Hne|]. exists d. split; [now apply list_elem_of_further|exact Hdc].
      * intros [H|(Hne & d & Hd & Hdc)]; [tauto|].
        apply elem_of_cons in Hd as [->|Hd]; [congruence|].
        right. split; [exact Hne|]. now exists d.
    + destruct (IH (Set_add (String a s) categories) (NoDup_Set_add _ _ Hnd)) as [H1 H2].
      split; [exact H1|]. intros c. unfold collect in H2. rewrite H2, elem_of_Set_add.
      split.
      * intros [[->|H]|(Hne & d & Hd & Hdc)]; [|tauto|].
        -- right. split; [easy|]. exists doc. split; [apply list_elem_of_here|exact Hc].
        -- right. split; [exact Hne|]. exists d.
           split; [now apply list_elem_of_further|exact Hdc].
      * intros [H|(Hne & d & Hd & Hdc)]; [tauto|].
        apply elem_of_cons in Hd as [->|Hd].
        -- left. left. congruence.
        -- right. split; [exact Hne|]. now exists d.
    + destruct (IH categories Hnd) as [H1 H2]. split; [exact H1|].
      intros c. unfold collect in H2. rewrite H2. split.
      * intros [H|(Hne & d & Hd & Hdc)]; [tauto|].
        right. split; [exact Hne|]. exists d. split; [now apply list_elem_of_further|exact Hdc].
      * intros [H|(Hne & d & Hd & Hdc)]; [tauto|].
        apply elem_of_cons in Hd as [->|Hd]; [congruence|].
        right. split; [exact Hne|]. now exists d.
Qed.

(** C9. When the query is answered, getCategories returns the category
    tags carried by the documents of the Products collection (the values of
    their [category] fields that are not empty), each of them once, in
    ascending order: that of [sort()], by the UTF-16 code units of the
    tags, in which every tag is at most each of those after it. *)
Theorem getCategories_distinct_sorted :
  forall w,
    App.rejects w GetDocs = None ->
    exists categories,
      getCategories w = (Normal categories, w)
      /\ (forall c, c ∈ categories <->
                    observed (default ∅ (App.firestore w !! "Products")) c)
      /\ NoDup categories
      /\ Sorted utf16_le categories
      /\ StronglySorted utf16_le categories.
Proof.
  intros w Hr.
  set (docs := default ∅ (App.firestore w !! "Products")).
  exists (Array_sort (collect (map_to_list docs) [])).
  destruct (collect_spec (map_to_list docs) [] (NoDup_nil_2)) as [Hnd Hin].
  split; [|split; [|split; [|split]]].
  - unfold getCategories, try_catch, mbind, Async_bind, getDocs. now rewrite Hr.
  - intros c. unfold Array_sort. rewrite merge_sort_Permutation, Hin. unfold observed.
    split.
    + intros [H%elem_of_nil|(Hne & [id data] & Hd%elem_of_map_to_list & Hc)]; [tauto|].
      split; [exact Hne|]. now exists id, data.
    + intros (Hne & id & data & Hd & Hc). right. split; [exact Hne|].
      exists (id, data). split; [now apply elem_of_map_to_list|exact Hc].
  - unfold Array_sort. now rewrite merge_sort_Permutation.
  - apply Sorted_merge_sort. apply _.
  - apply Sorted_StronglySorted; [apply utf16_le_trans|].
    apply Sorted_merge_sort. apply _.
Qed.

Lemma getCategories_distinct_sorted_witness :
  exists categories,
    getCategories tagged_app = (Normal categories, tagged_app)
    /\ (forall c, c ∈ categories <->
                  observed (default ∅ (App.firestore tagged_app !! "Products")) c)
    /\ NoDup categories
    /\ Sorted utf16_le categories
    /\ StronglySorted utf16_le categories.
Proof. apply (getCategories_distinct_sorted tagged_app). reflexivity. Defined.

Example getCategories_catalog_app :
  completion getCategories catalog_app = Normal ["Hand tools"; "Power tools"].
Proof. vm_compute. reflexivity. Qed.

(** The order is that of the code units, not that of the bytes: U+1F600,
    whose code units are a pair of surrogates, comes before U+FF5E, whose
    first byte is the smaller. *)
Example getCategories_code_units :
  code_units (list_ascii_of_string fullwidth_tilde) = [65374%N]
  /\ code_units (list_ascii_of_string grinning_face) = [55357%N; 56832%N]
  /\ String.leb fullwidth_tilde grinning_face = true
  /\ completion getCategories tagged_app
     = Normal ["Zips"; grinning_face; fullwidth_tilde].
Proof. repeat split; vm_compute; reflexivity. Qed.

(** ** Document references *)

Lemma split_path_plain s cur :
  existsb (Ascii.eqb "/") s = false -> split_path s cur = [(List.rev cur ++ s)%list].
Proof.
  revert cur. induction s as [|c s IH]; intros cur; cbn [existsb split_path].
  - now rewrite app_nil_r.
  - intros [Hc Hs]%orb_false_elim. rewrite Ascii.eqb_sym, Hc, (IH _ Hs).
    cbn [List.rev]. now rewrite <- app_assoc.
Qed.

Lemma double_slash_plain s : existsb (Ascii.eqb "/") s = false -> double_slash s = false.
Proof.
  induction s as [|c s IH]; [reflexivity|]. cbn [existsb double_slash].
  intros [Hc Hs]%orb_false_elim. now rewrite Ascii.eqb_sym, Hc, (IH Hs).
Qed.

Lemma segments_plain id : document_id id = true -> segments id = [id].
Proof.
  unfold document_id, segments. intros [Hne Hs]%andb_prop.
  apply negb_true_iff in Hne, Hs. rewrite (split_path_plain _ _ Hs).
  cbn [List.rev app List.filter].
  destruct (list_ascii_of_string id) as [|c s] eqn:E.
  - apply (f_equal string_of_list_ascii) in E.
    rewrite string_of_list_ascii_of_string in E. now rewrite E in Hne.
  - cbn [length Nat.eqb negb List.map]. now rewrite <- E, string_of_list_ascii_of_string.
Qed.

(** The reference of a document of a collection, both named by one
    segment. *)
Lemma doc_plain collection id w :
  document_id collection = true -> document_id id = true ->
  doc collection id w = (Normal (collection, id), w).
Proof.
  intros Hc Hi. unfold doc.
  rewrite (segments_plain _ Hc), (segments_plain _ Hi).
  unfold document_id in Hc, Hi.
  apply andb_prop in Hc as [_ Hc], Hi as [_ Hi]. apply negb_true_iff in Hc, Hi.
  rewrite (double_slash_plain _ Hc), (double_slash_plain _ Hi). reflexivity.
Qed.

(** ** The session store *)

Lemma doc_completes collection id w :
  snd (doc collection id w) = w /\ fst (doc collection id w) <> Untyped.
Proof.
  unfold doc. destruct (double_slash _ || double_slash _); [easy|].
  now destruct (Nat.even _).
Qed.

Lemma notify_spec user w :
  App.rejects w GetDoc = None ->
  match user with Some u => document_id (uid u) = true | None => True end ->
  notify user w =
  (Normal tt,
   match user with
   | Some u =>
       let w1 := App.set_reads (App.reads w ++ [("Users", uid u)])
                               (App.set_user user w) in
       App.set_loading false
         match App.firestore w !! "Users" ≫= (fun docs => docs !! uid u) with
         | Some data =>
             App.set_userRole (match data !! "role" with
                               | Some r => tag r
                               | None => undefined
                               end) w1
         | None => w1
         end
   | None => App.set_loading false (App.set_userRole null (App.set_user user w))
   end).
Proof.
  intros Hr Hid. unfold notify, spawn, onAuthStateChanged, mbind at 1 2, Async_bind,
    setUser.
  destruct user as [u|]; [|reflexivity].
  unfold mbind at 1, Async_bind.
  rewrite (doc_plain "Users" (uid u) _ eq_refl Hid). cbn [fst snd].
  unfold mbind, Async_bind, setUserRole, setLoading, getDoc. cbn. rewrite Hr.
  destruct (App.firestore w !! "Users") as [docs|]; cbn; [|reflexivity].
  now destruct (docs !! uid u).
Qed.

(** C8. A notification for an identity that has no profile document,
    received while the role of the identity before it is held: the callback
    sets the new identity, fetches its profile (one read, answered with no
    document), sets no role, and ends; the session then shows the new
    identity with the role admin of the identity before it, which is not
    none. The branch of the callback for no identity does reset the role. *)
Theorem role_of_previous_identity :
  let w := exec (notify (Some (mkUser "u1"))) session_app in
  let w' := exec (notify (Some (mkUser "u3"))) w in
  (App.user w = Some (mkUser "u1") /\ App.userRole w = tag "admin")
  /\ App.rejects w GetDoc = None
  /\ (App.firestore w !! "Users" ≫= fun docs => docs !! "u3") = None
  /\ completion (notify (Some (mkUser "u3"))) w = Normal tt
  /\ App.unhandled w' = []
  /\ App.reads w' = (App.reads w ++ [("Users", "u3")])%list
  /\ App.user w' = Some (mkUser "u3")
  /\ App.loading w' = false
  /\ App.userRole w' = tag "admin"
  /\ ~ is_none (App.userRole w')
  /\ App.userRole (exec (notify None) w) = null.
Proof.
  cbv zeta. repeat split; try (vm_compute; reflexivity).
  intros [H|H]; vm_compute in H; discriminate H.
Qed.

(** * Further properties *)

(** ** The cart store at its start *)

(** X1. With nothing stored under the key of the cart, or with the empty
    string stored there, loadCart leaves the whole state as it is: nothing
    is set, nothing is logged. *)
Theorem loadCart_nothing_stored :
  forall w,
    App.rejects w GetItem = None ->
    App.storage w !! CART_STORAGE_KEY = None
    \/ App.storage w !! CART_STORAGE_KEY = Some "" ->
    loadCart w = (Normal tt, w).
Proof.
  intros w Hr Hs. unfold loadCart, try_catch, mbind, Async_bind, AsyncStorage.getItem.
  rewrite Hr. now destruct Hs as [-> | ->].
Qed.

Lemma loadCart_nothing_stored_witness :
  loadCart Initial.app = (Normal tt, Initial.app)
  /\ loadCart (App.set_storage {[ CART_STORAGE_KEY := "" ]} Initial.app)
     = (Normal tt, App.set_storage {[ CART_STORAGE_KEY := "" ]} Initial.app).
Proof.
  split.
  - apply (loadCart_nothing_stored Initial.app); [reflexivity|now left].
  - apply (loadCart_nothing_stored (App.set_storage {[ CART_STORAGE_KEY := "" ]} Initial.app));
      [reflexivity|now right].
Defined.

(** X2. A read that is rejected, and a stored text that is not JSON, are
    swallowed by loadCart: the call completes, the error is logged once
    under 'Error loading cart:' and nothing else changes (the cart in
    memory stays what it was). *)
Theorem loadCart_failure_logged :
  forall w e,
    App.rejects w GetItem = Some e
    \/ (App.rejects w GetItem = None /\ e = Err "SyntaxError"
        /\ exists text, text <> "" /\ App.storage w !! CART_STORAGE_KEY = Some text
                        /\ JSON.parse text = None) ->
    loadCart w =
    (Normal tt, App.set_console (App.console w ++ [("Error loading cart:", e)]) w).
Proof.
  intros w e [Hr|(Hr & -> & text & Hne & Hs & Hp)];
    unfold loadCart, try_catch, mbind, Async_bind, AsyncStorage.getItem; rewrite Hr;
    [reflexivity|].
  rewrite Hs. destruct text as [|c text]; [congruence|].
  unfold JSON_parse. now rewrite Hp.
Qed.

Lemma loadCart_failure_logged_witness :
  loadCart (App.set_storage {[ CART_STORAGE_KEY := "[{" ]} Initial.app) =
  (Normal tt,
   App.set_console [("Error loading cart:", Err "SyntaxError")]
                   (App.set_storage {[ CART_STORAGE_KEY := "[{" ]} Initial.app)).
Proof.
  apply (loadCart_failure_logged
           (App.set_storage {[ CART_STORAGE_KEY := "[{" ]} Initial.app) (Err "SyntaxError")).
  right. split; [reflexivity|]. split; [reflexivity|].
  exists "[{". split; [discriminate|]. split; [reflexivity|vm_compute; reflexivity].
Defined.

(** X3. loadCart never rejects, whether or not the read succeeds, as long
    as a stored text that is JSON is the JSON of a cart: it completes, never
    writes to storage and leaves no rejected promise behind. The same holds
    of a new CartProvider. (A stored JSON text of another shape is set as
    the cart as it is, and is no [CartItem[]].) *)
Theorem loadCart_never_rejects :
  forall w,
    (forall text v,
        App.storage w !! CART_STORAGE_KEY = Some text ->
        JSON.parse text = Some v ->
        Snapshot.as_CartItems v <> None) ->
    completion loadCart w = Normal tt
    /\ App.storage (exec loadCart w) = App.storage w
    /\ App.unhandled (exec loadCart w) = App.unhandled w
    /\ completion CartProvider w = Normal tt
    /\ App.storage (exec CartProvider w) = App.storage w
    /\ App.unhandled (exec CartProvider w) = App.unhandled w.
Proof.
  assert (H : forall w,
             (forall text v,
                 App.storage w !! CART_STORAGE_KEY = Some text ->
                 JSON.parse text = Some v ->
                 Snapshot.as_CartItems v <> None) ->
             exists w', loadCart w = (Normal tt, w')
                        /\ App.storage w' = App.storage w
                        /\ App.unhandled w' = App.unhandled w).
  { intros w Hcart. unfold loadCart, try_catch, mbind, Async_bind, AsyncStorage.getItem.
    destruct (App.rejects w GetItem); [now eexists|].
    destruct (App.storage w !! CART_STORAGE_KEY) as [[|c text]|] eqn:Hs;
      [now eexists| |now eexists].
    unfold JSON_parse. destruct (JSON.parse (String c text)) as [v|] eqn:Hp; [|now eexists].
    destruct (Snapshot.as_CartItems v) eqn:Hv; [now eexists|].
    now destruct (Hcart _ _ eq_refl Hp). }
  intros w Hcart. destruct (H w Hcart) as (w1 & E1 & H2 & H3).
  unfold completion, exec. rewrite E1. cbn [fst snd].
  split; [reflexivity|]. split; [exact H2|]. split; [exact H3|].
  destruct (H (App.set_items [] w) Hcart) as (w2 & E2 & H5 & H6).
  unfold CartProvider, mbind, Async_bind, setItems_value, spawn.
  rewrite E2. cbn [fst snd]. now repeat split.
Qed.

Lemma loadCart_never_rejects_witness :
  let w := App.set_storage {[ CART_STORAGE_KEY := JSON_stringify [CartItem.mk "p1" 2 p1] ]}
                           Initial.app in
  completion loadCart w = Normal tt
  /\ App.storage (exec loadCart w) = App.storage w
  /\ App.unhandled (exec loadCart w) = App.unhandled w
  /\ completion CartProvider w = Normal tt
  /\ App.storage (exec CartProvider w) = App.storage w
  /\ App.unhandled (exec CartProvider w) = App.unhandled w.
Proof.
  cbv zeta. apply loadCart_never_rejects.
  intros text v Hs Hp. vm_compute in Hs. injection Hs as <-.
  vm_compute in Hp. injection Hp as <-. vm_compute. discriminate.
Defined.

(** ** Removing and updating *)

Lemma totalItems_from (l : list CartItem.t) (a : Z) :
  fold_left (fun sum item => sum + CartItem.quantity item) l a = a + totalItems l.
Proof.
  unfold totalItems. revert a. induction l as [|x l IH]; intros a; cbn [fold_left]; [lia|].
  rewrite (IH (a + CartItem.quantity x)), (IH (0 + CartItem.quantity x)). lia.
Qed.

Lemma totalItems_cons item l : totalItems (item :: l) = CartItem.quantity item + totalItems l.
Proof. unfold totalItems at 1. cbn [fold_left]. rewrite totalItems_from. lia. Qed.

Lemma totalItems_app l1 l2 : totalItems (l1 ++ l2) = totalItems l1 + totalItems l2.
Proof.
  induction l1 as [|x l1 IH]; [reflexivity|].
  cbn [app]. rewrite !totalItems_cons, IH. lia.
Qed.

Lemma removeFromCart_items_absent productId l :
  productId ∉ productIds l -> removeFromCart_items productId l = l.
Proof.
  unfold removeFromCart_items, productIds.
  induction l as [|x l IH]; [reflexivity|]. cbn [List.map List.filter].
  intros [Hx Hl]%not_elem_of_cons.
  destruct (String.eqb_spec (CartItem.productId x) productId) as [E|_]; [congruence|].
  cbn [negb]. now rewrite IH.
Qed.

Lemma saveCart_storage cartItems w :
  App.rejects w SetItem = None ->
  App.storage (exec (saveCart cartItems) w) =
  <[CART_STORAGE_KEY := JSON_stringify cartItems]> (App.storage w).
Proof. intros Hr. unfold exec. now rewrite saveCart_spec, Hr. Qed.

(** X4. removeFromCart of a product that has no line item changes nothing in
    memory and is no error; the snapshot is written all the same. *)
Theorem removeFromCart_absent :
  forall w productId,
    productId ∉ productIds (App.items w) ->
    let w' := exec (removeFromCart productId) w in
    completion (removeFromCart productId) w = Normal tt
    /\ App.items w' = App.items w
    /\ (App.rejects w SetItem = None ->
        App.storage w' = <[CART_STORAGE_KEY := JSON_stringify (App.items w)]> (App.storage w)).
Proof.
  intros w productId Hin w'. subst w'. unfold completion, exec.
  rewrite removeFromCart_spec. cbn [fst snd].
  rewrite (removeFromCart_items_absent _ _ Hin).
  split; [reflexivity|]. split; [reflexivity|]. intros Hr. cbn. now apply saveCart_storage.
Qed.

Lemma removeFromCart_absent_witness :
  App.items (exec (removeFromCart "p9") (exec (addToCart p1 2) Initial.app))
  = App.items (exec (addToCart p1 2) Initial.app).
Proof.
  apply (removeFromCart_absent (exec (addToCart p1 2) Initial.app) "p9").
  vm_compute. intros H. apply list_elem_of_In in H. cbn in H. intuition discriminate.
Defined.

(** X5. After removeFromCart the product has no line item; the other line
    items are all kept, in their order; removing once more changes nothing;
    and, over carts of safe quantities and safe sums, totalItems falls by
    the quantities of the lines removed, in the integers and in the
    binary64 sums of the code. *)
Theorem removeFromCart_removes :
  forall w productId,
    let items' := App.items (exec (removeFromCart productId) w) in
    (productId ∉ productIds items')
    /\ items' = List.filter (fun item => negb (String.eqb (CartItem.productId item) productId))
                            (App.items w)
    /\ App.items (exec (removeFromCart productId) (exec (removeFromCart productId) w)) = items'
    /\ (safe_quantities (App.items w) = true ->
        safe_quantities items' = true ->
        safe_quantities (lines_of productId (App.items w)) = true ->
        totalItems (App.items w)
        = totalItems items' + totalItems (lines_of productId (App.items w))
        /\ totalItems_number (App.items w)
           = (totalItems_number items'
              + totalItems_number (lines_of productId (App.items w)))%float).
Proof.
  intros w productId items'. subst items'. unfold exec. rewrite !removeFromCart_spec.
  cbn [fst snd App.items App.set_items]. unfold removeFromCart_items.
  assert (Hout : productId ∉ productIds
                   (List.filter (fun item => negb (String.eqb (CartItem.productId item) productId))
                                (App.items w))).
  { unfold productIds. rewrite list_elem_of_In, in_map_iff.
    intros (x & E & [_ Hx]%filter_In). rewrite E, String.eqb_refl in Hx. discriminate. }
  split; [exact Hout|]. split; [reflexivity|].
  split; [apply (removeFromCart_items_absent _ _ Hout)|].
  assert (Hz : totalItems (App.items w)
               = totalItems (List.filter
                               (fun item => negb (String.eqb (CartItem.productId item) productId))
                               (App.items w))
                 + totalItems (lines_of productId (App.items w))).
  { unfold lines_of. clear Hout.
    induction (App.items w) as [|x l IH]; [reflexivity|]. cbn [List.filter].
    destruct (String.eqb (CartItem.productId x) productId); cbn [negb];
      rewrite !totalItems_cons; lia. }
  intros H0 H1 H2. split; [exact Hz|].
  destruct (totalItems_number_safe _ H0) as [E0 S0].
  destruct (totalItems_number_safe _ H1) as [E1 S1].
  destruct (totalItems_number_safe _ H2) as [E2 S2].
  rewrite E0, E1, E2, Hz. symmetry. apply number_add_safe; [exact S1|exact S2|].
  now rewrite <- Hz.
Qed.

Example totalItems_after_removal :
  totalItems_number [CartItem.mk "p1" 2 p1; CartItem.mk "p7" 3 catalog_before] = 5%float
  /\ totalItems_number
       (App.items (exec (removeFromCart "p1")
                        (App.set_items [CartItem.mk "p1" 2 p1;
                                        CartItem.mk "p7" 3 catalog_before] Initial.app)))
     = 3%float.
Proof. split; vm_compute; reflexivity. Qed.

Lemma updateQuantity_items_absent productId quantity l :
  productId ∉ productIds l -> updateQuantity_items productId quantity l = l.
Proof.
  intros Hin. unfold updateQuantity_items.
  destruct (quantity <? 1); [now apply removeFromCart_items_absent|].
  unfold productIds in Hin. induction l as [|x l IH]; [reflexivity|].
  cbn [List.map] in *. apply not_elem_of_cons in Hin as [Hx Hl].
  destruct (String.eqb_spec (CartItem.productId x) productId) as [E|_]; [congruence|].
  now rewrite IH.
Qed.

(** X6. updateQuantity with a quantity of at least 1 keeps the line items
    and their order, sets the quantity of the line items of the product and
    touches nothing else: not their snapshots, not the other lines. For a
    product without line item it changes nothing and is no error. *)
Theorem updateQuantity_sets :
  forall w productId quantity,
    1 <= quantity ->
    let items' := App.items (exec (updateQuantity productId quantity) w) in
    completion (updateQuantity productId quantity) w = Normal tt
    /\ productIds items' = productIds (App.items w)
    /\ List.map CartItem.product items' = List.map CartItem.product (App.items w)
    /\ (forall i item,
           App.items w !! i = Some item ->
           items' !! i =
           Some (if String.eqb (CartItem.productId item) productId
                 then CartItem.mk (CartItem.productId item) quantity (CartItem.product item)
                 else item))
    /\ (productId ∉ productIds (App.items w) -> items' = App.items w).
Proof.
  intros w productId quantity Hq items'. subst items'. unfold completion, exec.
  rewrite updateQuantity_spec. cbn [fst snd App.items App.set_items].
  split; [reflexivity|]. split; [|split; [|split]].
  - unfold updateQuantity_items. destruct (Z.ltb_spec quantity 1); [lia|].
    apply productIds_map. intros item. now destruct (String.eqb _ _).
  - unfold updateQuantity_items. destruct (Z.ltb_spec quantity 1); [lia|].
    rewrite List.map_map. apply List.map_ext. intros item. now destruct (String.eqb _ _).
  - intros i item Hi. unfold updateQuantity_items. destruct (Z.ltb_spec quantity 1); [lia|].
    now rewrite lookup_map, Hi.
  - apply updateQuantity_items_absent.
Qed.

Lemma updateQuantity_sets_witness :
  App.items (exec (updateQuantity "p1" 7) (exec (addToCart p1 2) Initial.app)) !! 0%nat
  = Some (CartItem.mk "p1" 7 p1)
  /\ App.items (exec (updateQuantity "p9" 7) (exec (addToCart p1 2) Initial.app))
     = [CartItem.mk "p1" 2 p1].
Proof.
  split.
  - pose proof (updateQuantity_sets (exec (addToCart p1 2) Initial.app) "p1" 7 ltac:(lia))
      as (_ & _ & _ & H & _).
    exact (H 0%nat (CartItem.mk "p1" 2 p1) eq_refl).
  - pose proof (updateQuantity_sets (exec (addToCart p1 2) Initial.app) "p9" 7 ltac:(lia))
      as (_ & _ & _ & _ & H).
    apply H. vm_compute. intros Hin. apply list_elem_of_In in Hin. cbn in Hin.
    intuition discriminate.
Defined.

Lemma updateQuantity_accepted productId quantity w :
  App.rejects w SetItem = None ->
  exec (updateQuantity productId quantity) w =
  let next := updateQuantity_items productId quantity (App.items w) in
  App.set_items next
    (App.set_storage (<[CART_STORAGE_KEY := JSON_stringify next]> (App.storage w)) w).
Proof.
  intros Hr. unfold exec at 1. rewrite updateQuantity_spec. cbn [snd].
  unfold exec. now rewrite saveCart_spec, Hr.
Qed.

(** X7. Of two calls of updateQuantity for one product, each with a quantity
    of at least 1, the later one stands: when the writes are carried out the
    state after both is the state after the second alone, in memory and in
    storage. *)
Theorem updateQuantity_last_wins :
  forall w productId q1 q2,
    1 <= q1 -> 1 <= q2 ->
    App.rejects w SetItem = None ->
    exec (updateQuantity productId q2) (exec (updateQuantity productId q1) w)
    = exec (updateQuantity productId q2) w.
Proof.
  intros w productId q1 q2 H1 H2 Hr.
  rewrite (updateQuantity_accepted productId q1 w Hr).
  rewrite !updateQuantity_accepted by exact Hr. cbn.
  assert (E : updateQuantity_items productId q2
                (updateQuantity_items productId q1 (App.items w))
              = updateQuantity_items productId q2 (App.items w)).
  { unfold updateQuantity_items.
    destruct (Z.ltb_spec q1 1); [lia|]. destruct (Z.ltb_spec q2 1); [lia|].
    rewrite List.map_map. apply List.map_ext. intros item.
    destruct (String.eqb (CartItem.productId item) productId) eqn:E; cbn; now rewrite E. }
  now rewrite E, insert_insert_eq.
Qed.

Lemma updateQuantity_last_wins_witness :
  exec (updateQuantity "p1" 3) (exec (updateQuantity "p1" 8) (exec (addToCart p1 2) Initial.app))
  = exec (updateQuantity "p1" 3) (exec (addToCart p1 2) Initial.app).
Proof.
  apply (updateQuantity_last_wins (exec (addToCart p1 2) Initial.app) "p1" 8 3);
    [lia|lia|reflexivity].
Defined.

(** ** Totals *)

Lemma totalItems_increment product quantity l :
  NoDup (productIds l) ->
  Product.id product ∈ productIds l ->
  totalItems
    (List.map (fun item =>
                 if String.eqb (CartItem.productId item) (Product.id product)
                 then CartItem.mk (CartItem.productId item)
                                  (CartItem.quantity item + quantity)
                                  (CartItem.product item)
                 else item) l)
  = totalItems l + quantity.
Proof.
  unfold productIds. induction l as [|x l IH]; cbn [List.map].
  - intros _ H%elem_of_nil. tauto.
  - intros [Hx Hl]%NoDup_cons Hin. rewrite !totalItems_cons.
    destruct (String.eqb_spec (CartItem.productId x) (Product.id product)) as [E|N].
    + cbn [CartItem.quantity]. rewrite E in Hx.
      fold (productIds l) in Hx.
      assert (Hmap : List.map
                       (fun item =>
                          if String.eqb (CartItem.productId item) (Product.id product)
                          then CartItem.mk (CartItem.productId item)
                                           (CartItem.quantity item + quantity)
                                           (CartItem.product item)
                          else item) l = l).
      { clear -Hx. unfold productIds in Hx. induction l as [|y l IH]; [reflexivity|].
        cbn [List.map] in *. apply not_elem_of_cons in Hx as [Hy Hl].
        destruct (String.eqb_spec (CartItem.productId y) (Product.id product)) as [E|_];
          [congruence|]. now rewrite IH. }
      rewrite Hmap. lia.
    + apply elem_of_cons in Hin as [E|Hin]; [congruence|].
      rewrite (IH Hl Hin). lia.
Qed.

(** X8. In a cart that holds at most one line item per product, addToCart
    raises totalItems by exactly the quantity passed, whether the product
    had a line item or gets a new one, as long as the quantity passed, the
    quantities of the cart before and after and the sums of totalItems over
    them are safe integers; the binary64 sum of the code is then raised by
    the same. *)
Theorem addToCart_totalItems :
  forall w product quantity,
    NoDup (productIds (App.items w)) ->
    isSafeInteger quantity = true ->
    safe_quantities (App.items w) = true ->
    safe_quantities (App.items (exec (addToCart product quantity) w)) = true ->
    totalItems (App.items (exec (addToCart product quantity) w))
    = totalItems (App.items w) + quantity
    /\ totalItems_number (App.items (exec (addToCart product quantity) w))
       = (totalItems_number (App.items w) + number_of_Z quantity)%float.
Proof.
  intros w product quantity Hnd Hq H0 H1.
  assert (Hz : totalItems (App.items (exec (addToCart product quantity) w))
               = totalItems (App.items w) + quantity).
  { unfold exec. rewrite addToCart_spec.
    cbn [snd App.items App.set_items]. unfold addToCart_items.
    destruct (List.find _ (App.items w)) eqn:Hfind.
    - apply totalItems_increment; [exact Hnd|].
      apply list_elem_of_In. unfold productIds. apply in_map_iff.
      apply find_some in Hfind as [Hi E%String.eqb_eq]. eexists. split; [exact E|exact Hi].
    - rewrite totalItems_app. reflexivity. }
  split; [exact Hz|].
  destruct (totalItems_number_safe _ H0) as [E0 S0].
  destruct (totalItems_number_safe _ H1) as [E1 S1].
  rewrite E0, E1, Hz. symmetry. apply number_add_safe; [exact S0|exact Hq|].
  now rewrite <- Hz.
Qed.

Lemma addToCart_totalItems_witness :
  totalItems (App.items (exec (addToCart p1 3) (exec (addToCart p1 2) Initial.app)))
  = totalItems (App.items (exec (addToCart p1 2) Initial.app)) + 3
  /\ totalItems_number (App.items (exec (addToCart p1 3) (exec (addToCart p1 2) Initial.app)))
     = (totalItems_number (App.items (exec (addToCart p1 2) Initial.app))
        + number_of_Z 3)%float.
Proof.
  apply (addToCart_totalItems (exec (addToCart p1 2) Initial.app) p1 3);
    [vm_compute; apply NoDup_singleton|reflexivity..].
Defined.

(** X9. Adding a product that has no line item raises totalPrice by the
    price of the product times the quantity: the new total is the binary64
    sum of the old total and that product. *)
Theorem addToCart_new_totalPrice :
  forall w product quantity,
    Product.id product ∉ productIds (App.items w) ->
    totalPrice (App.items (exec (addToCart product quantity) w))
    = (totalPrice (App.items w) + Product.price product * number_of_Z quantity)%float.
Proof.
  intros w product quantity Hin. unfold exec. rewrite addToCart_spec.
  cbn [snd App.items App.set_items]. unfold addToCart_items.
  destruct (List.find _ (App.items w)) eqn:Hfind.
  - exfalso. apply Hin, list_elem_of_In. unfold productIds. apply in_map_iff.
    apply find_some in Hfind as [Hi E%String.eqb_eq]. eexists. split; [exact E|exact Hi].
  - unfold totalPrice. now rewrite fold_left_app.
Qed.

Lemma addToCart_new_totalPrice_witness :
  totalPrice (App.items (exec (addToCart catalog_before 3)
                              (exec (addToCart p1 2) Initial.app)))
  = (totalPrice (App.items (exec (addToCart p1 2) Initial.app))
     + 10 * number_of_Z 3)%float.
Proof.
  apply (addToCart_new_totalPrice (exec (addToCart p1 2) Initial.app) catalog_before 3).
  vm_compute. intros Hin. apply list_elem_of_In in Hin. cbn in Hin. intuition discriminate.
Defined.

(** ** The snapshot and the cart in memory *)

Lemma CartProvider_snapshot cart w :
  Snapshot.persistable_cart cart ->
  App.rejects w GetItem = None ->
  App.storage w !! CART_STORAGE_KEY = Some (JSON_stringify cart) ->
  completion CartProvider w = Normal tt /\ App.items (exec CartProvider w) = cart.
Proof.
  intros Hp Hg Hs.
  unfold completion, exec, CartProvider, mbind, Async_bind, setItems_value, spawn.
  now rewrite (loadCart_snapshot cart (App.set_items [] w) Hp Hg Hs).
Qed.

(** X10. clearCart does not catch a rejected removal: the call rejects with
    the error of the storage, after the cart in memory has been emptied, and
    the snapshot stays where it was, so that a new store instance over that
    storage holds the cart again. *)
Theorem clearCart_rejected :
  forall w e cart,
    App.rejects w RemoveItem = Some e ->
    App.rejects w GetItem = None ->
    App.storage w !! CART_STORAGE_KEY = Some (JSON_stringify cart) ->
    Snapshot.finite_prices cart ->
    clearCart w = (Throw e, App.set_items [] w)
    /\ App.items (exec clearCart w) = []
    /\ App.storage (exec clearCart w) = App.storage w
    /\ App.items (exec CartProvider (exec clearCart w)) = cart.
Proof.
  intros w e cart Hrm Hget Hs Hp%finite_prices_persistable.
  assert (E : clearCart w = (Throw e, App.set_items [] w)).
  { unfold clearCart, mbind, Async_bind, setItems_value, AsyncStorage.removeItem.
    cbn. now rewrite Hrm. }
  assert (Ew : exec clearCart w = App.set_items [] w) by (unfold exec; now rewrite E).
  rewrite Ew. split; [exact E|]. split; [reflexivity|]. split; [reflexivity|].
  now apply CartProvider_snapshot.
Qed.

Lemma clearCart_rejected_witness :
  clearCart (stuck_storage (Err "read-only") [CartItem.mk "p1" 2 p1])
  = (Throw (Err "read-only"),
     App.set_items [] (stuck_storage (Err "read-only") [CartItem.mk "p1" 2 p1]))
  /\ App.items (exec CartProvider
                     (exec clearCart (stuck_storage (Err "read-only")
                                                    [CartItem.mk "p1" 2 p1])))
     = [CartItem.mk "p1" 2 p1].
Proof.
  split;
    apply (clearCart_rejected (stuck_storage (Err "read-only") [CartItem.mk "p1" 2 p1])
                              (Err "read-only") [CartItem.mk "p1" 2 p1]);
    first [reflexivity | repeat constructor].
Defined.







Lemma Forall_filter_keeps {A} (P : A -> Prop) (f : A -> bool) l :
  Forall P l -> Forall P (List.filter f l).
Proof.
  induction 1 as [|x l Hx _ IH]; cbn [List.filter]; [constructor|].
  destruct (f x); [now constructor|exact IH].
Qed.

(** X12. Quantities stay positive: from a cart whose quantities are all at
    least 1, intents whose addToCart calls pass a quantity of at least 1
    lead to a cart whose quantities are all at least 1 (updateQuantity with
    a smaller quantity removes the line instead of storing it). *)
Theorem quantities_stay_positive :
  forall w intents,
    positive_quantities (App.items w) ->
    Forall adds_positive intents ->
    positive_quantities (App.items (run intents w)).
Proof.
  intros w intents Hw Hi. rewrite run_items. revert Hw. generalize (App.items w).
  induction Hi as [|i intents Hq _ IH]; intros l Hl; [exact Hl|].
  cbn [fold_left]. apply IH. unfold positive_quantities in *.
  destruct i as [p q|pid|pid q|]; cbn [step_items adds_positive] in *.
  - unfold addToCart_items. destruct (List.find _ l).
    + apply List.Forall_map. eapply List.Forall_impl; [|exact Hl].
      intros item Hitem. destruct (String.eqb _ _); cbn in *; lia.
    + apply List.Forall_app. split; [exact Hl|]. repeat constructor. exact Hq.
  - unfold removeFromCart_items. now apply Forall_filter_keeps.
  - unfold updateQuantity_items, removeFromCart_items.
    destruct (Z.ltb_spec q 1); [now apply Forall_filter_keeps|].
    apply List.Forall_map. eapply List.Forall_impl; [|exact Hl].
    intros item Hitem. destruct (String.eqb _ _); cbn in *; lia.
  - constructor.
Qed.

Lemma quantities_stay_positive_witness :
  positive_quantities
    (App.items (run [AddToCart p1 2; UpdateQuantity "p1" 0; AddToCart p1 1] Initial.app)).
Proof.
  apply (quantities_stay_positive Initial.app
           [AddToCart p1 2; UpdateQuantity "p1" 0; AddToCart p1 1]).
  - constructor.
  - repeat constructor; cbn; lia.
Defined.

Lemma removeFromCart_items_addToCart_items product quantity l :
  removeFromCart_items (Product.id product) (addToCart_items product quantity l)
  = removeFromCart_items (Product.id product) l.
Proof.
  unfold removeFromCart_items, addToCart_items.
  destruct (List.find _ l).
  - induction l as [|x l IH]; [reflexivity|]. cbn [List.map List.filter].
    destruct (String.eqb (CartItem.productId x) (Product.id product)) eqn:E;
      cbn [CartItem.productId]; rewrite E; cbn [negb]; now rewrite IH.
  - rewrite List.filter_app. cbn [List.filter CartItem.productId].
    rewrite String.eqb_refl. cbn [negb]. apply app_nil_r.
Qed.

(** X13. removeFromCart undoes addToCart: adding a product and then
    removing it leaves the cart that removing it alone leaves, which is the
    cart before the two calls when the product had no line item. *)
Theorem addToCart_then_removeFromCart :
  forall w product quantity,
    let w' := exec (removeFromCart (Product.id product)) (exec (addToCart product quantity) w) in
    App.items w' = App.items (exec (removeFromCart (Product.id product)) w)
    /\ (Product.id product ∉ productIds (App.items w) -> App.items w' = App.items w).
Proof.
  intros w product quantity w'. subst w'. unfold exec.
  rewrite !removeFromCart_spec, addToCart_spec. cbn [snd App.items App.set_items].
  rewrite removeFromCart_items_addToCart_items. split; [reflexivity|].
  apply removeFromCart_items_absent.
Qed.

(** ** The product card *)

Lemma press_enabled product w :
  Product.stock product <> 0 ->
  ProductCard.press product w = (Normal tt, exec (addToCart product 1) w).
Proof.
  intros Hs. unfold ProductCard.press, ProductCard.render, ProductCard.disabled.
  destruct (Z.eqb_spec (Product.stock product) 0) as [E|_]; [contradiction|].
  unfold ProductCard.handleAddToCart, spawn, exec. now rewrite addToCart_spec.
Qed.

Lemma presses_succ n product w :
  ProductCard.presses (S n) product w
  = exec (ProductCard.press product) (ProductCard.presses n product w).
Proof. reflexivity. Qed.

Lemma map_other_product (f : CartItem.t -> CartItem.t) productId l :
  productId ∉ productIds l ->
  List.map (fun item => if String.eqb (CartItem.productId item) productId
                        then f item else item) l = l.
Proof.
  unfold productIds. induction l as [|y l IH]; [reflexivity|].
  cbn [List.map]. intros [Hy Hl]%not_elem_of_cons.
  destruct (String.eqb_spec (CartItem.productId y) productId) as [E|_]; [congruence|].
  now rewrite IH.
Qed.

Lemma find_absent productId l :
  productId ∉ productIds l ->
  List.find (fun item => String.eqb (CartItem.productId item) productId) l = None.
Proof.
  intros Hin. destruct (List.find _ l) eqn:Hfind; [|reflexivity].
  exfalso. apply Hin, list_elem_of_In. unfold productIds. apply in_map_iff.
  apply find_some in Hfind as [Hi E%String.eqb_eq]. eexists. split; [exact E|exact Hi].
Qed.

Lemma find_app_none {A} (f : A -> bool) l r :
  List.find f l = None -> List.find f (l ++ r) = List.find f r.
Proof.
  induction l as [|x l IH]; [reflexivity|]. cbn [List.find app].
  destruct (f x); [discriminate|exact IH].
Qed.

Lemma presses_items n product w :
  Product.stock product <> 0 ->
  Product.id product ∉ productIds (App.items w) ->
  App.items (ProductCard.presses (S n) product w)
  = (App.items w ++ [CartItem.mk (Product.id product) (Z.of_nat (S n)) product])%list.
Proof.
  intros Hs Hin. induction n as [|n IH].
  - rewrite presses_succ. unfold exec at 1.
    rewrite (press_enabled _ _ Hs). cbn [snd]. unfold exec. rewrite addToCart_spec.
    cbn [snd App.items App.set_items ProductCard.presses Nat.iter nat_rect].
    unfold addToCart_items. now rewrite (find_absent _ _ Hin).
  - rewrite presses_succ. unfold exec at 1.
    rewrite (press_enabled _ _ Hs). cbn [snd]. unfold exec at 1. rewrite addToCart_spec.
    cbn [snd App.items App.set_items]. rewrite IH. unfold addToCart_items.
    rewrite (find_app_none _ _ _ (find_absent _ _ Hin)).
    cbn [List.find CartItem.productId]. rewrite String.eqb_refl.
    rewrite List.map_app. cbn [List.map CartItem.productId CartItem.quantity CartItem.product].
    rewrite String.eqb_refl. f_equal.
    + now apply (map_other_product
                   (fun item => CartItem.mk (CartItem.productId item)
                                            (CartItem.quantity item + 1)
                                            (CartItem.product item))).
    + do 2 f_equal. lia.
Qed.

(** X14. The button of the card adds one unit at each press and never looks
    at the stock beyond its being zero: on a card whose stock is not 0, any
    number of presses, even more than the stock, leaves one line item of
    the product with that number as its quantity. With a stock of 0 the
    button is disabled and a press changes nothing. *)
Theorem ProductCard_presses :
  forall w product n,
    Product.id product ∉ productIds (App.items w) ->
    App.items (ProductCard.presses (S n) product w)
    = if Product.stock product =? 0 then App.items w
      else (App.items w ++ [CartItem.mk (Product.id product) (Z.of_nat (S n)) product])%list.
Proof.
  intros w product n Hin.
  destruct (Z.eqb_spec (Product.stock product) 0) as [E|N]; [|now apply presses_items].
  assert (H : forall k, ProductCard.presses k product w = w).
  { induction k as [|k IH]; [reflexivity|]. rewrite presses_succ, IH.
    unfold exec, ProductCard.press, ProductCard.render, ProductCard.disabled.
    now rewrite E. }
  now rewrite H.
Qed.

Lemma ProductCard_presses_witness :
  App.items (ProductCard.presses 6 p1 Initial.app) = [CartItem.mk "p1" 6 p1].
Proof.
  apply (ProductCard_presses Initial.app p1 5%nat).
  cbn. intros H. apply elem_of_nil in H. exact H.
Defined.


Lemma fixed_text_cents n :
  0 <= n ->
  exists units cents,
    fixed_text 2 n = (units ++ "."%char :: cents)%list
    /\ units <> [] /\ length cents = 2%nat
    /\ forallb Number.is_digit units = true /\ forallb Number.is_digit cents = true
    /\ Number.natural (units ++ cents) = n.
Proof.
  intros Hn. unfold fixed_text.
  set (m := if n =? 0 then ["0"%char] else Number.decimal_digits n).
  assert (Hm : forallb Number.is_digit m = true /\ Number.natural m = n
               /\ (1 <= length m)%nat).
  { subst m. destruct (Z.eqb_spec n 0) as [->|Hne]; [repeat split; cbn; lia|].
    destruct (decimal_digits_spec n ltac:(lia)) as (Hd & Hv & c & r & E & _).
    repeat split; [exact Hd|exact Hv|]. rewrite E. cbn [length]. lia. }
  destruct Hm as (Hd & Hv & Hl). cbn [Z.eqb].
  set (k := Z.of_nat (length m)).
  set (m' := if k <=? 2 then (Number.zeros (2 + 1 - k) ++ m)%list else m).
  set (k' := if k <=? 2 then 2 + 1 else k).
  assert (Hm' : forallb Number.is_digit m' = true /\ Number.natural m' = n
                /\ Z.of_nat (length m') = k' /\ 3 <= k').
  { subst m' k'. destruct (Z.leb_spec k 2).
    - rewrite forallb_app, digits_zeros, Hd, natural_app, natural_zeros, Hv, length_app,
        Nat2Z.inj_add, length_zeros by lia. fold k. repeat split; lia.
    - repeat split; [exact Hd|exact Hv|lia]. }
  destruct Hm' as (Hd' & Hv' & Hl' & Hk').
  exists (take (Z.to_nat (k' - 2)) m'), (drop (Z.to_nat (k' - 2)) m').
  destruct (forallb_take_drop Number.is_digit (Z.to_nat (k' - 2)) m' Hd') as [Ht Hdr].
  split; [reflexivity|]. split; [|split; [|split; [exact Ht|split; [exact Hdr|]]]].
  - intros E. apply (f_equal (@length _)) in E. rewrite length_take in E. cbn in E. lia.
  - rewrite length_drop. lia.
  - now rewrite take_drop.
Qed.

(** X16. The price text of the card, for a positive price below 10^21, is
    the dollar sign, digits, a point and two digits, and the amount it
    shows is the price rounded to the nearest cent: it differs from the
    price by at most half a cent. *)
Theorem ProductCard_price_text :
  forall product m e,
    Prim2SF (Product.price product) = S754_finite false m e ->
    Number.numerator m e < 10 ^ 21 * Number.denominator e ->
    exists units cents,
      ProductCard.price (ProductCard.render product)
      = "$" ++ string_of_list_ascii (units ++ "."%char :: cents)
      /\ units <> [] /\ length cents = 2%nat
      /\ forallb Number.is_digit units = true /\ forallb Number.is_digit cents = true
      /\ 2 * Z.abs (100 * Number.numerator m e
                    - Number.natural (units ++ cents) * Number.denominator e)
         <= Number.denominator e.
Proof.
  intros product m e Hx Hlt.
  set (num := Number.numerator m e) in *. set (den := Number.denominator e) in *.
  assert (Hden : 0 < den).
  { subst den. unfold Number.denominator. destruct (Z.leb_spec 0 e); [lia|].
    apply Z.pow_pos_nonneg; lia. }
  assert (Hnum : 0 < num).
  { subst num. unfold Number.numerator. destruct (Z.leb_spec 0 e); [|lia].
    apply Z.mul_pos_pos; [lia|]. apply Z.pow_pos_nonneg; lia. }
  set (n := (2 * num * 10 ^ 2 + den) / (2 * den)).
  assert (Hn : 0 <= n) by (subst n; apply Z.div_pos; lia).
  destruct (fixed_text_cents n Hn) as (units & cents & E & H1 & H2 & H3 & H4 & H5).
  exists units, cents. split; [|split; [exact H1|split; [exact H2|split;
                                 [exact H3|split; [exact H4|]]]]].
  - unfold ProductCard.render, ProductCard.price, toFixed. rewrite Hx.
    fold num den. destruct (Z.leb_spec (10 ^ 21 * den) num); [lia|].
    fold n. now rewrite E.
  - rewrite H5.
    pose proof (Z.mul_div_le (2 * num * 10 ^ 2 + den) (2 * den) ltac:(lia)) as Hlo.
    pose proof (Z.mul_succ_div_gt (2 * num * 10 ^ 2 + den) (2 * den) ltac:(lia)) as Hhi.
    fold n in Hlo, Hhi. change (10 ^ 2) with 100 in *. lia.
Qed.

Lemma ProductCard_price_text_witness :
  exists units cents,
    ProductCard.price (ProductCard.render p1)
    = "$" ++ string_of_list_ascii (units ++ "."%char :: cents)
    /\ units <> [] /\ length cents = 2%nat
    /\ forallb Number.is_digit units = true /\ forallb Number.is_digit cents = true
    /\ 2 * Z.abs (100 * Number.numerator 5623870034678907 (-49)
                  - Number.natural (units ++ cents) * Number.denominator (-49))
       <= Number.denominator (-49).
Proof.
  apply (ProductCard_price_text p1 5623870034678907 (-49)); [reflexivity|].
  vm_compute. reflexivity.
Defined.

Example ProductCard_price_examples :
  List.map (fun x => string_of_list_ascii (toFixed 2 x))
           [9.99; 1.005; 10; 0; 0.125; 1e21]%float
  = ["9.99"; "1.00"; "10.00"; "0.00"; "0.13"; "1e+21"].
Proof. vm_compute. reflexivity. Qed.

(** ** The session intents *)

Lemma signUp_spec firebase email password name w :
  signUp firebase email password name w =
  match Firebase.createUserWithEmailAndPassword firebase email password with
  | inl e => (Throw e, w)
  | inr u =>
      match doc "Users" (uid u) w with
      | (Normal docRef, _) =>
          match Firebase.setDoc firebase with
          | Some e => (Throw e, w)
          | None =>
              (Normal tt,
               set_firestore
                 (<[fst docRef := <[snd docRef := profile firebase name email]>
                                    (default ∅ (App.firestore w !! fst docRef))]>
                    (App.firestore w)) w)
          end
      | (Throw e, _) => (Throw e, w)
      | (Untyped, _) => (Untyped, w)
      end
  end.
Proof.
  unfold signUp, try_catch, mbind, Async_bind, await, throw, setDoc.
  destruct (Firebase.createUserWithEmailAndPassword firebase email password) as [e|u];
    [reflexivity|].
  unfold doc.
  destruct (double_slash _ || double_slash _); [reflexivity|].
  destruct (Nat.even _); [|reflexivity].
  now destruct (Firebase.setDoc firebase).
Qed.

(** X17. A sign-up that the provider and the store carry out writes the
    profile document of the new identity, with the role mechanic, and
    nothing else: it replaces whatever profile was there, leaves every other
    document alone and does not touch the session. A notification for the
    identity that comes after it sets the role to mechanic. *)
Theorem signUp_writes_profile :
  forall firebase w email password name u,
    Firebase.createUserWithEmailAndPassword firebase email password = inr u ->
    document_id (uid u) = true ->
    Firebase.setDoc firebase = None ->
    let w' := exec (signUp firebase email password name) w in
    completion (signUp firebase email password name) w = Normal tt
    /\ (App.firestore w' !! "Users" ≫= fun docs => docs !! uid u)
       = Some (profile firebase name email)
    /\ profile firebase name email !! "role" = Some "mechanic"
    /\ (forall collection id,
           (collection, id) <> ("Users", uid u) ->
           (App.firestore w' !! collection ≫= fun docs => docs !! id)
           = (App.firestore w !! collection ≫= fun docs => docs !! id))
    /\ App.user w' = App.user w
    /\ App.userRole w' = App.userRole w
    /\ (App.rejects w GetDoc = None ->
        App.userRole (exec (notify (Some u)) w') = tag "mechanic").
Proof.
  intros firebase w email password name u Hc Hid Hs w'.
  set (fs := <["Users" := <[uid u := profile firebase name email]>
                            (default ∅ (App.firestore w !! "Users"))]> (App.firestore w)).
  assert (E : signUp firebase email password name w = (Normal tt, set_firestore fs w)).
  { now rewrite signUp_spec, Hc, (doc_plain "Users" (uid u) w eq_refl Hid), Hs. }
  assert (Ew : w' = set_firestore fs w) by (subst w'; unfold exec; now rewrite E).
  rewrite Ew. unfold completion. rewrite E. cbn [fst].
  assert (Hl : (fs !! "Users" ≫= fun docs => docs !! uid u)
               = Some (profile firebase name email)).
  { subst fs. rewrite lookup_insert_eq. cbn. apply lookup_insert_eq. }
  split; [reflexivity|]. split; [exact Hl|]. split; [reflexivity|].
  split; [|split; [reflexivity|split; [reflexivity|]]].
  - intros collection id Hne. subst fs. cbn [App.firestore set_firestore].
    destruct (decide (collection = "Users")) as [->|Hcol].
    + rewrite lookup_insert_eq. cbn.
      rewrite lookup_insert_ne by congruence.
      now destruct (App.firestore w !! "Users").
    + now rewrite lookup_insert_ne by congruence.
  - intros Hg. unfold exec. rewrite (notify_spec (Some u)) by assumption. cbn [snd].
    cbn [App.firestore set_firestore]. rewrite Hl. reflexivity.
Qed.

Lemma signUp_writes_profile_witness :
  App.userRole
    (exec (notify (Some (mkUser "u7")))
          (exec (signUp session_firebase "eve@example.org" "secret" "Eve") session_app))
  = tag "mechanic".
Proof.
  apply (signUp_writes_profile session_firebase session_app "eve@example.org" "secret"
                               "Eve" (mkUser "u7"));
    reflexivity.
Defined.

(** X18. A sign-up fails with the error of the provider or, the account
    made, with the error of the store, handed on as it is; in both cases
    nothing is written and nothing is logged, so that an account whose
    profile could not be written has no profile document. *)
Theorem signUp_failure :
  forall firebase w email password name e,
    Firebase.createUserWithEmailAndPassword firebase email password = inl e
    \/ (exists u, Firebase.createUserWithEmailAndPassword firebase email password = inr u
                  /\ document_id (uid u) = true
                  /\ Firebase.setDoc firebase = Some e) ->
    signUp firebase email password name w = (Throw e, w).
Proof.
  intros firebase w email password name e [Hc|(u & Hc & Hid & Hs)];
    rewrite signUp_spec, Hc; [reflexivity|].
  now rewrite (doc_plain "Users" (uid u) w eq_refl Hid), Hs.
Qed.

Lemma signUp_failure_witness :
  signUp (Firebase.mk (fun _ _ => inr (mkUser "u1")) (fun _ _ => inr (mkUser "u7")) None
                      (Some (Err "permission-denied")) "2024-05-01T09:30:00.000Z")
         "eve@example.org" "secret" "Eve" session_app
  = (Throw (Err "permission-denied"), session_app).
Proof.
  apply signUp_failure. right. exists (mkUser "u7"). now repeat split.
Defined.

(** X19. The session intents do not set the session: whatever the provider
    and the store answer, signIn, signUp and signOut leave the identity, the
    role, the loading flag, the cart and the console as they were (the
    session changes at a notification only), and signIn and signOut end as
    the provider's call ends, with its error when it fails. *)
Theorem session_intents_leave_session :
  forall firebase w email password name,
    let unchanged w' :=
      App.user w' = App.user w /\ App.userRole w' = App.userRole w
      /\ App.loading w' = App.loading w /\ App.items w' = App.items w
      /\ App.storage w' = App.storage w /\ App.console w' = App.console w
      /\ App.unhandled w' = App.unhandled w in
    unchanged (exec (signUp firebase email password name) w)
    /\ signIn firebase email password w
       = (match Firebase.signInWithEmailAndPassword firebase email password with
          | inl e => Throw e
          | inr _ => Normal tt
          end, w)
    /\ signOut firebase w
       = (match Firebase.firebaseSignOut firebase with
          | Some e => Throw e
          | None => Normal tt
          end, w).
Proof.
  intros firebase w email password name unchanged. subst unchanged. cbv beta.
  split; [|split].
  - unfold exec. rewrite signUp_spec.
    destruct (Firebase.createUserWithEmailAndPassword firebase email password) as [e|u];
      [now repeat split|].
    destruct (doc "Users" (uid u) w) as [[docRef|e|] w1]; [|now repeat split..].
    destruct (Firebase.setDoc firebase); now repeat split.
  - unfold signIn, try_catch, mbind, Async_bind, await, throw.
    now destruct (Firebase.signInWithEmailAndPassword firebase email password).
  - unfold signOut, try_catch, throw.
    now destruct (Firebase.firebaseSignOut firebase).
Qed.

(** X20. A notification whose profile fetch is rejected sets the identity and
    stops there: the role and the loading flag stay what they were (a
    session that was loading stays loading), and the rejection of the
    callback is handled by nobody. The rejection is that of the fetch, made
    on the reference that doc gives, or that of doc where it refuses the
    uid, and then nothing is fetched; for a uid of one segment the reference
    is that of Users/uid. *)
Theorem notify_failed_fetch :
  forall w u e,
    App.rejects w GetDoc = Some e ->
    let w' := exec (notify (Some u)) w in
    completion (notify (Some u)) w = Normal tt
    /\ App.user w' = Some u
    /\ App.userRole w' = App.userRole w
    /\ App.loading w' = App.loading w
    /\ match completion (doc "Users" (uid u)) w with
       | Normal docRef =>
           App.unhandled w' = (App.unhandled w ++ [e])%list
           /\ App.reads w' = (App.reads w ++ [docRef])%list
       | Throw e' =>
           App.unhandled w' = (App.unhandled w ++ [e'])%list
           /\ App.reads w' = App.reads w
       | Untyped => False
       end
    /\ (document_id (uid u) = true ->
        App.unhandled w' = (App.unhandled w ++ [e])%list
        /\ App.reads w' = (App.reads w ++ [("Users", uid u)])%list).
Proof.
  intros w u e Hr w'.
  assert (Hdoc : forall w0, doc "Users" (uid u) w0
                            = (completion (doc "Users" (uid u)) w, w0)).
  { intros w0. unfold completion, doc.
    destruct (double_slash _ || double_slash _); [reflexivity|].
    now destruct (Nat.even _). }
  assert (H : notify (Some u) w =
              (Normal tt,
               match completion (doc "Users" (uid u)) w with
               | Normal docRef =>
                   App.set_unhandled (App.unhandled w ++ [e])
                     (App.set_reads (App.reads w ++ [docRef]) (App.set_user (Some u) w))
               | Throw e' =>
                   App.set_unhandled (App.unhandled w ++ [e']) (App.set_user (Some u) w)
               | Untyped => w
               end) /\ completion (doc "Users" (uid u)) w <> Untyped).
  { split; [|apply doc_completes].
    unfold notify, spawn, onAuthStateChanged, mbind at 1 2, Async_bind, setUser.
    unfold mbind at 1, Async_bind. rewrite Hdoc.
    destruct (completion (doc "Users" (uid u)) w) as [[collection id]|e'|] eqn:Ed;
      [|reflexivity|now destruct (doc_completes "Users" (uid u) w) as [_ Hu]].
    unfold mbind, Async_bind, getDoc. cbn. now rewrite Hr. }
  destruct H as [H Hu]. subst w'. unfold exec.
  unfold completion at 1. rewrite H. cbn [fst snd].
  assert (Hone : document_id (uid u) = true ->
                 completion (doc "Users" (uid u)) w = Normal ("Users", uid u)).
  { intros Hid. unfold completion. now rewrite (doc_plain "Users" (uid u) w eq_refl Hid). }
  destruct (completion (doc "Users" (uid u)) w) as [docRef|e'|] eqn:Ed; [| |easy].
  - do 4 (split; [reflexivity|]). split; [now split|].
    intros Hid. specialize (Hone Hid). inversion Hone. now split.
  - do 4 (split; [reflexivity|]). split; [now split|].
    intros Hid. specialize (Hone Hid). discriminate Hone.
Qed.

Lemma notify_failed_fetch_witness :
  App.loading
    (exec (notify (Some (mkUser "u1")))
          (App.mk [] None null true ∅ ∅
                  (fun c => match c with GetDoc => Some (Err "unavailable") | _ => None end)
                  [] [] []))
  = true.
Proof.
  apply (notify_failed_fetch
           (App.mk [] None null true ∅ ∅
                   (fun c => match c with GetDoc => Some (Err "unavailable") | _ => None end)
                   [] [] [])
           (mkUser "u1") (Err "unavailable") eq_refl).
Defined.

(** A notification for an identity whose uid is no path segment: doc
    refuses the reference, nothing is fetched, and the session stays
    loading. *)
Example notify_empty_uid :
  let w' := exec (notify (Some (mkUser ""))) session_app in
  App.user w' = Some (mkUser "") /\ App.reads w' = []
  /\ App.unhandled w' = [Err "invalid-argument"] /\ App.loading w' = true.
Proof. cbv zeta. repeat split; vm_compute; reflexivity. Qed.

(** X30. A notification that the store answers, for an identity whose uid
    is one segment: the identity is set, the document Users/uid is read
    once, a profile document found there gives the role (the value of its
    role field, undefined when it has none), and loading ends. Without an
    identity the role is set to null, nothing is read, and loading ends. *)
Theorem notify_sets_role :
  forall w user,
    App.rejects w GetDoc = None ->
    match user with Some u => document_id (uid u) = true | None => True end ->
    let w' := exec (notify user) w in
    completion (notify user) w = Normal tt
    /\ App.user w' = user
    /\ App.loading w' = false
    /\ App.unhandled w' = App.unhandled w
    /\ match user with
       | Some u =>
           App.reads w' = (App.reads w ++ [("Users", uid u)])%list
           /\ forall data,
               (App.firestore w !! "Users" ≫= fun docs => docs !! uid u) = Some data ->
               App.userRole w' = match data !! "role" with
                                 | Some r => tag r
                                 | None => undefined
                                 end
       | None => App.userRole w' = null /\ App.reads w' = App.reads w
       end.
Proof.
  intros w user Hr Hid w'. subst w'. unfold completion, exec.
  rewrite (notify_spec user w Hr Hid). cbn [fst snd].
  destruct user as [u|]; [|now repeat split].
  cbn zeta. destruct (App.firestore w !! "Users" ≫= _) as [data|].
  - do 4 (split; [reflexivity|]). split; [reflexivity|].
    intros data' [= <-]. reflexivity.
  - do 4 (split; [reflexivity|]). split; [reflexivity|]. intros data' [=].
Qed.

Lemma notify_sets_role_witness :
  App.userRole (exec (notify (Some (mkUser "u1"))) session_app) = tag "admin".
Proof.
  destruct (notify_sets_role session_app (Some (mkUser "u1")) eq_refl eq_refl)
    as (_ & _ & _ & _ & _ & H).
  etransitivity;
    [apply (H {[ "name" := "Ada"; "email" := "ada@example.org"; "role" := "admin" ]})|];
    vm_compute; reflexivity.
Defined.

(** ** The catalog gateway: products *)

Lemma getProductById_spec productId w :
  document_id productId = true ->
  getProductById productId w =
  let w' := App.set_reads (App.reads w ++ [("Products", productId)]) w in
  match App.rejects w GetDoc with
  | Some e =>
      (Throw e, App.set_console (App.console w ++ [("Error fetching product:", e)]) w')
  | None =>
      (Normal (with_id productId
                 <$> (App.firestore w !! "Products" ≫= fun docs => docs !! productId)), w')
  end.
Proof.
  intros Hid. unfold getProductById, try_catch, mbind at 1 2, Async_bind.
  rewrite (doc_plain "Products" productId w eq_refl Hid). cbn [fst snd].
  unfold getDoc. destruct (App.rejects w GetDoc); [reflexivity|].
  now destruct (App.firestore w !! "Products" ≫= _).
Qed.

(** X21. getProductById, when the store answers, gives the document of the
    product with its id, and null, no error and no log entry, when there is
    no such document. The id of the result is the field [id] of the
    document when it has one and the id of the document otherwise; every
    other field is as stored. The call reads one document. *)
Theorem getProductById_found_or_null :
  forall w productId,
    document_id productId = true ->
    App.rejects w GetDoc = None ->
    let stored := App.firestore w !! "Products" ≫= fun docs => docs !! productId in
    let w' := exec (getProductById productId) w in
    completion (getProductById productId) w = Normal (with_id productId <$> stored)
    /\ (stored = None -> completion (getProductById productId) w = Normal None)
    /\ App.console w' = App.console w
    /\ App.reads w' = (App.reads w ++ [("Products", productId)])%list
    /\ (forall data, stored = Some data ->
          with_id productId data !! "id" = Some (default productId (data !! "id"))
          /\ forall k, k <> "id" -> with_id productId data !! k = data !! k).
Proof.
  intros w productId Hid Hr stored w'. subst w'. unfold completion, exec.
  rewrite (getProductById_spec _ _ Hid), Hr. cbn [fst snd]. fold stored.
  split; [reflexivity|]. split; [now intros ->|]. split; [reflexivity|].
  split; [reflexivity|]. intros data _. unfold with_id. split.
  - rewrite lookup_union. destruct (data !! "id"); cbn; [reflexivity|].
    now rewrite lookup_singleton_eq.
  - intros k Hk. rewrite lookup_union, lookup_singleton_ne by congruence.
    now destruct (data !! k).
Qed.

Lemma getProductById_found_or_null_witness :
  completion (getProductById "zz") catalog_app = Normal None
  /\ App.console (exec (getProductById "zz") catalog_app) = [].
Proof.
  split.
  - apply (getProductById_found_or_null catalog_app "zz"); reflexivity.
  - apply (getProductById_found_or_null catalog_app "zz"); reflexivity.
Defined.

(** X22. getProductById hands on what fails: with the empty string as id no
    document is addressed and the call throws instead of answering null,
    and a read that the store rejects rejects the call with the same error;
    either error is logged once, under 'Error fetching product:'. *)
Theorem getProductById_failure :
  forall w productId e,
    (productId = "" /\ e = Err "invalid-argument")
    \/ (document_id productId = true /\ App.rejects w GetDoc = Some e) ->
    completion (getProductById productId) w = Throw e
    /\ App.console (exec (getProductById productId) w)
       = (App.console w ++ [("Error fetching product:", e)])%list.
Proof.
  intros w productId e [[-> ->]|[Hid Hr]]; unfold completion, exec.
  - now split.
  - rewrite (getProductById_spec _ _ Hid), Hr. now split.
Qed.

Lemma getProductById_failure_witness :
  completion (getProductById "") catalog_app = Throw (Err "invalid-argument")
  /\ App.console (exec (getProductById "") catalog_app)
     = [("Error fetching product:", Err "invalid-argument")].
Proof.
  apply (getProductById_failure catalog_app "" (Err "invalid-argument")). now left.
Defined.

#[local] Instance doc_le_total name : Total (doc_le name).
Proof.
  intros a b. unfold doc_le. rewrite (String.compare_antisym (field name (snd b))).
  destruct (String.compare (field name (snd a)) (field name (snd b))); cbn;
    [apply String.leb_total|now left|now right].
Qed.

Lemma doc_le_field name a b :
  doc_le name a b -> string_le (field name (snd a)) (field name (snd b)).
Proof.
  unfold doc_le, string_le, String.leb.
  now destruct (String.compare (field name (snd a)) (field name (snd b))).
Qed.

Lemma Sorted_map {A B} (f : A -> B) (R1 : relation A) (R2 : relation B) l :
  (forall x y, R1 x y -> R2 (f x) (f y)) -> Sorted R1 l -> Sorted R2 (List.map f l).
Proof.
  intros Hf. induction 1 as [|x l _ IH Hx]; cbn [List.map]; constructor; [exact IH|].
  destruct Hx; constructor. now apply Hf.
Qed.

Lemma field_with_id name id data :
  name <> "id" -> field name (with_id id data) = field name data.
Proof.
  intros Hne. unfold field, with_id.
  rewrite lookup_union, lookup_singleton_ne by congruence. now destruct (data !! name).
Qed.

(** The query of getProducts for a category. *)
Lemma getProducts_spec category w :
  App.rejects w GetDocs = None ->
  let q := Query.mk "Products" "name"
                    match category with
                    | Some (String c s) => [("category", String c s)]
                    | _ => []
                    end in
  getProducts category w =
  (Normal (List.map (fun d => with_id (fst d) (snd d))
                    (merge_sort (doc_le "name")
                       (List.filter (fun d => selects q (snd d))
                                    (map_to_list (default ∅ (App.firestore w !! "Products")))))),
   w).
Proof.
  intros Hr. unfold getProducts, try_catch, mbind, Async_bind, getDocs_query.
  rewrite Hr. now destruct category as [[|c s]|].
Qed.

Lemma selects_spec category data :
  selects (Query.mk "Products" "name"
                    match category with
                    | Some (String c s) => [("category", String c s)]
                    | _ => []
                    end) data = true
  <-> is_Some (data !! "name")
      /\ (forall c, category = Some c -> c <> "" -> data !! "category" = Some c).
Proof.
  unfold selects. cbn [Query.orderBy Query.where_]. rewrite andb_true_iff, bool_decide_eq_true.
  destruct category as [[|c s]|]; cbn [forallb fst snd].
  - split; [intros [H _]|intros [H _]]; split; try exact H; try reflexivity.
    intros c [= <-]. congruence.
  - rewrite andb_true_r, bool_decide_eq_true. split; intros [H1 H2]; split; try exact H1.
    + now intros c' [= <-].
    + now apply H2.
  - split; [intros [H _]|intros [H _]]; split; try exact H; try reflexivity.
    intros c [=].
Qed.

Lemma getProducts_elem category w p :
  p ∈ List.map (fun d : string * Doc => with_id (fst d) (snd d))
        (merge_sort (doc_le "name")
           (List.filter
              (fun d => selects (Query.mk "Products" "name"
                                          match category with
                                          | Some (String c s) => [("category", String c s)]
                                          | _ => []
                                          end) (snd d))
              (map_to_list (default ∅ (App.firestore w !! "Products")))))
  <-> exists id data,
        default ∅ (App.firestore w !! "Products") !! id = Some data
        /\ is_Some (data !! "name")
        /\ (forall c, category = Some c -> c <> "" -> data !! "category" = Some c)
        /\ p = with_id id data.
Proof.
  rewrite list_elem_of_In, in_map_iff. split.
  - intros ([id data] & <- & Hin). apply list_elem_of_In in Hin.
    rewrite merge_sort_Permutation in Hin. apply list_elem_of_In, filter_In in Hin.
    destruct Hin as [Hin Hsel]. apply list_elem_of_In, elem_of_map_to_list in Hin.
    apply selects_spec in Hsel as [Hn Hc]. now exists id, data.
  - intros (id & data & Hl & Hn & Hc & ->). exists (id, data). split; [reflexivity|].
    apply list_elem_of_In. rewrite merge_sort_Permutation. apply list_elem_of_In, filter_In.
    split; [now apply list_elem_of_In, elem_of_map_to_list|].
    apply selects_spec. now split.
Qed.

(** X23. getProducts, when the store answers, lists the documents of the
    Products collection that hold a name, each with its id, in the order of
    their names; a category that is a non-empty string keeps those of
    exactly that category, and the empty string, like no category, keeps
    them all. Nothing is logged. *)
Theorem getProducts_lists :
  forall w category,
    App.rejects w GetDocs = None ->
    exists products,
      getProducts category w = (Normal products, w)
      /\ (forall p,
             p ∈ products <->
             exists id data,
               default ∅ (App.firestore w !! "Products") !! id = Some data
               /\ is_Some (data !! "name")
               /\ (forall c, category = Some c -> c <> "" -> data !! "category" = Some c)
               /\ p = with_id id data)
      /\ Sorted (fun a b => string_le (field "name" a) (field "name" b)) products.
Proof.
  intros w category Hr. eexists. split; [apply (getProducts_spec _ _ Hr)|]. split.
  - intros p. apply getProducts_elem.
  - apply (Sorted_map _ (doc_le "name")); [|apply Sorted_merge_sort, _].
    intros a b Hab. rewrite !field_with_id by discriminate. now apply doc_le_field.
Qed.

Lemma getProducts_lists_witness :
  exists products,
    getProducts (Some "Power tools") catalog_app = (Normal products, catalog_app)
    /\ (forall p,
           p ∈ products <->
           exists id data,
             default ∅ (App.firestore catalog_app !! "Products") !! id = Some data
             /\ is_Some (data !! "name")
             /\ (forall c, Some "Power tools" = Some c -> c <> "" ->
                           data !! "category" = Some c)
             /\ p = with_id id data)
    /\ Sorted (fun a b => string_le (field "name" a) (field "name" b)) products.
Proof. apply (getProducts_lists catalog_app (Some "Power tools")). reflexivity. Defined.

Example getProducts_catalog_app :
  match completion (getProducts (Some "Power tools")) catalog_app with
  | Normal products => List.map (fun p => (p !! "id", p !! "name")) products
  | _ => []
  end
  = [(Some "t3", Some "Angle grinder"); (Some "t1", Some "Impact driver")].
Proof. vm_compute. reflexivity. Qed.

Lemma gateway_rejected w e category :
  App.rejects w GetDocs = Some e ->
  getProducts category w
  = (Throw e, App.set_console (App.console w ++ [("Error fetching products:", e)]) w)
  /\ getCategories w
     = (Throw e, App.set_console (App.console w ++ [("Error fetching categories:", e)]) w).
Proof.
  intros Hr. split.
  - unfold getProducts, try_catch, mbind, Async_bind, getDocs_query. now rewrite Hr.
  - unfold getCategories, try_catch, mbind, Async_bind, getDocs. now rewrite Hr.
Qed.

(** X24. A query that the store rejects makes getProducts and getCategories
    reject with the same error, after one console.error each; nothing is
    returned in its place. *)
Theorem gateway_failure_rethrown :
  forall w e category,
    App.rejects w GetDocs = Some e ->
    getProducts category w
    = (Throw e, App.set_console (App.console w ++ [("Error fetching products:", e)]) w)
    /\ getCategories w
       = (Throw e, App.set_console (App.console w ++ [("Error fetching categories:", e)]) w).
Proof.
  intros w e category Hr. now apply gateway_rejected.
Qed.

Lemma gateway_failure_rethrown_witness :
  completion (getProducts None) (unavailable (Err "unavailable")) = Throw (Err "unavailable")
  /\ completion getCategories (unavailable (Err "unavailable")) = Throw (Err "unavailable").
Proof.
  unfold completion.
  destruct (gateway_failure_rethrown (unavailable (Err "unavailable")) (Err "unavailable")
                                     None eq_refl) as [-> ->].
  now split.
Defined.

Lemma getCategories_elem w c :
  c ∈ Array_sort (collect (map_to_list (default ∅ (App.firestore w !! "Products"))) [])
  <-> observed (default ∅ (App.firestore w !! "Products")) c.
Proof.
  set (docs := default ∅ (App.firestore w !! "Products")).
  destruct (collect_spec (map_to_list docs) [] (NoDup_nil_2)) as [_ Hin].
  unfold Array_sort. rewrite merge_sort_Permutation, Hin. unfold observed. split.
  - intros [H%elem_of_nil|(Hne & [id data] & Hd%elem_of_map_to_list & Hc)]; [tauto|].
    split; [exact Hne|]. now exists id, data.
  - intros (Hne & id & data & Hd & Hc). right. split; [exact Hne|].
    exists (id, data). split; [now apply elem_of_map_to_list|exact Hc].
Qed.

(** X25. The two lists agree: the category of a product that getProducts
    lists, when it is not empty, is among the categories that getCategories
    returns over the same store. *)
Theorem listed_category_is_offered :
  forall w category products categories,
    completion (getProducts category) w = Normal products ->
    completion getCategories w = Normal categories ->
    forall p c, p ∈ products -> p !! "category" = Some c -> c <> "" -> c ∈ categories.
Proof.
  intros w category products categories Hp Hc p c Hin Hcat Hne.
  destruct (App.rejects w GetDocs) as [e|] eqn:Hr.
  { unfold completion in Hp. rewrite (proj1 (gateway_rejected w e category Hr)) in Hp.
    discriminate. }
  unfold completion in Hp, Hc. rewrite (getProducts_spec _ _ Hr) in Hp.
  cbn [fst] in Hp. injection Hp as <-.
  assert (Hg : getCategories w
               = (Normal (Array_sort (collect (map_to_list
                                                 (default ∅ (App.firestore w !! "Products")))
                                              [])), w)).
  { unfold getCategories, try_catch, mbind, Async_bind, getDocs. now rewrite Hr. }
  rewrite Hg in Hc. cbn [fst] in Hc. injection Hc as <-.
  apply getProducts_elem in Hin as (id & data & Hl & _ & _ & ->).
  apply getCategories_elem. split; [exact Hne|]. exists id, data. split; [exact Hl|].
  unfold with_id in Hcat. rewrite lookup_union, lookup_singleton_ne in Hcat by discriminate.
  now destruct (data !! "category").
Qed.

Lemma listed_category_is_offered_witness :
  "Power tools" ∈ offered catalog_app.
Proof.
  apply (listed_category_is_offered
           catalog_app (Some "Power tools") (listed (Some "Power tools") catalog_app)
           (offered catalog_app) eq_refl eq_refl
           (with_id "t3" {[ "name" := "Angle grinder"; "category" := "Power tools" ]})
           "Power tools").
  - assert (E : listed (Some "Power tools") catalog_app
                = [with_id "t3" {[ "name" := "Angle grinder"; "category" := "Power tools" ]};
                   with_id "t1" {[ "name" := "Impact driver"; "category" := "Power tools" ]}])
      by (vm_compute; reflexivity).
    rewrite E. apply list_elem_of_here.
  - reflexivity.
  - discriminate.
Defined.

(** ** The catalog screen *)

Lemma getProducts_cases category w :
  getProducts category w =
  match App.rejects w GetDocs with
  | Some e =>
      (Throw e, App.set_console (App.console w ++ [("Error fetching products:", e)]) w)
  | None => (Normal (listed category w), w)
  end.
Proof.
  destruct (App.rejects w GetDocs) as [e|] eqn:Hr.
  - apply (gateway_rejected w e category Hr).
  - unfold listed, completion. now rewrite (getProducts_spec _ _ Hr).
Qed.

Lemma getCategories_cases w :
  getCategories w =
  match App.rejects w GetDocs with
  | Some e =>
      (Throw e, App.set_console (App.console w ++ [("Error fetching categories:", e)]) w)
  | None => (Normal (offered w), w)
  end.
Proof.
  destruct (App.rejects w GetDocs) as [e|] eqn:Hr.
  - apply (gateway_rejected w e None Hr).
  - unfold offered, completion, getCategories, try_catch, mbind, Async_bind, getDocs.
    now rewrite Hr.
Qed.

Module ScreenFacts.
Import ProductCatalogScreen.

Lemma loadProducts_spec s :
  loadProducts s =
  (Normal tt,
   match App.rejects (app s) GetDocs with
   | Some e =>
       mk (products s) (categories s) (selectedCategory s) false
          (App.set_console (App.console (app s)
                            ++ [("Error fetching products:", e);
                                ("Error loading products:", e)]) (app s))
   | None =>
       mk (listed (or_undefined (selectedCategory s)) (app s)) (categories s)
          (selectedCategory s) false (app s)
   end).
Proof.
  unfold loadProducts, try_catch_finally, try_catch, mbind, M_bind, setLoading, get, lift,
    setProducts.
  cbn [set_loading app selectedCategory fst snd].
  rewrite getProducts_cases.
  destruct (App.rejects (app s) GetDocs) as [e|]; cbn; [|reflexivity].
  now rewrite <- app_assoc.
Qed.

Lemma loadCategories_spec s :
  loadCategories s =
  (Normal tt,
   match App.rejects (app s) GetDocs with
   | Some e =>
       set_app (App.set_console (App.console (app s)
                                 ++ [("Error fetching categories:", e);
                                     ("Error loading categories:", e)]) (app s)) s
   | None => set_categories (offered (app s)) s
   end).
Proof.
  unfold loadCategories, try_catch, mbind, M_bind, lift, setCategories.
  rewrite getCategories_cases.
  destruct (App.rejects (app s) GetDocs) as [e|]; cbn; [|now destruct s].
  now rewrite <- app_assoc.
Qed.

Lemma effect_spec s :
  effect s =
  (Normal tt,
   match App.rejects (app s) GetDocs with
   | Some e =>
       mk (products s) (categories s) (selectedCategory s) false
          (App.set_console (App.console (app s)
                            ++ [("Error fetching products:", e);
                                ("Error loading products:", e);
                                ("Error fetching categories:", e);
                                ("Error loading categories:", e)]) (app s))
   | None =>
       mk (listed (or_undefined (selectedCategory s)) (app s)) (offered (app s))
          (selectedCategory s) false (app s)
   end).
Proof.
  unfold effect, mbind, M_bind, spawn. rewrite loadProducts_spec.
  destruct (App.rejects (app s) GetDocs) as [e|] eqn:Hr.
  - rewrite loadCategories_spec. cbn [app App.rejects App.set_console]. rewrite Hr.
    cbn. now rewrite <- app_assoc.
  - rewrite loadCategories_spec. cbn [app]. now rewrite Hr.
Qed.
End ScreenFacts.

(** X26. loadProducts never rejects and always ends with the loading flag
    down. When the store answers, the list is the one of the gateway for
    the selected category (all products when none, or the empty string, is
    selected); when it does not, the list stays what it was, and the error
    is logged twice, by the gateway and by the screen. *)
Theorem loadProducts_settles :
  forall s,
    let s' := ProductCatalogScreen.exec ProductCatalogScreen.loadProducts s in
    ProductCatalogScreen.completion ProductCatalogScreen.loadProducts s = Normal tt
    /\ ProductCatalogScreen.loading s' = false
    /\ ProductCatalogScreen.categories s' = ProductCatalogScreen.categories s
    /\ ProductCatalogScreen.selectedCategory s' = ProductCatalogScreen.selectedCategory s
    /\ match App.rejects (ProductCatalogScreen.app s) GetDocs with
       | None =>
           ProductCatalogScreen.products s'
           = listed (ProductCatalogScreen.or_undefined
                       (ProductCatalogScreen.selectedCategory s))
                    (ProductCatalogScreen.app s)
           /\ ProductCatalogScreen.app s' = ProductCatalogScreen.app s
       | Some e =>
           ProductCatalogScreen.products s' = ProductCatalogScreen.products s
           /\ App.console (ProductCatalogScreen.app s')
              = (App.console (ProductCatalogScreen.app s)
                 ++ [("Error fetching products:", e); ("Error loading products:", e)])%list
       end.
Proof.
  intros s s'. subst s'. unfold ProductCatalogScreen.completion, ProductCatalogScreen.exec.
  rewrite ScreenFacts.loadProducts_spec. cbn [fst snd].
  destruct (App.rejects (ProductCatalogScreen.app s) GetDocs); now repeat split.
Qed.

(** X27. A press on a category button selects the category, or selects
    none when it was the selected one, and loads anew: with a store that
    answers the screen ends with the products of the new selection and the
    categories of the store; with a store that does not, the new selection
    is shown over the products and the categories that were there. Either
    way the press does not fail and the screen is not left loading. *)
Theorem pressCategory_selects :
  forall s item,
    let s' := ProductCatalogScreen.exec (ProductCatalogScreen.pressCategory item) s in
    let next := if bool_decide (ProductCatalogScreen.selectedCategory s = Some item)
                then None else Some item in
    ProductCatalogScreen.completion (ProductCatalogScreen.pressCategory item) s = Normal tt
    /\ ProductCatalogScreen.selectedCategory s' = next
    /\ ProductCatalogScreen.loading s' = false
    /\ App.unhandled (ProductCatalogScreen.app s')
       = App.unhandled (ProductCatalogScreen.app s)
    /\ match App.rejects (ProductCatalogScreen.app s) GetDocs with
       | None =>
           ProductCatalogScreen.products s'
           = listed (ProductCatalogScreen.or_undefined next) (ProductCatalogScreen.app s)
           /\ ProductCatalogScreen.categories s' = offered (ProductCatalogScreen.app s)
           /\ ProductCatalogScreen.app s' = ProductCatalogScreen.app s
       | Some e =>
           ProductCatalogScreen.products s' = ProductCatalogScreen.products s
           /\ ProductCatalogScreen.categories s' = ProductCatalogScreen.categories s
       end.
Proof.
  intros s item s' next. subst s'.
  unfold ProductCatalogScreen.completion, ProductCatalogScreen.exec,
    ProductCatalogScreen.pressCategory, mbind, ProductCatalogScreen.M_bind,
    ProductCatalogScreen.get, ProductCatalogScreen.setSelectedCategory.
  fold next.
  assert (Hne : bool_decide (next = ProductCatalogScreen.selectedCategory s) = false).
  { apply bool_decide_eq_false. subst next.
    destruct (bool_decide_reflect (ProductCatalogScreen.selectedCategory s = Some item))
      as [E|N]; congruence. }
  rewrite Hne, ScreenFacts.effect_spec. cbn [fst snd ProductCatalogScreen.app
    ProductCatalogScreen.set_selectedCategory ProductCatalogScreen.selectedCategory
    ProductCatalogScreen.products ProductCatalogScreen.categories].
  destruct (App.rejects (ProductCatalogScreen.app s) GetDocs); now repeat split.
Qed.

(** X28. Two presses on one category button: the selection comes back when
    it was that category or none, and is none when another category was
    selected. *)
Theorem pressCategory_twice :
  forall s item,
    ProductCatalogScreen.selectedCategory
      (ProductCatalogScreen.exec (ProductCatalogScreen.pressCategory item)
         (ProductCatalogScreen.exec (ProductCatalogScreen.pressCategory item) s))
    = if bool_decide (ProductCatalogScreen.selectedCategory s = Some item)
      then Some item else None.
Proof.
  intros s item.
  assert (H : forall s0,
             ProductCatalogScreen.selectedCategory
               (ProductCatalogScreen.exec (ProductCatalogScreen.pressCategory item) s0)
             = if bool_decide (ProductCatalogScreen.selectedCategory s0 = Some item)
               then None else Some item).
  { intros s0.
    unfold ProductCatalogScreen.exec, ProductCatalogScreen.pressCategory, mbind,
      ProductCatalogScreen.M_bind, ProductCatalogScreen.get,
      ProductCatalogScreen.setSelectedCategory.
    destruct (bool_decide_reflect (ProductCatalogScreen.selectedCategory s0 = Some item))
      as [E|N].
    - rewrite bool_decide_eq_false_2 by congruence. rewrite ScreenFacts.effect_spec.
      cbn. now destruct (App.rejects (ProductCatalogScreen.app s0) GetDocs).
    - rewrite bool_decide_eq_false_2 by congruence. rewrite ScreenFacts.effect_spec.
      cbn. now destruct (App.rejects (ProductCatalogScreen.app s0) GetDocs). }
  rewrite !H.
  destruct (bool_decide_reflect (ProductCatalogScreen.selectedCategory s = Some item));
    [now rewrite bool_decide_eq_false_2|now rewrite bool_decide_eq_true_2].
Qed.

(** X29. The screen once mounted is not left loading, has no category
    selected and leaves no rejection unhandled. With a store that answers
    it holds the products that the gateway lists for no category and the
    categories of the store; with a store that does not, it holds no
    product and no category, as over an empty catalog, and the error is
    logged four times, by the two calls of the gateway and by the two loads
    of the screen, in whatever order. *)
Theorem mount_loads :
  forall w,
    let s := ProductCatalogScreen.mount w in
    ProductCatalogScreen.completion ProductCatalogScreen.effect
                                    (ProductCatalogScreen.initial w) = Normal tt
    /\ ProductCatalogScreen.loading s = false
    /\ ProductCatalogScreen.selectedCategory s = None
    /\ App.unhandled (ProductCatalogScreen.app s) = App.unhandled w
    /\ match App.rejects w GetDocs with
       | None =>
           ProductCatalogScreen.products s = listed None w
           /\ ProductCatalogScreen.categories s = offered w
           /\ ProductCatalogScreen.app s = w
       | Some e =>
           ProductCatalogScreen.products s = []
           /\ ProductCatalogScreen.categories s = []
           /\ App.console (ProductCatalogScreen.app s)
              ≡ₚ (App.console w
                  ++ [("Error fetching products:", e); ("Error fetching categories:", e);
                      ("Error loading products:", e); ("Error loading categories:", e)])%list
       end.
Proof.
  intros w s. subst s.
  unfold ProductCatalogScreen.mount, ProductCatalogScreen.completion,
    ProductCatalogScreen.exec.
  rewrite ScreenFacts.effect_spec. cbn [fst snd ProductCatalogScreen.initial
    ProductCatalogScreen.app ProductCatalogScreen.selectedCategory
    ProductCatalogScreen.products ProductCatalogScreen.categories
    ProductCatalogScreen.loading].
  destruct (App.rejects w GetDocs) as [e|]; [|now repeat split].
  do 6 (split; [reflexivity|]). cbn [App.console App.set_console].
  apply Permutation_app_head. do 1 constructor. apply perm_swap.
Qed.
